(** * scraping.py: the crawl, extract, normalise and score pipeline

    A shallow embedding of [scraping.py] and the properties its
    specification states about it.

    The first half of the file is the embedding: [clean_text],
    [generate_date_urls], [get_articles_from_listing_page],
    [get_article_content], [clean_dataframe_add_sentiment] and the driver
    (its loop over the dates, its table and its export), each after the
    part of the library it calls ([re], [datetime], BeautifulSoup, pandas).
    The second half holds the properties.

    Conventions of the embedding.
    - A Python [str] is the list of its Unicode code points ([pystr]).
    - Library calls whose tables are not part of the script
      ([unicodedata.normalize], [str.lower] outside ASCII, the C library's
      [%Y] for years below 1000, the HTTP client and the HTML parser, the
      sentiment lexicon) are Section variables; the facts the proofs use
      of them are stated as hypotheses.
    - Exceptions are values: a function that can raise returns a [result].
    - DataFrames are objects in a store ([heap]) and are passed by
      reference.  A column is the list of its cells; the dtype of a
      column, which decides what [series.str] does on a column without
      rows, is a Section variable.
    - What the script prints is left out. *)

From Stdlib Require Import ZArith NArith QArith Lia List Ascii String Bool.
From stdpp Require Import base option list gmap strings.

Local Open Scope string_scope.
Local Open Scope list_scope.
Local Open Scope N_scope.

(* ===================================================================== *)
(** ** Python strings *)
(* ===================================================================== *)

Definition pystr := list N.

(** A string literal of the script, as code points. *)
Definition lit (s : string) : pystr :=
  List.map N_of_ascii (list_ascii_of_string s).

(** [Py_UNICODE_ISSPACE]: the characters [str.isspace], [str.strip] and the
    [\s] of [re] (on [str] patterns) call white space. *)
Definition is_space (c : N) : bool :=
  ((9 <=? c) && (c <=? 13)) || ((28 <=? c) && (c <=? 32))
  || (c =? 133) || (c =? 160) || (c =? 5760)
  || ((8192 <=? c) && (c <=? 8202))
  || (c =? 8232) || (c =? 8233) || (c =? 8239) || (c =? 8287)
  || (c =? 12288).

Definition is_upper (c : N) : bool := (65 <=? c) && (c <=? 90).
Definition is_lower (c : N) : bool := (97 <=? c) && (c <=? 122).
Definition is_digit (c : N) : bool := (48 <=? c) && (c <=? 57).
(** The class [[a-zA-Z]]. *)
Definition is_alpha (c : N) : bool := is_lower c || is_upper c.
(** The class [[a-zA-Z0-9\s]]. *)
Definition is_word_or_space (c : N) : bool :=
  is_alpha c || is_digit c || is_space c.
(** The class [\S]. *)
Definition is_nonspace (c : N) : bool := negb (is_space c).
Definition is_ascii (c : N) : bool := c <? 128.

(** [str.lower] on one ASCII character. *)
Definition ascii_lower (c : N) : N := if is_upper c then c + 32 else c.

(** [str.strip()]: white space removed at both ends. *)
Fixpoint lstrip (s : pystr) : pystr :=
  match s with
  | c :: s' => if is_space c then lstrip s' else s
  | [] => []
  end.

Definition rstrip (s : pystr) : pystr := rev (lstrip (rev s)).

Definition strip (s : pystr) : pystr := rstrip (lstrip s).

(** Length of the longest prefix of [s] in the class [p]. *)
Fixpoint run_length (p : N -> bool) (s : pystr) : nat :=
  match s with
  | c :: s' => if p c then S (run_length p s') else 0%nat
  | [] => 0%nat
  end.

(** No two white-space characters side by side. *)
Fixpoint single_spaced (s : pystr) : bool :=
  match s with
  | c :: s' =>
      match s' with
      | d :: _ => negb (is_space c && is_space d)
      | [] => true
      end && single_spaced s'
  | [] => true
  end.

(** [sep.join(parts)]. *)
Fixpoint join (sep : pystr) (parts : list pystr) : pystr :=
  match parts with
  | [] => []
  | [p] => p
  | p :: ps => p ++ sep ++ join sep ps
  end.

(** [s.startswith(p)]. *)
Fixpoint startswith (p s : pystr) : bool :=
  match p, s with
  | [], _ => true
  | a :: p', b :: s' => (a =? b) && startswith p' s'
  | _ :: _, [] => false
  end.

(* ===================================================================== *)
(** ** The fragment of [re] the script uses

    Literals, character classes, concatenation, alternation and a greedy
    [+] over a class: enough for the five patterns of the script.  The
    matcher backtracks as [re] does (leftmost alternative first, longest
    repetition first) and returns the number of characters matched. *)
(* ===================================================================== *)

Inductive regex :=
| Eps
| Chr (c : N)
| Cls (p : N -> bool)
| Cat (r1 r2 : regex)
| Alt (r1 r2 : regex)
| Plus (p : N -> bool).

(** The pattern of a literal word. *)
Fixpoint word (w : pystr) : regex :=
  match w with
  | [] => Eps
  | c :: w' => Cat (Chr c) (word w')
  end.

(** A literal word under [re.IGNORECASE].  For the ASCII letters other than
    [i], [k] and [s] the characters that match a letter are its two ASCII
    cases. *)
Fixpoint iword (w : pystr) : regex :=
  match w with
  | [] => Eps
  | c :: w' => Cat (Cls (fun x => ascii_lower x =? ascii_lower c)) (iword w')
  end.

(** [p+] at [s], [n] characters already matched, then the continuation. *)
Fixpoint plus_match (p : N -> bool) (s : pystr) (n : nat)
    (k : pystr -> nat -> option nat) : option nat :=
  match s with
  | c :: s' =>
      if p c then
        match plus_match p s' (S n) k with
        | Some r => Some r
        | None => k s' (S n)
        end
      else None
  | [] => None
  end.

Fixpoint re_match (r : regex) (s : pystr) (n : nat)
    (k : pystr -> nat -> option nat) : option nat :=
  match r with
  | Eps => k s n
  | Chr c =>
      match s with
      | x :: s' => if x =? c then k s' (S n) else None
      | [] => None
      end
  | Cls p =>
      match s with
      | x :: s' => if p x then k s' (S n) else None
      | [] => None
      end
  | Cat r1 r2 => re_match r1 s n (fun s' n' => re_match r2 s' n' k)
  | Alt r1 r2 =>
      match re_match r1 s n k with
      | Some m => Some m
      | None => re_match r2 s n k
      end
  | Plus p => plus_match p s n k
  end.

(** Length of the match of [r] that starts at the head of [s], if any. *)
Definition match_at (r : regex) (s : pystr) : option nat :=
  re_match r s 0%nat (fun _ n => Some n).

(** The scan of [re.sub]: [skip] characters of the current match are still
    to be passed over; otherwise a match is tried at every position, and a
    character at which none starts is copied.  (No pattern of the script
    matches the empty string, so that case of [re.sub] does not arise.) *)
Fixpoint sub_scan (r : regex) (repl : pystr) (skip : nat) (s : pystr)
    : pystr :=
  match s with
  | [] => []
  | c :: s' =>
      match skip with
      | S k => sub_scan r repl k s'
      | O =>
          match match_at r s with
          | Some (S k) => repl ++ sub_scan r repl k s'
          | _ => c :: sub_scan r repl 0%nat s'
          end
      end
  end.

(** [re.sub(r, repl, s)]. *)
Definition re_sub (r : regex) (repl s : pystr) : pystr :=
  sub_scan r repl 0%nat s.

(** [re.search(r, s)] as a truth value. *)
Fixpoint re_search (r : regex) (s : pystr) : bool :=
  match match_at r s with
  | Some _ => true
  | None =>
      match s with
      | [] => false
      | _ :: s' => re_search r s'
      end
  end.

(** The patterns of [clean_text]. *)
(** [&[a-zA-Z]+;] *)
Definition re_entity : regex := Cat (Chr 38) (Cat (Plus is_alpha) (Chr 59)).
(** [http\S+|www\.\S+] *)
Definition re_url : regex :=
  Alt (Cat (word (lit "http")) (Plus is_nonspace))
      (Cat (word (lit "www.")) (Plus is_nonspace)).
(** [[^a-zA-Z0-9\s]] *)
Definition re_special : regex := Cls (fun c => negb (is_word_or_space c)).
(** [\s+] *)
Definition re_spaces : regex := Plus is_space.
(** [cocoa], compiled with [re.IGNORECASE] (the keyword filter). *)
Definition re_cocoa : regex := iword (lit "cocoa").

(* ===================================================================== *)
(** ** Python values *)
(* ===================================================================== *)

(** The values the script passes around and stores in table cells. *)
Inductive pyval :=
| PyNone
| PyBool (b : bool)
| PyInt (z : Z)
| PyFloat (q : Q)
| PyStr (s : pystr)
| PyTimestamp (ordinal : Z).

(** [isinstance(v, str)]. *)
Definition is_str (v : pyval) : bool :=
  match v with PyStr _ => true | _ => false end.

(* ===================================================================== *)
(** ** Text normaliser: [clean_text] *)
(* ===================================================================== *)

Section TextNormalizer.

(** [unicodedata.normalize('NFKD', .)] and [str.lower]: their tables belong
    to the Python runtime. *)
Variable normalize_NFKD : pystr -> pystr.
Variable str_lower : pystr -> pystr.

(** [clean_text] (lines 99-134): the guard on non-strings, then the seven
    steps in the order of the script. *)
Definition clean_text (text : pyval) : pystr :=
  match text with
  | PyStr text =>
      let text := normalize_NFKD text in
      let text := re_sub re_entity (lit " ") text in
      let text := re_sub re_url (lit "") text in
      let text := re_sub re_special (lit " ") text in
      let text := re_sub re_spaces (lit " ") text in
      let text := str_lower text in
      let text := strip text in
      text
  | _ => lit ""
  end.

(** The text of a string input as it stands before the final [strip]. *)
Definition before_strip (text : pystr) : pystr :=
  str_lower
    (re_sub re_spaces (lit " ")
       (re_sub re_special (lit " ")
          (re_sub re_url (lit "")
             (re_sub re_entity (lit " ") (normalize_NFKD text))))).

End TextNormalizer.

(** What the proofs use of the two library functions: on ASCII text NFKD
    changes nothing and [str.lower] maps [A-Z] to [a-z]. *)
Definition NFKD_fixes_ascii (f : pystr -> pystr) : Prop :=
  forall s, forallb is_ascii s = true -> f s = s.

Definition lower_on_ascii (f : pystr -> pystr) : Prop :=
  forall s, forallb is_ascii s = true -> f s = List.map ascii_lower s.

(** The two functions restricted to ASCII text, for running examples. *)
Definition ascii_NFKD (s : pystr) : pystr := s.
Definition ascii_str_lower (s : pystr) : pystr := List.map ascii_lower s.

(* ===================================================================== *)
(** ** Exceptions *)
(* ===================================================================== *)

(** An exception: its class and [str(e)]. *)
Record exn := Exn { exn_type : string; exn_msg : pystr }.

Inductive result (A : Type) :=
| Ok (a : A)
| Raise (e : exn).
Arguments Ok {A} a.
Arguments Raise {A} e.

(* ===================================================================== *)
(** ** Dates: the part of [datetime] the enumerator uses

    A [datetime] at midnight is its year, month and day.  Ordinals, leap
    years and the conversions are those of the [datetime] module. *)
(* ===================================================================== *)

Local Open Scope Z_scope.

Record datetime := mkdate { year : Z; month : Z; day : Z }.

Definition MINYEAR : Z := 1.
Definition MAXYEAR : Z := 9999.
(** [date.max.toordinal()]. *)
Definition MAXORDINAL : Z := 3652059.

Definition is_leap (y : Z) : bool :=
  (y mod 4 =? 0) && (negb (y mod 100 =? 0) || (y mod 400 =? 0)).

Definition days_before_year (y : Z) : Z :=
  let y := y - 1 in y * 365 + y / 4 - y / 100 + y / 400.

(** [_DAYS_IN_MONTH]. *)
Definition DAYS_IN_MONTH (m : Z) : Z :=
  match m with
  | 1 => 31 | 2 => 28 | 3 => 31 | 4 => 30 | 5 => 31 | 6 => 30
  | 7 => 31 | 8 => 31 | 9 => 30 | 10 => 31 | 11 => 30 | 12 => 31
  | _ => -1
  end.

(** [_DAYS_BEFORE_MONTH]. *)
Definition DAYS_BEFORE_MONTH (m : Z) : Z :=
  match m with
  | 1 => 0 | 2 => 31 | 3 => 59 | 4 => 90 | 5 => 120 | 6 => 151
  | 7 => 181 | 8 => 212 | 9 => 243 | 10 => 273 | 11 => 304 | 12 => 334
  | _ => -1
  end.

Definition days_in_month (y m : Z) : Z :=
  if (m =? 2) && is_leap y then 29 else DAYS_IN_MONTH m.

Definition days_before_month (y m : Z) : Z :=
  DAYS_BEFORE_MONTH m + (if (2 <? m) && is_leap y then 1 else 0).

Definition ymd2ord (y m d : Z) : Z :=
  days_before_year y + days_before_month y m + d.

Definition DI400Y : Z := 146097.
Definition DI100Y : Z := 36524.
Definition DI4Y : Z := 1461.

Definition ord2ymd (n : Z) : datetime :=
  let n := n - 1 in
  let n400 := n / DI400Y in
  let n := n mod DI400Y in
  let y := n400 * 400 + 1 in
  let n100 := n / DI100Y in
  let n := n mod DI100Y in
  let n4 := n / DI4Y in
  let n := n mod DI4Y in
  let n1 := n / 365 in
  let n := n mod 365 in
  let y := y + n100 * 100 + n4 * 4 + n1 in
  if (n1 =? 4) || (n100 =? 4) then mkdate (y - 1) 12 31
  else
    let leapyear := (n1 =? 3) && (negb (n4 =? 24) || (n100 =? 3)) in
    let m := Z.shiftr (n + 50) 5 in
    let preceding :=
      DAYS_BEFORE_MONTH m + (if (2 <? m) && leapyear then 1 else 0) in
    if n <? preceding then
      let m := m - 1 in
      let preceding :=
        preceding
        - (DAYS_IN_MONTH m + (if (m =? 2) && leapyear then 1 else 0)) in
      mkdate y m (n - preceding + 1)
    else mkdate y m (n - preceding + 1).

(** The month and day of the [n]-th day (from 0) of a year, as [ord2ymd]
    finds them. *)
Definition month_day (leapyear : bool) (n : Z) : Z * Z :=
  let m := Z.shiftr (n + 50) 5 in
  let preceding :=
    DAYS_BEFORE_MONTH m + (if (2 <? m) && leapyear then 1 else 0) in
  if n <? preceding then
    let m := m - 1 in
    let preceding :=
      preceding
      - (DAYS_IN_MONTH m + (if (m =? 2) && leapyear then 1 else 0)) in
    (m, n - preceding + 1)
  else (m, n - preceding + 1).

Definition month_day_ok (leapyear : bool) (n : nat) : bool :=
  let '(m, d) := month_day leapyear (Z.of_nat n) in
  (1 <=? m) && (m <=? 12) && (1 <=? d)
  && (d <=? (if (m =? 2) && leapyear then 29 else DAYS_IN_MONTH m))
  && (DAYS_BEFORE_MONTH m + (if (2 <? m) && leapyear then 1 else 0) + d
      =? Z.of_nat n + 1).

Definition toordinal (d : datetime) : Z := ymd2ord (year d) (month d) (day d).

(** The dates a [datetime] object can hold. *)
Definition valid_date (d : datetime) : Prop :=
  MINYEAR <= year d <= MAXYEAR /\ 1 <= month d <= 12
  /\ 1 <= day d <= days_in_month (year d) (month d).

(** [a <= b] on datetimes: field by field. *)
Definition date_le (a b : datetime) : bool :=
  (year a <? year b)
  || ((year a =? year b)
      && ((month a <? month b)
          || ((month a =? month b) && (day a <=? day b)))).

(** The order of the fields, as a proposition. *)
Definition date_lt (a b : datetime) : Prop :=
  year a < year b
  \/ (year a = year b
      /\ (month a < month b \/ (month a = month b /\ day a < day b))).

Definition OverflowError : exn :=
  Exn "OverflowError" (lit "date value out of range").

(** [d + timedelta(days=k)]: through the ordinal, as [datetime.__add__]
    does; ordinals outside [1 .. MAXORDINAL] are refused. *)
Definition add_days (d : datetime) (k : Z) : result datetime :=
  let n := toordinal d + k in
  if (0 <? n) && (n <=? MAXORDINAL) then Ok (ord2ymd n)
  else Raise OverflowError.

(** One decimal digit as a character. *)
Definition digit_char (n : Z) : N := (48 + Z.to_N n)%N.

(** A number zero-padded to two and to four digits. *)
Definition two_digits (n : Z) : pystr :=
  [digit_char (n / 10 mod 10); digit_char (n mod 10)].

Definition four_digits (n : Z) : pystr :=
  [digit_char (n / 1000 mod 10); digit_char (n / 100 mod 10);
   digit_char (n / 10 mod 10); digit_char (n mod 10)].

(** Decimal digits without padding, most significant first ([fuel] bounds
    the number of digits). *)
Fixpoint decimal_digits (fuel : nat) (n : Z) : pystr :=
  match fuel with
  | O => []
  | S fuel' =>
      if n <? 10 then [digit_char n]
      else decimal_digits fuel' (n / 10) ++ [digit_char (n mod 10)]
  end.

(** [%Y] as glibc prints it: the year's digits, no padding. *)
Definition glibc_Y (y : Z) : pystr := decimal_digits 4 y.

Section DateRangeEnumerator.

(** [%Y] for a year below 1000: the C library's choice (padded to four
    digits on some platforms, bare digits on others). *)
Variable platform_Y : Z -> pystr.

(** [d.strftime("%Y%m%d")]: from year 1000 on every platform prints four
    digits. *)
Definition strftime_Ymd (d : datetime) : pystr :=
  (if 1000 <=? year d then four_digits (year d) else platform_Y (year d))
  ++ two_digits (month d) ++ two_digits (day d).

Definition listing_url (date_str : pystr) : pystr :=
  lit "https://www.ghanaweb.com/GhanaHomePage/business/browse.archive.php?date="
  ++ date_str.

(** The [while] loop of [generate_date_urls] (lines 18-22); [None] when
    [fuel] iterations were not enough to leave it. *)
Fixpoint date_loop (fuel : nat) (current_date end_date : datetime)
    (urls : list (pystr * pystr)) : option (result (list (pystr * pystr))) :=
  match fuel with
  | O => None
  | S fuel' =>
      if date_le current_date end_date then
        let date_str := strftime_Ymd current_date in
        let url := listing_url date_str in
        let urls := urls ++ [(date_str, url)] in
        match add_days current_date 1 with
        | Ok current_date => date_loop fuel' current_date end_date urls
        | Raise e => Some (Raise e)
        end
      else Some (Ok urls)
  end.

(** [generate_date_urls] (lines 13-24). *)
Definition generate_date_urls (fuel : nat) (start_date end_date : datetime)
    : option (result (list (pystr * pystr))) :=
  date_loop fuel start_date end_date [].

(** The pair the loop appends for a day. *)
Definition date_entry (d : datetime) : pystr * pystr :=
  (strftime_Ymd d, listing_url (strftime_Ymd d)).

(** The pairs of [k] days in a row, the first with ordinal [n]. *)
Fixpoint entries_from (n : Z) (k : nat) : list (pystr * pystr) :=
  match k with
  | O => []
  | S k' => date_entry (ord2ymd n) :: entries_from (n + 1) k'
  end.

End DateRangeEnumerator.

(** [(b - a).days] for two datetimes at midnight. *)
Definition days_between (a b : datetime) : Z := toordinal b - toordinal a.

(** Number of starting positions at which [key] occurs in [s]. *)
Fixpoint occurrences (key s : pystr) : nat :=
  match s with
  | [] => if startswith key [] then 1%nat else 0%nat
  | _ :: s' => ((if startswith key s then 1 else 0) + occurrences key s')%nat
  end.

(** Python's order on strings: code point by code point. *)
Fixpoint str_lt (a b : pystr) : bool :=
  match a, b with
  | _, [] => false
  | [], _ :: _ => true
  | x :: a', y :: b' => (x <? y)%N || ((x =? y)%N && str_lt a' b')
  end.

Local Close Scope Z_scope.

(* ===================================================================== *)
(** ** Parsed pages: the part of BeautifulSoup the script uses *)
(* ===================================================================== *)

(** An attribute value: a string, or the list of its tokens for the
    attributes the parser splits at white space ([class] among them). *)
Inductive attr :=
| AStr (v : pystr)
| AList (vs : list pystr).

(** A node of the parsed page.  The [BeautifulSoup] object is the [Tag]
    at the root.  [Comment] stands for every string [get_text] leaves out
    (comments, declarations, the text of scripts and styles). *)
#[warnings="-register-all"]
Inductive node :=
| NavigableString (s : pystr)
| Comment (s : pystr)
| Tag (name : string) (attrs : list (string * attr)) (contents : list node).

(** [tag.descendants]: every node below [n], in document order. *)
Fixpoint descendants (n : node) : list node :=
  match n with
  | Tag _ _ contents =>
      (fix below (l : list node) : list node :=
         match l with
         | [] => []
         | c :: l' => c :: descendants c ++ below l'
         end) contents
  | _ => []
  end.

(** [tag.attrs.get(key)]. *)
Fixpoint attrs_get (key : string) (attrs : list (string * attr))
    : option attr :=
  match attrs with
  | [] => None
  | (k, v) :: attrs' =>
      if String.eqb k key then Some v else attrs_get key attrs'
  end.

Definition pystr_eqb (a b : pystr) : bool := bool_decide (a = b).

(** An attribute value against the string a search asks for: the string
    itself, or for a token list one of the tokens or the tokens joined by
    single spaces. *)
Definition attr_matches (want : pystr) (a : attr) : bool :=
  match a with
  | AStr v => pystr_eqb v want
  | AList vs =>
      existsb (fun v => pystr_eqb v want) vs
      || pystr_eqb (join (lit " ") vs) want
  end.

(** The filter of [find(name, attr=want)]; [None] for no constraint on
    attributes. *)
Definition tag_matches (name : string) (want : option (string * pystr))
    (n : node) : bool :=
  match n with
  | Tag nm attrs _ =>
      String.eqb nm name
      && match want with
         | None => true
         | Some (key, v) =>
             match attrs_get key attrs with
             | Some a => attr_matches v a
             | None => false
             end
         end
  | _ => false
  end.

(** [tag.find_all(name, attr=want)]. *)
Definition find_all (name : string) (want : option (string * pystr))
    (n : node) : list node :=
  List.filter (tag_matches name want) (descendants n).

(** [tag.find(name, attr=want)]: the first result of [find_all] or [None]. *)
Definition find (name : string) (want : option (string * pystr))
    (n : node) : option node :=
  head (find_all name want n).

(** [tag.has_attr(key)]. *)
Definition has_attr (key : string) (n : node) : bool :=
  match n with
  | Tag _ attrs _ => bool_decide (is_Some (attrs_get key attrs))
  | _ => false
  end.

(** The text fragments [get_text] collects: the strings below the tag,
    comments left out. *)
Definition strings_of (n : node) : list pystr :=
  omap (fun d => match d with NavigableString s => Some s | _ => None end)
       (descendants n).

(** [tag.get_text()]. *)
Definition get_text (n : node) : pystr := concat (strings_of n).

(** [tag.get_text(strip=True)]: each fragment stripped, the empty ones
    dropped, the rest concatenated. *)
Definition get_text_strip (n : node) : pystr :=
  concat (List.filter (fun s => negb (pystr_eqb s []))
                      (List.map strip (strings_of n))).

(* ===================================================================== *)
(** ** Listing extractor and article fetcher *)
(* ===================================================================== *)

Definition TypeError : exn :=
  Exn "TypeError" (lit "expected string or bytes-like object, got 'list'").
Definition AttributeError : exn :=
  Exn "AttributeError" (lit "'list' object has no attribute 'startswith'").
Definition KeyError (key : string) : exn :=
  Exn "KeyError" (lit "'" ++ lit key ++ lit "'").

Definition origin : pystr := lit "https://www.ghanaweb.com".

Section Crawl.

(** [requests.get(url)], [raise_for_status()] and the parse of the body by
    [BeautifulSoup(..., 'html.parser')]: the page, or the exception one of
    the three raised. *)
Variable fetch : pystr -> result node.

(** The body of the loop over the list items (lines 46-57): the article
    to append, if any, or the exception raised on the way ([re.search] on a
    title that is a token list, [startswith] on such an href). *)
Definition listing_item (date_str : pystr) (item : node)
    : result (option (gmap string pystr)) :=
  match find "a" None item with
  | Some (Tag _ attrs _ as link) =>
      if has_attr "href" link && has_attr "title" link then
        match attrs_get "title" attrs, attrs_get "href" attrs with
        | Some title, Some href =>
            match title with
            | AStr title =>
                if re_search re_cocoa title then
                  match href with
                  | AStr href =>
                      Ok (Some
                        (<["date" := date_str]>
                          (<["title" := title]>
                            (<["url" :=
                                 if startswith (lit "http") href then href
                                 else origin ++ href]> ∅))))
                  | AList _ => Raise AttributeError
                  end
                else Ok None
            | AList _ => Raise TypeError
            end
        | _, _ => Ok None
        end
      else Ok None
  | _ => Ok None
  end.

(** The [for] loop (line 45): [articles] grows by [append]; an exception
    leaves the loop with what was appended so far. *)
Fixpoint listing_loop (date_str : pystr) (items : list node)
    (articles : list (gmap string pystr))
    : list (gmap string pystr) * option exn :=
  match items with
  | [] => (articles, None)
  | item :: items' =>
      match listing_item date_str item with
      | Ok (Some a) => listing_loop date_str items' (articles ++ [a])
      | Ok None => listing_loop date_str items' articles
      | Raise e => (articles, Some e)
      end
  end.

(** The list items the extractor walks, when the three containers are
    there (lines 37-45). *)
Definition listing_items (soup : node) : option (list node) :=
  match find "div" (Some ("class", lit "left_artl_list more_news")) soup with
  | Some article_container =>
      match find "div" (Some ("class", lit "upper")) article_container with
      | Some upper_div =>
          match find "ul" None upper_div with
          | Some article_list => Some (find_all "li" None article_list)
          | None => None
          end
      | None => None
      end
  | None => None
  end.

(** [get_articles_from_listing_page] (lines 26-61): always returns
    [articles]; an exception inside the [try] is printed and ends the work
    on the page. *)
Definition get_articles_from_listing_page (url date_str : pystr)
    : list (gmap string pystr) :=
  let articles := [] in
  match fetch url with
  | Raise e => articles
  | Ok soup =>
      match listing_items soup with
      | Some items => fst (listing_loop date_str items articles)
      | None => articles
      end
  end.

(** [d[key]]. *)
Definition getitem (d : gmap string pystr) (key : string) : result pystr :=
  match d !! key with
  | Some v => Ok v
  | None => Raise (KeyError key)
  end.

(** The [try] block of [get_article_content] (lines 66-91): the
    dictionary as the block leaves it, or the exception it raised. *)
Definition article_try (article_info : gmap string pystr)
    : result (gmap string pystr) :=
  match getitem article_info "url" with
  | Raise e => Raise e
  | Ok url =>
      match fetch url with
      | Raise e => Raise e
      | Ok soup =>
          match find "p" (Some ("id", lit "article-123")) soup with
          | Some article_paragraph =>
              let content := get_text_strip article_paragraph in
              Ok (<["content" := content]> article_info)
          | None =>
              let not_found :=
                <["content" := lit "Content not found"]> article_info in
              match
                find "div" (Some ("class", lit "article-content-area")) soup
              with
              | Some article_div =>
                  match find_all "p" None article_div with
                  | [] => Ok not_found
                  | paragraphs =>
                      let content :=
                        join (lit " ") (List.map get_text_strip paragraphs) in
                      Ok (<["content" := content]> article_info)
                  end
              | None => Ok not_found
              end
          end
      end
  end.

(** [get_article_content] (lines 63-97): the handler reads
    [article_info['url']] for its message before it stores the error text,
    so a dictionary without that key lets the [KeyError] out. *)
Definition get_article_content (article_info : gmap string pystr)
    : result (gmap string pystr) :=
  match article_try article_info with
  | Ok info => Ok info
  | Raise e =>
      match getitem article_info "url" with
      | Raise e' => Raise e'
      | Ok _ =>
          Ok (<["content" := lit "Error: " ++ exn_msg e]> article_info)
      end
  end.

End Crawl.

(* ===================================================================== *)
(** ** The driver's loop over the dates *)
(* ===================================================================== *)

Section Driver.

Variable fetch : pystr -> result node.

(** The inner loop of the driver (lines 192-197): the content of each
    article of the day is fetched and the article appended to
    [all_cocoa_articles].  The pauses ([time.sleep]) are left out, and a
    page is taken to be a function of its URL for the length of the run. *)
Fixpoint fetch_articles (cocoa_articles all_cocoa_articles : list (gmap string pystr))
    : result (list (gmap string pystr)) :=
  match cocoa_articles with
  | [] => Ok all_cocoa_articles
  | article :: cocoa_articles' =>
      match get_article_content fetch article with
      | Ok article_with_content =>
          fetch_articles cocoa_articles'
            (all_cocoa_articles ++ [article_with_content])
      | Raise e => Raise e
      end
  end.

(** The loop over the dates (lines 182-200). *)
Fixpoint crawl (date_urls : list (pystr * pystr))
    (all_cocoa_articles : list (gmap string pystr))
    : result (list (gmap string pystr)) :=
  match date_urls with
  | [] => Ok all_cocoa_articles
  | (date_str, url) :: date_urls' =>
      let cocoa_articles := get_articles_from_listing_page fetch url date_str in
      match
        match cocoa_articles with
        | [] => Ok all_cocoa_articles
        | _ :: _ => fetch_articles cocoa_articles all_cocoa_articles
        end
      with
      | Ok all_cocoa_articles => crawl date_urls' all_cocoa_articles
      | Raise e => Raise e
      end
  end.

End Driver.

(* ===================================================================== *)
(** ** Tables: the part of pandas the script uses

    A [DataFrame] is its row labels and its columns in order, each column
    the list of its cells.  DataFrame objects live in a store and are
    passed by reference, so that a call which changes a column in place is
    told apart from one that works on a copy. *)
(* ===================================================================== *)

Record DataFrame := mkframe {
  df_index : list Z;
  df_data : list (string * list pyval)
}.

(** [df.columns]. *)
Definition columns (d : DataFrame) : list string := List.map fst (df_data d).

(** [col in df.columns]. *)
Definition has_column (col : string) (d : DataFrame) : bool :=
  existsb (String.eqb col) (columns d).

Fixpoint assoc_get (col : string) (data : list (string * list pyval))
    : option (list pyval) :=
  match data with
  | [] => None
  | (c, cells) :: data' =>
      if String.eqb c col then Some cells else assoc_get col data'
  end.

(** The columns after [df[col] = cells]: the column replaced where it
    stands, or added at the end. *)
Fixpoint assoc_set (col : string) (cells : list pyval)
    (data : list (string * list pyval)) : list (string * list pyval) :=
  match data with
  | [] => [(col, cells)]
  | (c, old) :: data' =>
      if String.eqb c col then (c, cells) :: data'
      else (c, old) :: assoc_set col cells data'
  end.

(** The cells a Boolean mask keeps. *)
Fixpoint select {A : Type} (mask : list bool) (cells : list A) : list A :=
  match mask, cells with
  | b :: mask', x :: cells' =>
      if b then x :: select mask' cells' else select mask' cells'
  | _, _ => []
  end.

(** [df[mask]]: a new table with the rows the mask keeps. *)
Definition select_rows (mask : list bool) (d : DataFrame) : DataFrame :=
  mkframe (select mask (df_index d))
          (List.map (fun '(c, cells) => (c, select mask cells)) (df_data d)).

(** [df.reset_index(drop=True)]: a new table labelled [0 .. n-1]. *)
Definition reset_index (d : DataFrame) : DataFrame :=
  mkframe (List.map Z.of_nat (seq 0 (length (df_index d)))) (df_data d).

(** [df[[c1; ...; cn]]]: a new table with these columns. *)
Fixpoint pick_columns (cols : list string)
    (data : list (string * list pyval)) : result (list (string * list pyval)) :=
  match cols with
  | [] => Ok []
  | c :: cols' =>
      match assoc_get c data with
      | None => Raise (KeyError c)
      | Some cells =>
          match pick_columns cols' data with
          | Ok picked => Ok ((c, cells) :: picked)
          | Raise e => Raise e
          end
      end
  end.

(** What [to_csv(..., index=False)] writes: the header and one record per
    row, cell by cell. *)
Record csv := mkcsv {
  csv_header : list string;
  csv_records : list (list pyval)
}.

Definition to_csv (d : DataFrame) : csv :=
  mkcsv (columns d)
        (List.map
           (fun i => List.map (fun '(_, cells) => nth i cells PyNone)
                              (df_data d))
           (seq 0 (length (df_index d)))).

(** The store of DataFrame objects, and computations over it that may
    raise. *)
Abbreviation heap := (list DataFrame).
Definition M (A : Type) : Type := heap -> result A * heap.

Definition ret {A : Type} (a : A) : M A := fun h => (Ok a, h).
Definition throw {A : Type} (e : exn) : M A := fun h => (Raise e, h).
Definition bind {A B : Type} (c : M A) (k : A -> M B) : M B :=
  fun h =>
    match c h with
    | (Ok a, h') => k a h'
    | (Raise e, h') => (Raise e, h')
    end.

Notation "'let!' x ':=' c 'in' k" := (bind c (fun x => k))
  (at level 10, x name, c at level 200, k at level 200, only parsing).

Definition SystemError : exn := Exn "SystemError" (lit "no such object").

(** What [series.str] raises on a column that holds no strings. *)
Definition StrAccessorError : exn :=
  Exn "AttributeError" (lit "Can only use .str accessor with string values!").

(** A new object holding [d]. *)
Definition new_frame (d : DataFrame) : M nat :=
  fun h => (Ok (length h), h ++ [d]).

(** The table behind a reference. *)
Definition read (l : nat) : M DataFrame :=
  fun h =>
    match h !! l with
    | Some d => (Ok d, h)
    | None => (Raise SystemError, h)
    end.

(** [df[col]]. *)
Definition get_column (l : nat) (col : string) : M (list pyval) :=
  let! d := read l in
  match assoc_get col (df_data d) with
  | Some cells => ret cells
  | None => throw (KeyError col)
  end.

(** [df[col] = cells]: the object behind [l] changes. *)
Definition set_column (l : nat) (col : string) (cells : list pyval)
    : M unit :=
  let! d := read l in
  fun h =>
    (Ok tt, <[l := mkframe (df_index d) (assoc_set col cells (df_data d))]> h).

(** One cell of [series.str.strip() != '']: a missing value stays missing
    and differs from the empty string. *)
Definition stripped_nonempty (v : pyval) : bool :=
  match v with
  | PyStr s => negb (pystr_eqb (strip s) [])
  | _ => true
  end.

Section NormalizeAndScore.

Variable normalize_NFKD : pystr -> pystr.
Variable str_lower : pystr -> pystr.
(** [str(x)] of a value that is no string. *)
Variable repr : pyval -> pystr.
(** [SentimentIntensityAnalyzer().polarity_scores(text)['compound']]. *)
Variable polarity_compound : pystr -> Q.
(** Whether the dtype of a column of the table behind a reference is
    [object].  A table of the embedding holds the cells of its columns and
    not their dtypes; pandas looks at the dtype where the cells do not
    tell it, for a column without rows. *)
Variable object_dtype : nat -> string -> bool.

Definition py_str (v : pyval) : pystr :=
  match v with
  | PyStr s => s
  | _ => repr v
  end.

Definition clean (v : pyval) : pyval :=
  PyStr (clean_text normalize_NFKD str_lower v).

(** [series.str] on the column [apply(clean_text)] has returned (line
    159).  With rows, every cell of that column is a [str] and the
    accessor takes it.  Without rows, [copy] and [apply] have kept the dtype
    the column has in the caller's table, and the accessor raises
    [AttributeError] unless that dtype is [object]. *)
Definition str_accessor (df : nat) (cleaned : list pyval) : M unit :=
  match cleaned with
  | [] =>
      if object_dtype df "content" then ret tt else throw StrAccessorError
  | _ :: _ => ret tt
  end.

(** [clean_dataframe_add_sentiment] (lines 136-168).  Each rebinding of
    [cleaned_df] is a new name for a new object. *)
Definition clean_dataframe_add_sentiment (df : nat) : M nat :=
  let! d := read df in
  let! cleaned_df := new_frame d in
  let! d := read cleaned_df in
  let! _ :=
    if has_column "title" d then
      let! title := get_column cleaned_df "title" in
      set_column cleaned_df "title" (List.map clean title)
    else ret tt in
  let! d := read cleaned_df in
  let! _ :=
    if has_column "content" d then
      let! content := get_column cleaned_df "content" in
      set_column cleaned_df "content" (List.map clean content)
    else ret tt in
  let! content := get_column cleaned_df "content" in
  let! _ := str_accessor df content in
  let! d := read cleaned_df in
  let! cleaned_df :=
    new_frame (select_rows (List.map stripped_nonempty content) d) in
  let! d := read cleaned_df in
  let! cleaned_df := new_frame (reset_index d) in
  let! content := get_column cleaned_df "content" in
  let! _ :=
    set_column cleaned_df "sentiment_score"
      (List.map (fun x => PyFloat (polarity_compound (py_str x))) content) in
  ret cleaned_df.

(** The end of the driver (lines 212-215): the table is normalised and
    scored, and its [date] and [sentiment_score] columns are written out. *)
Definition driver_export (df : nat) : M csv :=
  let! df := clean_dataframe_add_sentiment df in
  let! d := read df in
  match pick_columns ["date"; "sentiment_score"] (df_data d) with
  | Raise e => throw e
  | Ok picked =>
      let! projection := new_frame (mkframe (df_index d) picked) in
      let! d := read projection in
      ret (to_csv d)
  end.

End NormalizeAndScore.

(* ===================================================================== *)
(** ** The driver's table (lines 203-216) *)
(* ===================================================================== *)

(** The names of [keys] in the order of their first occurrence, those of
    [seen] left out. *)
Fixpoint first_seen (seen keys : list string) : list string :=
  match keys with
  | [] => []
  | k :: keys' =>
      if existsb (String.eqb k) seen then first_seen seen keys'
      else k :: first_seen (k :: seen) keys'
  end.

Section DriverTable.

Variable normalize_NFKD : pystr -> pystr.
Variable str_lower : pystr -> pystr.
Variable repr : pyval -> pystr.
Variable polarity_compound : pystr -> Q.
Variable object_dtype : nat -> string -> bool.
(** [list(record)]: the keys of a dictionary in the order they were
    inserted. *)
Variable keys : gmap string pystr -> list string.
(** The value pandas stores where a record has no entry ([float('nan')]). *)
Variable nan : pyval.
(** [pd.to_datetime(series, format="%Y%m%d")], on the cells of the
    series. *)
Variable to_datetime : list pyval -> result (list pyval).

(** The cell of a record in the column [k]. *)
Definition cell (record : gmap string pystr) (k : string) : pyval :=
  match record !! k with
  | Some s => PyStr s
  | None => nan
  end.

(** [pd.DataFrame(records)] for a list of dictionaries: one row per
    record, labelled [0 .. n-1]; one column per key, in the order the keys
    are first met. *)
Definition DataFrame_of_records (records : list (gmap string pystr))
    : DataFrame :=
  mkframe (List.map Z.of_nat (seq 0 (length records)))
    (List.map (fun k => (k, List.map (fun record => cell record k) records))
       (first_seen [] (concat (List.map keys records)))).

(** The end of the script (lines 203-216): nothing is written when no
    article was collected; otherwise the table is built, its dates are
    parsed, its columns put in order, and the scored table is exported. *)
Definition driver_table (all_cocoa_articles : list (gmap string pystr))
    : M (option csv) :=
  match all_cocoa_articles with
  | [] => ret None
  | _ :: _ =>
      let! df := new_frame (DataFrame_of_records all_cocoa_articles) in
      let! date := get_column df "date" in
      match to_datetime date with
      | Raise e => throw e
      | Ok stamps =>
          let! _ := set_column df "date" stamps in
          let! d := read df in
          match pick_columns ["date"; "title"; "content"; "url"] (df_data d) with
          | Raise e => throw e
          | Ok picked =>
              let! df := new_frame (mkframe (df_index d) picked) in
              let! written :=
                driver_export normalize_NFKD str_lower repr polarity_compound
                  object_dtype df in
              ret (Some written)
          end
      end
  end.

End DriverTable.

(** A table as the constructor builds it: column names distinct, every
    column as long as the index. *)
Definition well_formed (d : DataFrame) : Prop :=
  NoDup (columns d)
  /\ Forall (fun '(_, cells) => length cells = length (df_index d))
            (df_data d).

(* ===================================================================== *)
(** ** The specification's wording, for comparison with the code *)
(* ===================================================================== *)

(** "Starts with a scheme": a URI scheme and its colon, a letter followed
    by letters, digits, [+], [-] or [.] (RFC 3986). *)
Definition is_scheme_char (c : N) : bool :=
  is_alpha c || is_digit c || (c =? 43) || (c =? 45) || (c =? 46).

Definition re_scheme : regex :=
  Alt (Cat (Cls is_alpha) (Chr 58))
      (Cat (Cls is_alpha) (Cat (Plus is_scheme_char) (Chr 58))).

Definition spec_starts_with_scheme (href : pystr) : bool :=
  bool_decide (is_Some (match_at re_scheme href)).

(** "The paragraph's trimmed text": the text of the paragraph, white space
    removed at its two ends. *)
Definition spec_trimmed_text (p : node) : pystr := strip (get_text p).

(** The characters of a cleaned text: [[a-z0-9 ]]. *)
Definition is_clean_char (c : N) : bool :=
  is_lower c || is_digit c || (c =? 32).

(* ===================================================================== *)
(** ** What the proofs compare the code with, and sample data *)
(* ===================================================================== *)

(** The title and the href of the first anchor below [item], when it has
    both and both are strings. *)
Definition anchor_strings (item : node) : option (pystr * pystr) :=
  match find "a" None item with
  | Some (Tag _ attrs _) =>
      match attrs_get "title" attrs, attrs_get "href" attrs with
      | Some (AStr title), Some (AStr href) => Some (title, href)
      | _, _ => None
      end
  | _ => None
  end.

(** The dictionary the extractor builds for a list item. *)
Definition article_ref (date_str title href : pystr) : gmap string pystr :=
  <["date" := date_str]>
    (<["title" := title]>
      (<["url" := if startswith (lit "http") href then href
                  else origin ++ href]> ∅)).

(** What the extractor makes of a list item with such an anchor. *)
Definition item_article (date_str : pystr) (item : node)
    : option (gmap string pystr) :=
  match anchor_strings item with
  | Some (title, href) =>
      if re_search re_cocoa title then Some (article_ref date_str title href)
      else None
  | None => None
  end.

(** [w] occurs in [s], letter case apart. *)
Definition contains_ignorecase (w s : pystr) : Prop :=
  exists before found after,
    s = before ++ found ++ after
    /\ List.map ascii_lower found = List.map ascii_lower w.

(** [s] starts with [w], letter case apart. *)
Fixpoint istartswith (w s : pystr) : bool :=
  match w, s with
  | [], _ => true
  | c :: w', x :: s' => (ascii_lower x =? ascii_lower c) && istartswith w' s'
  | _ :: _, [] => false
  end.

(** A listing page: the three containers, and the list items given. *)
Definition listing_page (items : list node) : node :=
  Tag "[document]" []
    [Tag "div" [("class", AList [lit "left_artl_list"; lit "more_news"])]
       [Tag "div" [("class", AList [lit "upper"])] [Tag "ul" [] items]]].

(** A list item with one anchor. *)
Definition list_item (href title : string) : node :=
  Tag "li" [] [Tag "a" [("href", AStr (lit href)); ("title", AStr (lit title))] []].

(** The two items of the specification's example, with site-relative
    links. *)
Definition sample_items : list node :=
  [list_item "/GhanaHomePage/business/1.php" "X Cocoa Prices Rise";
   list_item "/GhanaHomePage/business/2.php" "Coffee Outlook"].

(** List items as a page may hold them: one without an anchor, one of the
    specification's example, one whose anchor has no title. *)
Definition sparse_items : list node :=
  [Tag "li" [] [NavigableString (lit "Advertisement")];
   list_item "/GhanaHomePage/business/1.php" "X Cocoa Prices Rise";
   Tag "li" [] [Tag "a" [("href", AStr (lit "/GhanaHomePage/about"))] []]].

(** A page without the article-list container. *)
Definition empty_page : node :=
  Tag "[document]" [] [Tag "div" [("class", AList [lit "footer"])] []].

(** An article page without the primary paragraph: the content area holds
    the paragraphs given. *)
Definition article_page (paragraphs : list node) : node :=
  Tag "[document]" []
    [Tag "div" [("class", AList [lit "article-content-area"])] paragraphs].

Definition sample_article : gmap string pystr :=
  article_ref (lit "20150101") (lit "X Cocoa Prices Rise")
    (lit "/GhanaHomePage/business/1.php").

Definition ConnectionError : exn :=
  Exn "ConnectionError" (lit "Max retries exceeded").

(** [c] changes no object among the first [n] of the store, never shrinks
    the store, and its result satisfies [Q]. *)
Definition keeps {A : Type} (n : nat) (c : M A) (Q : A -> Prop) : Prop :=
  forall h,
    (n <= length h)%nat ->
    take n (snd (c h)) = take n h
    /\ (length h <= length (snd (c h)))%nat
    /\ (forall a, fst (c h) = Ok a -> Q a).

(** The columns after [df[col] = df[col].apply(f)], when [col] is there. *)
Definition apply_column (f : pyval -> pyval) (col : string)
    (data : list (string * list pyval)) : list (string * list pyval) :=
  match assoc_get col data with
  | Some cells => assoc_set col (List.map f cells) data
  | None => data
  end.

(** A table as the driver builds it, and stand-ins for [str] and for the
    sentiment model (every text neutral). *)
Definition sample_table : DataFrame :=
  mkframe [0; 1; 2]%Z
    [("date", [PyTimestamp 735599; PyTimestamp 735600; PyTimestamp 735601]);
     ("title", [PyStr (lit "X Cocoa Prices Rise"); PyStr (lit "Cocoa?");
                PyStr (lit "COCOA board")]);
     ("content", [PyStr (lit "Cocoa prices rose 5% today");
                  PyStr (lit " ... "); PyStr (lit "Content not found")]);
     ("url", [PyStr (lit "https://www.ghanaweb.com/1");
              PyStr (lit "https://www.ghanaweb.com/2");
              PyStr (lit "https://www.ghanaweb.com/3")])].

Definition sample_repr (v : pyval) : pystr := lit "None".

Definition neutral_polarity (text : pystr) : Q := 0%Q.

(** A store in which no column has dtype [object]: the case in which
    [series.str] is strictest. *)
Definition no_object_dtype (l : nat) (col : string) : bool := false.

(* ===================================================================== *)
(** ** Closed forms and further samples *)
(* ===================================================================== *)

(** The content the fetcher stores for an article whose URL is [url]. *)
Definition article_content (fetch : pystr -> result node) (url : pystr)
    : pystr :=
  match fetch url with
  | Raise e => lit "Error: " ++ exn_msg e
  | Ok soup =>
      match find "p" (Some ("id", lit "article-123")) soup with
      | Some article_paragraph => get_text_strip article_paragraph
      | None =>
          match find "div" (Some ("class", lit "article-content-area")) soup with
          | Some article_div =>
              match find_all "p" None article_div with
              | [] => lit "Content not found"
              | paragraphs =>
                  join (lit " ") (List.map get_text_strip paragraphs)
              end
          | None => lit "Content not found"
          end
      end
  end.

(** An article with the content the fetcher stores for it. *)
Definition with_content (fetch : pystr -> result node)
    (article : gmap string pystr) : gmap string pystr :=
  match article !! "url" with
  | Some url => <["content" := article_content fetch url]> article
  | None => article
  end.

(** The articles of one day, contents fetched. *)
Definition day_records (fetch : pystr -> result node)
    (date_url : pystr * pystr) : list (gmap string pystr) :=
  List.map (with_content fetch)
    (get_articles_from_listing_page fetch (snd date_url) (fst date_url)).


(** A letter or a digit of ASCII. *)
Definition is_alnum (c : N) : bool := is_alpha c || is_digit c.

(** The table [clean_dataframe_add_sentiment] returns for a table [d]
    whose content column is [content]. *)
Definition scored_table (normalize_NFKD str_lower : pystr -> pystr)
    (repr : pyval -> pystr) (polarity_compound : pystr -> Q)
    (d : DataFrame) (content : list pyval) : DataFrame :=
  let cleaned := List.map (clean normalize_NFKD str_lower) content in
  let mask := List.map stripped_nonempty cleaned in
  let d3 :=
    select_rows mask
      (mkframe (df_index d)
         (apply_column (clean normalize_NFKD str_lower) "content"
            (apply_column (clean normalize_NFKD str_lower) "title"
               (df_data d)))) in
  mkframe (df_index (reset_index d3))
    (assoc_set "sentiment_score"
       (List.map (fun x => PyFloat (polarity_compound (py_str repr x)))
          (select mask cleaned))
       (df_data d3)).

(** Column lengths. *)
Definition all_length (n : nat) (data : list (string * list pyval)) : Prop :=
  Forall (fun '(_, cells) => length cells = n) data.


(** A table without a content column. *)
Definition titles_only : DataFrame :=
  mkframe [0; 1]%Z
    [("title", [PyStr (lit "X Cocoa Prices Rise"); PyStr (lit "Cocoa?")])].

(** Stand-ins for the witnesses: the keys in the order of the map, and a
    parser that reads the key of the first day of 2015. *)
Definition sample_keys (record : gmap string pystr) : list string :=
  elements (dom record).

Definition ValueError : exn :=
  Exn "ValueError" (lit "time data does not match format").

Definition sample_to_datetime (cells : list pyval) : result (list pyval) :=
  Ok (List.map (fun _ => PyTimestamp 735599) cells).

(* ===================================================================== *)
(** * Properties *)
(* ===================================================================== *)
(** ** Facts about the matcher and [re.sub] *)
(* ===================================================================== *)

Lemma match_at_Cls p c s :
  match_at (Cls p) (c :: s) = if p c then Some 1%nat else None.
Proof. reflexivity. Qed.

(** A greedy [p+] that nothing follows takes the longest run. *)
Lemma plus_match_run p s n :
  plus_match p s n (fun _ m => Some m)
  = match s with
    | c :: s' =>
        if p c then Some (S n + run_length p s')%nat else None
    | [] => None
    end.
Proof.
  revert n. induction s as [|c s IH]; intros n; simpl; [reflexivity|].
  destruct (p c) eqn:Hc; [|reflexivity].
  rewrite IH. destruct s as [|d s]; simpl; [f_equal; lia|].
  destruct (p d) eqn:Hd; simpl; f_equal; rewrite ?Hd; simpl; lia.
Qed.

Lemma match_at_Plus p s :
  match_at (Plus p) s
  = match run_length p s with O => None | S k => Some (S k) end.
Proof.
  unfold match_at; simpl. rewrite plus_match_run.
  destruct s as [|c s]; simpl; [reflexivity|].
  destruct (p c); reflexivity.
Qed.

(** Inside a match the scan only passes over characters. *)
Lemma sub_scan_skip r repl k s :
  sub_scan r repl k s = sub_scan r repl 0 (drop k s).
Proof.
  revert k. induction s as [|c s IH]; intros [|k]; simpl; try reflexivity.
  - apply IH.
Qed.

(** Where the pattern matches nowhere, [re.sub] returns its input. *)
Lemma re_sub_no_match r repl s : re_search r s = false -> re_sub r repl s = s.
Proof.
  unfold re_sub. induction s as [|c s IH]; simpl; [reflexivity|].
  destruct (match_at r (c :: s)); [discriminate|].
  intros H. f_equal. apply IH, H.
Qed.

(** Every character [re.sub] returns comes from the replacement or is a
    character of the input at which no match starts. *)
Lemma sub_scan_Forall (Q : N -> Prop) r repl :
  Forall Q repl ->
  forall s k,
    (forall c s', In c s -> match_at r (c :: s') = None -> Q c) ->
    (forall c s', In c s -> match_at r (c :: s') = Some 0%nat -> Q c) ->
    Forall Q (sub_scan r repl k s).
Proof.
  intros Hrepl. induction s as [|c s IH]; intros k Hn Hz; simpl.
  - constructor.
  - assert (Hrec : forall k', Forall Q (sub_scan r repl k' s)).
    { intros k'. apply IH; intros d s' Hd; [apply Hn | apply Hz]; now right. }
    destruct k as [|k]; [|apply Hrec].
    destruct (match_at r (c :: s)) as [[|m]|] eqn:Hm.
    + constructor; [eapply Hz; [now left | exact Hm] | apply Hrec].
    + apply Forall_app; split; [exact Hrepl | apply Hrec].
    + constructor; [eapply Hn; [now left | exact Hm] | apply Hrec].
Qed.

(* ===================================================================== *)
(** ** Character classes *)
(* ===================================================================== *)

Ltac unfold_classes :=
  unfold is_clean_char, is_word_or_space, is_scheme_char, is_nonspace,
    is_alpha, is_lower, is_upper, is_digit, is_space, is_ascii in *.

Ltac bool_to_prop :=
  repeat rewrite ?orb_true_iff, ?andb_true_iff, ?negb_true_iff,
    ?orb_false_iff, ?andb_false_iff, ?negb_false_iff,
    ?N.leb_le, ?N.eqb_eq, ?N.ltb_lt, ?N.leb_gt, ?N.eqb_neq, ?N.ltb_ge in *.

Ltac chars := unfold_classes; bool_to_prop; lia.

Lemma word_or_space_cases c :
  is_word_or_space c = true ->
  is_space c = false -> (is_alpha c || is_digit c) = true.
Proof.
  unfold is_word_or_space. intros H Hs. rewrite Hs, orb_false_r in H. exact H.
Qed.

Lemma alnum_not_space c : (is_alpha c || is_digit c) = true -> is_space c = false.
Proof. chars. Qed.

Lemma alnum_or_blank_ascii c :
  (is_alpha c || is_digit c || (c =? 32)) = true -> is_ascii c = true.
Proof. chars. Qed.

Lemma ascii_lower_clean c :
  (is_alpha c || is_digit c || (c =? 32)) = true ->
  is_clean_char (ascii_lower c) = true.
Proof.
  unfold ascii_lower. destruct (is_upper c) eqn:Hu; chars.
Qed.

Lemma clean_char_cases c :
  is_clean_char c = true ->
  is_ascii c = true /\ is_upper c = false /\ c <> 38 /\ c <> 46
  /\ is_word_or_space c = true /\ (is_space c = true -> c = 32).
Proof. intros H. repeat split; revert H; chars. Qed.

(* ===================================================================== *)
(** ** The stages of [clean_text] *)
(* ===================================================================== *)

Lemma lit_space : lit " " = [32].
Proof. reflexivity. Qed.

(** After the fourth stage only letters, digits and white space are left. *)
Lemma special_stage s :
  Forall (fun c => is_word_or_space c = true)
         (re_sub re_special (lit " ") s).
Proof.
  apply sub_scan_Forall.
  - rewrite lit_space. repeat constructor.
  - intros c s' _. unfold re_special. rewrite match_at_Cls.
    destruct (is_word_or_space c); [reflexivity | discriminate].
  - intros c s' _. unfold re_special. rewrite match_at_Cls.
    destruct (negb (is_word_or_space c)); discriminate.
Qed.

(** After the fifth the only white space left is the space character. *)
Lemma spaces_stage s :
  Forall (fun c => is_word_or_space c = true) s ->
  Forall (fun c => (is_alpha c || is_digit c || (c =? 32)) = true)
         (re_sub re_spaces (lit " ") s).
Proof.
  intros Hs. apply sub_scan_Forall.
  - rewrite lit_space. repeat constructor.
  - intros c s' Hin. unfold re_spaces. rewrite match_at_Plus. simpl.
    rewrite List.Forall_forall in Hs. specialize (Hs c Hin).
    destruct (is_space c) eqn:Hc; [discriminate|]. intros _.
    rewrite (word_or_space_cases c Hs Hc). reflexivity.
  - intros c s' _. unfold re_spaces. rewrite match_at_Plus.
    destruct (run_length is_space (c :: s')); discriminate.
Qed.

Lemma lstrip_Forall (Q : N -> Prop) s : Forall Q s -> Forall Q (lstrip s).
Proof.
  induction 1 as [|c s Hc Hs IH]; simpl; [constructor|].
  destruct (is_space c); [exact IH | now constructor].
Qed.

Lemma strip_Forall (Q : N -> Prop) s : Forall Q s -> Forall Q (strip s).
Proof.
  intros H. unfold strip, rstrip.
  apply Forall_rev, lstrip_Forall, Forall_rev, lstrip_Forall, H.
Qed.

Lemma Forall_forallb (p : N -> bool) s :
  Forall (fun c => p c = true) s -> forallb p s = true.
Proof. intros H. apply forallb_forall. rewrite List.Forall_forall in H. exact H. Qed.

(** The fifth stage, by cases on the first character. *)
Lemma collapse_nil : re_sub re_spaces (lit " ") [] = [].
Proof. reflexivity. Qed.

Lemma collapse_nonspace c s :
  is_space c = false ->
  re_sub re_spaces (lit " ") (c :: s) = c :: re_sub re_spaces (lit " ") s.
Proof.
  intros Hc. unfold re_sub, re_spaces. simpl sub_scan.
  rewrite match_at_Plus. simpl. rewrite Hc. reflexivity.
Qed.

Lemma collapse_space c s :
  is_space c = true ->
  re_sub re_spaces (lit " ") (c :: s)
  = 32 :: re_sub re_spaces (lit " ") (drop (run_length is_space s) s).
Proof.
  intros Hc. unfold re_sub, re_spaces. simpl sub_scan.
  rewrite match_at_Plus. simpl run_length. rewrite Hc.
  rewrite sub_scan_skip. reflexivity.
Qed.

Lemma drop_run_head p s :
  match drop (run_length p s) s with
  | d :: _ => p d = false
  | [] => True
  end.
Proof.
  induction s as [|c s IH]; simpl; [exact I|].
  destruct (p c) eqn:Hc; simpl; [exact IH | exact Hc].
Qed.

Lemma collapse_head s :
  match s with
  | c :: _ =>
      is_space c = false ->
      exists r, re_sub re_spaces (lit " ") s = c :: r
  | [] => True
  end.
Proof.
  destruct s as [|c s]; [exact I|]. intros Hc.
  rewrite collapse_nonspace by exact Hc. eauto.
Qed.

Lemma spaces_stage_single s : single_spaced (re_sub re_spaces (lit " ") s) = true.
Proof.
  remember (length s) as n eqn:Hn. revert s Hn.
  induction n as [n IH] using lt_wf_ind. intros [|c s] Hn.
  - reflexivity.
  - simpl in Hn. destruct (is_space c) eqn:Hc.
    + rewrite collapse_space by exact Hc.
      set (t := drop (run_length is_space s) s).
      assert (Hlen : (length t < n)%nat).
      { subst t n. rewrite length_drop. lia. }
      specialize (IH _ Hlen t eq_refl).
      pose proof (drop_run_head is_space s) as Hd. fold t in Hd.
      pose proof (collapse_head t) as Hh.
      destruct t as [|d t']; [reflexivity|].
      destruct (Hh Hd) as [r Hr]. rewrite Hr in IH |- *.
      change (single_spaced (32 :: d :: r))
        with (negb (is_space 32 && is_space d) && single_spaced (d :: r)).
      rewrite Hd, andb_false_r. exact IH.
    + rewrite collapse_nonspace by exact Hc.
      assert (Hlen : (length s < n)%nat) by lia.
      specialize (IH _ Hlen s eq_refl).
      simpl. rewrite Hc. simpl. rewrite IH.
      destruct (re_sub re_spaces (lit " ") s); reflexivity.
Qed.

Lemma is_space_ascii_lower c : is_space (ascii_lower c) = is_space c.
Proof.
  unfold ascii_lower. destruct (is_upper c) eqn:Hu; [|reflexivity].
  assert (is_space c = false) by (revert Hu; chars).
  assert (is_space (c + 32) = false) by (revert Hu; chars).
  congruence.
Qed.

Lemma single_spaced_lower s :
  single_spaced (List.map ascii_lower s) = single_spaced s.
Proof.
  induction s as [|c s IH]; [reflexivity|].
  simpl. rewrite IH. destruct s as [|d s]; [reflexivity|].
  simpl. rewrite !is_space_ascii_lower. reflexivity.
Qed.

(** [strip], one end at a time. *)
Lemma lstrip_app_single l c :
  lstrip (l ++ [c])
  = match lstrip l with
    | [] => lstrip [c]
    | r => r ++ [c]
    end.
Proof.
  induction l as [|d l IH]; simpl; [destruct (is_space c); reflexivity|].
  destruct (is_space d); [exact IH | reflexivity].
Qed.

Lemma rstrip_cons c s :
  rstrip (c :: s)
  = match rstrip s with
    | [] => if is_space c then [] else [c]
    | r => c :: r
    end.
Proof.
  unfold rstrip. simpl rev. rewrite lstrip_app_single.
  destruct (lstrip (rev s)) as [|d r] eqn:Hr; simpl.
  - destruct (is_space c); reflexivity.
  - rewrite rev_app_distr. simpl.
    destruct (rev r ++ [d]) eqn:Hx; [|reflexivity].
    destruct (rev r); discriminate.
Qed.

Lemma rstrip_nil : rstrip [] = [].
Proof. reflexivity. Qed.

Lemma rstrip_idem s : rstrip (rstrip s) = rstrip s.
Proof.
  induction s as [|c s IH]; [reflexivity|].
  rewrite rstrip_cons. destruct (rstrip s) as [|d r] eqn:Hr.
  - destruct (is_space c) eqn:Hc; [reflexivity|].
    rewrite rstrip_cons, rstrip_nil, Hc. reflexivity.
  - rewrite rstrip_cons, IH. reflexivity.
Qed.

Lemma lstrip_head s :
  match lstrip s with
  | c :: _ => is_space c = false
  | [] => True
  end.
Proof.
  induction s as [|c s IH]; simpl; [exact I|].
  destruct (is_space c) eqn:Hc; [exact IH | exact Hc].
Qed.

Lemma lstrip_fixed c s : is_space c = false -> lstrip (c :: s) = c :: s.
Proof. intros Hc. simpl. rewrite Hc. reflexivity. Qed.

Lemma rstrip_keeps_head c s :
  is_space c = false -> exists r, rstrip (c :: s) = c :: r.
Proof.
  intros Hc. rewrite rstrip_cons. destruct (rstrip s); rewrite ?Hc; eauto.
Qed.

Lemma strip_idem s : strip (strip s) = strip s.
Proof.
  unfold strip. pose proof (lstrip_head s) as Hh.
  destruct (lstrip s) as [|c u]; [reflexivity|].
  destruct (rstrip_keeps_head c u Hh) as [r Hr].
  rewrite Hr, lstrip_fixed by exact Hh. rewrite <- Hr. apply rstrip_idem.
Qed.

Lemma single_spaced_tail c s : single_spaced (c :: s) = true -> single_spaced s = true.
Proof. simpl. intros H. apply andb_true_iff in H. apply H. Qed.

Lemma single_spaced_lstrip s :
  single_spaced s = true -> single_spaced (lstrip s) = true.
Proof.
  induction s as [|c s IH]; [reflexivity|]. intros H. simpl lstrip.
  destruct (is_space c); [apply IH, (single_spaced_tail c), H | exact H].
Qed.

Lemma single_spaced_rstrip s :
  single_spaced s = true -> single_spaced (rstrip s) = true.
Proof.
  induction s as [|c s IH]; [reflexivity|]. intros H.
  pose proof (IH (single_spaced_tail c s H)) as IH'.
  rewrite rstrip_cons. destruct (rstrip s) as [|d r] eqn:Hr.
  - destruct (is_space c); reflexivity.
  - destruct s as [|e s]; [discriminate|].
    assert (d = e) as ->.
    { rewrite rstrip_cons in Hr. destruct (rstrip s); [|congruence].
      destruct (is_space e); congruence. }
    simpl in H |- *. apply andb_true_iff in H as [H1 _].
    rewrite H1. exact IH'.
Qed.

Lemma single_spaced_strip s :
  single_spaced s = true -> single_spaced (strip s) = true.
Proof. intros H. apply single_spaced_rstrip, single_spaced_lstrip, H. Qed.

(** On a text that is already clean the stages change nothing. *)
Lemma no_entity s :
  Forall (fun c => is_clean_char c = true) s -> re_search re_entity s = false.
Proof.
  induction 1 as [|c s Hc Hs IH]; [reflexivity|].
  simpl. unfold match_at, re_entity. simpl re_match.
  destruct (c =? 38) eqn:E; [|exact IH].
  apply N.eqb_eq in E. apply clean_char_cases in Hc. tauto.
Qed.

Lemma no_special s :
  Forall (fun c => is_clean_char c = true) s -> re_search re_special s = false.
Proof.
  induction 1 as [|c s Hc Hs IH]; [reflexivity|].
  simpl. unfold re_special at 1. rewrite match_at_Cls.
  apply clean_char_cases in Hc as (_ & _ & _ & _ & Hw & _).
  rewrite Hw. exact IH.
Qed.

Lemma collapse_fixed s :
  Forall (fun c => is_clean_char c = true) s ->
  single_spaced s = true ->
  re_sub re_spaces (lit " ") s = s.
Proof.
  induction 1 as [|c s Hc Hs IH]; [reflexivity|]. intros Hsp.
  pose proof (IH (single_spaced_tail c s Hsp)) as IH'.
  destruct (is_space c) eqn:Hsc.
  - rewrite collapse_space by exact Hsc.
    apply clean_char_cases in Hc as (_ & _ & _ & _ & _ & H32).
    rewrite (H32 Hsc). f_equal.
    destruct s as [|d s]; [reflexivity|].
    simpl in Hsp. rewrite Hsc in Hsp. simpl in Hsp.
    apply andb_true_iff in Hsp as [Hd _]. apply negb_true_iff in Hd.
    simpl run_length. rewrite Hd. exact IH'.
  - rewrite collapse_nonspace by exact Hsc. f_equal. exact IH'.
Qed.

Lemma lower_fixed s :
  Forall (fun c => is_clean_char c = true) s -> List.map ascii_lower s = s.
Proof.
  induction 1 as [|c s Hc Hs IH]; [reflexivity|]. simpl. rewrite IH.
  apply clean_char_cases in Hc as (_ & Hu & _). unfold ascii_lower.
  rewrite Hu. reflexivity.
Qed.

Lemma clean_chars_ascii s :
  Forall (fun c => is_clean_char c = true) s -> forallb is_ascii s = true.
Proof.
  intros H. apply Forall_forallb. eapply List.Forall_impl; [|exact H].
  intros c Hc. apply clean_char_cases in Hc. tauto.
Qed.

Section CleanTextFacts.

Variable normalize_NFKD : pystr -> pystr.
Variable str_lower : pystr -> pystr.
Hypothesis lower_ascii : lower_on_ascii str_lower.

Hypothesis nfkd_ascii : NFKD_fixes_ascii normalize_NFKD.

Local Abbreviation clean_text := (clean_text normalize_NFKD str_lower).
Local Abbreviation before_strip := (before_strip normalize_NFKD str_lower).

Lemma clean_text_str text : clean_text (PyStr text) = strip (before_strip text).
Proof. reflexivity. Qed.

Lemma before_strip_chars text :
  Forall (fun c => is_clean_char c = true) (before_strip text).
Proof.
  unfold before_strip.
  set (t := re_sub re_spaces _ _).
  assert (Ht : Forall (fun c => (is_alpha c || is_digit c || (c =? 32)) = true) t)
    by apply spaces_stage, special_stage.
  rewrite lower_ascii.
  - apply Forall_map. eapply Forall_impl; [exact Ht|].
    intros c Hc. apply ascii_lower_clean, Hc.
  - apply Forall_forallb. eapply Forall_impl; [exact Ht|].
    intros c Hc. apply alnum_or_blank_ascii, Hc.
Qed.

Lemma clean_text_chars (x : pyval) :
  Forall (fun c => is_clean_char c = true) (clean_text x).
Proof.
  destruct x; simpl; try constructor.
  apply strip_Forall, before_strip_chars.
Qed.

Lemma before_strip_single text : single_spaced (before_strip text) = true.
Proof.
  unfold before_strip.
  set (u := re_sub re_special _ _).
  assert (Hu : Forall (fun c => is_word_or_space c = true) u)
    by apply special_stage.
  rewrite lower_ascii.
  - rewrite single_spaced_lower. apply spaces_stage_single.
  - apply Forall_forallb. eapply List.Forall_impl; [|apply spaces_stage, Hu].
    intros c Hc. apply alnum_or_blank_ascii, Hc.
Qed.

(** Cleaning a cleaned text again changes nothing, provided the cleaned
    text holds no match of the URL pattern. *)
Lemma cleaned_text_is_fixed (x : pyval) :
  re_search re_url (clean_text x) = false ->
  clean_text (PyStr (clean_text x)) = clean_text x.
Proof.
  intros Hurl. set (t := clean_text x) in *.
  assert (Hc : Forall (fun c => is_clean_char c = true) t)
    by apply clean_text_chars.
  assert (Hsp : single_spaced t = true).
  { subst t. destruct x; try reflexivity.
    rewrite clean_text_str. apply single_spaced_strip, before_strip_single. }
  assert (Hst : strip t = t).
  { subst t. destruct x; try reflexivity.
    rewrite clean_text_str. apply strip_idem. }
  rewrite clean_text_str. unfold before_strip.
  rewrite nfkd_ascii by apply clean_chars_ascii, Hc.
  rewrite (re_sub_no_match re_entity) by apply no_entity, Hc.
  rewrite (re_sub_no_match re_url) by exact Hurl.
  rewrite (re_sub_no_match re_special) by apply no_special, Hc.
  rewrite collapse_fixed by assumption.
  rewrite lower_ascii by apply clean_chars_ascii, Hc.
  rewrite lower_fixed by exact Hc.
  exact Hst.
Qed.

End CleanTextFacts.

(** What [clean_text] makes of [HTTPS] and of [https], whatever the tables
    of the runtime say outside ASCII. *)
Lemma clean_text_HTTPS normalize_NFKD str_lower :
  NFKD_fixes_ascii normalize_NFKD -> lower_on_ascii str_lower ->
  clean_text normalize_NFKD str_lower (PyStr (lit "HTTPS")) = lit "https"
  /\ clean_text normalize_NFKD str_lower (PyStr (lit "https")) = lit "".
Proof.
  intros Hn Hl. unfold clean_text. split.
  - rewrite Hn by reflexivity.
    set (t := re_sub re_spaces _ _). vm_compute in t. subst t.
    rewrite Hl by reflexivity. reflexivity.
  - rewrite Hn by reflexivity.
    set (t := re_sub re_spaces _ _). vm_compute in t. subst t.
    rewrite Hl by reflexivity. reflexivity.
Qed.

Lemma ascii_NFKD_ok : NFKD_fixes_ascii ascii_NFKD.
Proof. intros s _. reflexivity. Qed.

Lemma ascii_str_lower_ok : lower_on_ascii ascii_str_lower.
Proof. intros s _. reflexivity. Qed.

(** C1, as stated, fails: [clean_text("HTTPS")] is ["https"], which the
    URL pattern of the third stage removes when it is cleaned again. *)
Lemma clean_text_not_idempotent :
  clean_text ascii_NFKD ascii_str_lower
    (PyStr (clean_text ascii_NFKD ascii_str_lower (PyStr (lit "HTTPS"))))
  <> clean_text ascii_NFKD ascii_str_lower (PyStr (lit "HTTPS")).
Proof.
  destruct (clean_text_HTTPS _ _ ascii_NFKD_ok ascii_str_lower_ok) as [H1 H2].
  rewrite H1, H2. discriminate.
Qed.

(** C1, amended: [clean_text(clean_text(x)) == clean_text(x)] for every
    input [x] whose cleaned text holds no match of the URL pattern
    [http\S+|www\.\S+], that is, no [http] directly followed by a character
    other than a space. *)
Theorem clean_text_idempotent normalize_NFKD str_lower (x : pyval) :
  NFKD_fixes_ascii normalize_NFKD ->
  lower_on_ascii str_lower ->
  re_search re_url (clean_text normalize_NFKD str_lower x) = false ->
  clean_text normalize_NFKD str_lower
    (PyStr (clean_text normalize_NFKD str_lower x))
  = clean_text normalize_NFKD str_lower x.
Proof.
  intros Hn Hl Hurl. now apply cleaned_text_is_fixed.
Qed.

Lemma clean_text_idempotent_witness :
  let x := PyStr (lit "  Cocoa&amp;Prices: up 5% see http://x.y/z?a=1 NOW! ") in
  clean_text ascii_NFKD ascii_str_lower x = lit "cocoa prices up 5 see now"
  /\ clean_text ascii_NFKD ascii_str_lower
       (PyStr (clean_text ascii_NFKD ascii_str_lower x))
     = clean_text ascii_NFKD ascii_str_lower x.
Proof.
  intros x. split; [vm_compute; reflexivity|].
  apply (clean_text_idempotent ascii_NFKD ascii_str_lower x).
  - intros s _. reflexivity.
  - intros s _. reflexivity.
  - vm_compute. reflexivity.
Defined.

(** C3: for every input [x], [clean_text(x)] holds no character outside
    lowercase ASCII letters, ASCII digits and the space: [[a-z0-9 ]]. *)
Theorem clean_text_charset normalize_NFKD str_lower (x : pyval) :
  lower_on_ascii str_lower ->
  Forall (fun c => is_clean_char c = true)
         (clean_text normalize_NFKD str_lower x).
Proof. intros Hl. now apply clean_text_chars. Qed.

Lemma clean_text_charset_witness :
  Forall (fun c => is_clean_char c = true)
         (clean_text ascii_NFKD ascii_str_lower
            (PyStr (lit "Ghana's COCOA: +5% (Q3) <b>up</b>"))).
Proof.
  apply (clean_text_charset ascii_NFKD ascii_str_lower).
  intros s _. reflexivity.
Defined.

(** C4: [clean_text] is total, and on an input that is no string ([None],
    [123], ...) it returns the empty string. *)
Theorem clean_text_non_string normalize_NFKD str_lower (x : pyval) :
  is_str x = false -> clean_text normalize_NFKD str_lower x = lit "".
Proof. destruct x; simpl; intros H; try reflexivity; discriminate. Qed.

Lemma clean_text_non_string_witness :
  clean_text ascii_NFKD ascii_str_lower PyNone = lit ""
  /\ clean_text ascii_NFKD ascii_str_lower (PyInt 123) = lit "".
Proof.
  split.
  - apply (clean_text_non_string ascii_NFKD ascii_str_lower PyNone).
    reflexivity.
  - apply (clean_text_non_string ascii_NFKD ascii_str_lower (PyInt 123)).
    reflexivity.
Defined.

(* ===================================================================== *)
(** ** The calendar *)
(* ===================================================================== *)

Local Open Scope Z_scope.

Lemma days_before_year_decomp a b c e :
  0 <= b <= 3 -> 0 <= c <= 24 -> 0 <= e <= 3 ->
  days_before_year (400 * a + 100 * b + 4 * c + e + 1)
  = 146097 * a + 36524 * b + 1461 * c + 365 * e.
Proof.
  intros Hb Hc He. unfold days_before_year.
  replace (400 * a + 100 * b + 4 * c + e + 1 - 1)
    with (400 * a + 100 * b + 4 * c + e) by lia.
  Z.div_mod_to_equations. lia.
Qed.

Lemma is_leap_decomp a b c e :
  0 <= b <= 3 -> 0 <= c <= 24 -> 0 <= e <= 3 ->
  is_leap (400 * a + 100 * b + 4 * c + e + 1)
  = (e =? 3) && (negb (c =? 24) || (b =? 3)).
Proof.
  intros Hb Hc He. unfold is_leap.
  destruct (e =? 3) eqn:E3; destruct (c =? 24) eqn:E24;
    destruct (b =? 3) eqn:Eb; simpl;
    rewrite ?andb_true_iff, ?andb_false_iff, ?orb_true_iff, ?orb_false_iff,
      ?negb_true_iff, ?negb_false_iff, ?Z.eqb_eq, ?Z.eqb_neq in *;
    Z.div_mod_to_equations; lia.
Qed.

Lemma month_day_table :
  forallb (month_day_ok true) (seq 0%nat 366%nat) = true
  /\ forallb (month_day_ok false) (seq 0%nat 365%nat) = true.
Proof. split; vm_compute; reflexivity. Qed.

Lemma month_day_spec (leapyear : bool) (n : Z) :
  0 <= n < 365 + (if leapyear then 1 else 0) ->
  forall m d, month_day leapyear n = (m, d) ->
  1 <= m <= 12
  /\ 1 <= d <= (if (m =? 2) && leapyear then 29 else DAYS_IN_MONTH m)
  /\ DAYS_BEFORE_MONTH m + (if (2 <? m) && leapyear then 1 else 0) + d = n + 1.
Proof.
  intros Hn m d Hmd.
  assert (Hok : month_day_ok leapyear (Z.to_nat n) = true).
  { destruct month_day_table as [Ht Hf].
    destruct leapyear;
      [eapply forallb_forall in Ht | eapply forallb_forall in Hf];
      try eassumption; apply in_seq; lia. }
  unfold month_day_ok in Hok. rewrite Z2Nat.id in Hok by lia.
  rewrite Hmd in Hok.
  rewrite !andb_true_iff, !Z.leb_le, Z.eqb_eq in Hok. lia.
Qed.

Lemma ord2ymd_unfold n :
  ord2ymd n
  = let n0 := n - 1 in
    let a := n0 / 146097 in
    let r1 := n0 mod 146097 in
    let b := r1 / 36524 in
    let r2 := r1 mod 36524 in
    let c := r2 / 1461 in
    let r3 := r2 mod 1461 in
    let e := r3 / 365 in
    let r4 := r3 mod 365 in
    let y := 400 * a + 100 * b + 4 * c + e + 1 in
    if (e =? 4) || (b =? 4) then mkdate (y - 1) 12 31
    else
      let '(m, d) :=
        month_day ((e =? 3) && (negb (c =? 24) || (b =? 3))) r4 in
      mkdate y m d.
Proof.
  unfold ord2ymd, month_day, DI400Y, DI100Y, DI4Y. cbv zeta.
  replace ((n - 1) / 146097 * 400 + 1 + (n - 1) mod 146097 / 36524 * 100
           + (n - 1) mod 146097 mod 36524 / 1461 * 4
           + (n - 1) mod 146097 mod 36524 mod 1461 / 365)
    with (400 * ((n - 1) / 146097) + 100 * ((n - 1) mod 146097 / 36524)
          + 4 * ((n - 1) mod 146097 mod 36524 / 1461)
          + (n - 1) mod 146097 mod 36524 mod 1461 / 365 + 1) by lia.
  destruct (_ || _); [reflexivity|].
  destruct (_ <? _); reflexivity.
Qed.

(** [ord2ymd] returns a date of the calendar, and the one with ordinal [n]. *)
Lemma ord2ymd_spec n :
  1 <= n <= MAXORDINAL ->
  valid_date (ord2ymd n) /\ toordinal (ord2ymd n) = n.
Proof.
  intros Hn. unfold MAXORDINAL in Hn. rewrite ord2ymd_unfold. cbv zeta.
  pose proof (Z.div_mod (n - 1) 146097 ltac:(lia)) as E1.
  pose proof (Z.mod_pos_bound (n - 1) 146097 ltac:(lia)) as B1.
  set (a := (n - 1) / 146097) in *. set (r1 := (n - 1) mod 146097) in *.
  pose proof (Z.div_mod r1 36524 ltac:(lia)) as E2.
  pose proof (Z.mod_pos_bound r1 36524 ltac:(lia)) as B2.
  set (b := r1 / 36524) in *. set (r2 := r1 mod 36524) in *.
  pose proof (Z.div_mod r2 1461 ltac:(lia)) as E3.
  pose proof (Z.mod_pos_bound r2 1461 ltac:(lia)) as B3.
  set (c := r2 / 1461) in *. set (r3 := r2 mod 1461) in *.
  pose proof (Z.div_mod r3 365 ltac:(lia)) as E4.
  pose proof (Z.mod_pos_bound r3 365 ltac:(lia)) as B4.
  set (e := r3 / 365) in *. set (r4 := r3 mod 365) in *.
  assert (Ha : 0 <= a <= 24) by lia.
  assert (Hb : 0 <= b <= 4) by lia.
  assert (Hc : 0 <= c <= 24) by lia.
  assert (He : 0 <= e <= 4) by lia.
  destruct ((e =? 4) || (b =? 4)) eqn:Hlast.
  - (* the last day of a year *)
    apply orb_true_iff in Hlast. rewrite !Z.eqb_eq in Hlast.
    assert (Hy : exists b' c' e', 0 <= b' <= 3 /\ 0 <= c' <= 24 /\ e' = 3
               /\ 400 * a + 100 * b + 4 * c + e + 1 - 1
                  = 400 * a + 100 * b' + 4 * c' + e' + 1
               /\ 146097 * a + 36524 * b' + 1461 * c' + 365 * e' + 365
                    + (if negb (c' =? 24) || (b' =? 3) then 1 else 0) = n).
    { destruct Hlast as [He4 | Hb4].
      - exists b, c, 3. 
        assert (b <= 3) by lia.
        assert ((c =? 24) = false) by (apply Z.eqb_neq; lia).
        rewrite H0. simpl. lia.
      - exists 3, 24, 3. simpl. lia. }
    destruct Hy as (b' & c' & e' & Hb' & Hc' & He' & Hyear & Hord).
    rewrite Hyear. unfold valid_date, toordinal, ymd2ord, days_in_month,
      days_before_month, MINYEAR, MAXYEAR. simpl year; simpl month; simpl day.
    rewrite days_before_year_decomp by lia.
    rewrite is_leap_decomp by lia.
    subst e'. change (3 =? 3) with true. simpl andb.
    change (12 =? 2) with false. simpl.
    destruct (negb (c' =? 24) || (b' =? 3)); simpl; lia.
  - apply orb_false_iff in Hlast. rewrite !Z.eqb_neq in Hlast.
    set (leap := (e =? 3) && (negb (c =? 24) || (b =? 3))).
    assert (Hr4 : 0 <= r4 < 365 + (if leap then 1 else 0)).
    { destruct leap; lia. }
    destruct (month_day leap r4) as [m d] eqn:Emd.
    pose proof (month_day_spec leap r4 Hr4 m d Emd) as Hmd.
    unfold valid_date, toordinal, ymd2ord, days_in_month,
      days_before_month, MINYEAR, MAXYEAR. simpl year; simpl month; simpl day.
    rewrite days_before_year_decomp by lia.
    rewrite is_leap_decomp by lia. fold leap.
    lia.
Qed.

(** Ordinals follow the order of the calendar. *)
Lemma days_before_year_succ y :
  days_before_year (y + 1)
  = days_before_year y + 365 + (if is_leap y then 1 else 0).
Proof.
  unfold days_before_year, is_leap.
  replace (y + 1 - 1) with (y - 1 + 1) by lia.
  destruct (y mod 4 =? 0) eqn:E4; destruct (y mod 100 =? 0) eqn:E100;
    destruct (y mod 400 =? 0) eqn:E400; simpl;
    rewrite ?Z.eqb_eq, ?Z.eqb_neq in *; Z.div_mod_to_equations; lia.
Qed.

Lemma days_before_year_mono y1 y2 :
  y1 <= y2 -> days_before_year y1 <= days_before_year y2.
Proof.
  intros H. unfold days_before_year. Z.div_mod_to_equations. lia.
Qed.

Ltac month_cases m :=
  let H := fresh in
  assert (H : m = 1 \/ m = 2 \/ m = 3 \/ m = 4 \/ m = 5 \/ m = 6 \/ m = 7
              \/ m = 8 \/ m = 9 \/ m = 10 \/ m = 11 \/ m = 12) by lia;
  repeat (destruct H as [H | H]); subst m.

Lemma day_of_year_bounds y m d :
  1 <= m <= 12 -> 1 <= d <= days_in_month y m ->
  1 <= days_before_month y m + d <= 365 + (if is_leap y then 1 else 0).
Proof.
  intros Hm Hd. unfold days_before_month, days_in_month in *.
  month_cases m; destruct (is_leap y); simpl in *; lia.
Qed.

Lemma days_before_month_mono y m1 m2 :
  1 <= m1 -> m1 < m2 -> m2 <= 12 ->
  days_before_month y m1 + days_in_month y m1 <= days_before_month y m2.
Proof.
  intros H1 H12 H2. unfold days_before_month, days_in_month.
  month_cases m1; month_cases m2; try lia; destruct (is_leap y); simpl; lia.
Qed.

Lemma toordinal_lt a b :
  valid_date a -> valid_date b -> date_lt a b -> toordinal a < toordinal b.
Proof.
  intros (Hya & Hma & Hda) (Hyb & Hmb & Hdb) Hlt.
  unfold toordinal, ymd2ord.
  pose proof (day_of_year_bounds _ _ _ Hma Hda) as Ba.
  pose proof (day_of_year_bounds _ _ _ Hmb Hdb) as Bb.
  destruct Hlt as [Hy | (Hy & [Hm | (Hm & Hd)])].
  - pose proof (days_before_year_succ (year a)) as Hs.
    pose proof (days_before_year_mono (year a + 1) (year b) ltac:(lia)). lia.
  - rewrite Hy in *.
    pose proof (days_before_month_mono (year b) (month a) (month b)
                  ltac:(lia) Hm ltac:(lia)). lia.
  - rewrite Hy, Hm. lia.
Qed.

Lemma date_le_cases a b :
  date_le a b = true <-> (date_lt a b \/ (year a = year b /\ month a = month b /\ day a = day b)).
Proof.
  unfold date_le, date_lt.
  rewrite !orb_true_iff, !andb_true_iff, !orb_true_iff, !andb_true_iff,
    !Z.ltb_lt, !Z.eqb_eq, Z.leb_le. lia.
Qed.

Lemma date_le_ordinal a b :
  valid_date a -> valid_date b ->
  date_le a b = (toordinal a <=? toordinal b).
Proof.
  intros Ha Hb. apply eq_true_iff_eq. rewrite date_le_cases, Z.leb_le. split.
  - intros [Hlt | (Hy & Hm & Hd)].
    + pose proof (toordinal_lt a b Ha Hb Hlt). lia.
    + unfold toordinal. rewrite Hy, Hm, Hd. lia.
  - intros Hle.
    destruct (Z.lt_trichotomy (year a) (year b)) as [H | [H | H]];
      [left; left; exact H | | ].
    + destruct (Z.lt_trichotomy (month a) (month b)) as [H' | [H' | H']];
        [left; right; auto | | ].
      * destruct (Z.lt_trichotomy (day a) (day b)) as [H'' | [H'' | H'']];
          [left; right; auto | right; auto | ].
        assert (date_lt b a) by (right; split; [lia | right; split; lia]).
        pose proof (toordinal_lt b a Hb Ha H0). lia.
      * assert (date_lt b a) by (right; split; [lia | left; lia]).
        pose proof (toordinal_lt b a Hb Ha H0). lia.
    + assert (date_lt b a) by (left; lia).
      pose proof (toordinal_lt b a Hb Ha H0). lia.
Qed.

Lemma toordinal_inj a b :
  valid_date a -> valid_date b -> toordinal a = toordinal b -> a = b.
Proof.
  intros Ha Hb E.
  assert (H1 : date_le a b = true) by (rewrite date_le_ordinal, Z.leb_le by assumption; lia).
  assert (H2 : date_le b a = true) by (rewrite date_le_ordinal, Z.leb_le by assumption; lia).
  apply date_le_cases in H1, H2.
  destruct H1 as [H1 | (Hy & Hm & Hd)].
  - pose proof (toordinal_lt a b Ha Hb H1). lia.
  - destruct a, b; simpl in *; congruence.
Qed.

Lemma toordinal_range d : valid_date d -> 1 <= toordinal d <= MAXORDINAL.
Proof.
  intros (Hy & Hm & Hd). unfold toordinal, ymd2ord, MAXORDINAL.
  pose proof (day_of_year_bounds _ _ _ Hm Hd) as B.
  pose proof (days_before_year_succ (year d)) as Hs.
  unfold MINYEAR, MAXYEAR in Hy.
  pose proof (days_before_year_mono 1 (year d) ltac:(lia)) as H1.
  pose proof (days_before_year_mono (year d + 1) 10000 ltac:(lia)) as H2.
  change (days_before_year 1) with 0 in H1.
  change (days_before_year 10000) with 3652059 in H2. lia.
Qed.

Lemma ord2ymd_toordinal d : valid_date d -> ord2ymd (toordinal d) = d.
Proof.
  intros Hv. pose proof (toordinal_range d Hv) as Hr.
  destruct (ord2ymd_spec _ Hr) as [Hv' E].
  apply toordinal_inj; assumption.
Qed.

(* ===================================================================== *)
(** ** Date keys *)
(* ===================================================================== *)

Lemma str_lt_app_lt x y s t :
  length x = length y -> str_lt x y = true -> str_lt (x ++ s) (y ++ t) = true.
Proof.
  revert y. induction x as [|a x IH]; intros [|b y] Hlen H; try discriminate.
  simpl in *. apply orb_true_iff in H. apply orb_true_iff.
  destruct H as [H | H]; [left; exact H | right].
  apply andb_true_iff in H as [H1 H2]. rewrite H1. simpl.
  apply IH; [lia | exact H2].
Qed.

Lemma str_lt_app_eq x s t : str_lt (x ++ s) (x ++ t) = str_lt s t.
Proof.
  induction x as [|a x IH]; [reflexivity|].
  simpl. rewrite N.ltb_irrefl, N.eqb_refl. exact IH.
Qed.

Lemma digit_char_lt a b :
  0 <= a -> 0 <= b -> (digit_char a <? digit_char b)%N = (a <? b).
Proof.
  intros Ha Hb. unfold digit_char. apply eq_true_iff_eq.
  rewrite N.ltb_lt, Z.ltb_lt. lia.
Qed.

Lemma digit_char_eq a b :
  0 <= a -> 0 <= b -> (digit_char a =? digit_char b)%N = (a =? b).
Proof.
  intros Ha Hb. unfold digit_char. apply eq_true_iff_eq.
  rewrite N.eqb_eq, Z.eqb_eq. lia.
Qed.

Lemma digit_char_is_digit a : 0 <= a <= 9 -> is_digit (digit_char a) = true.
Proof.
  intros Ha. unfold is_digit, digit_char.
  rewrite andb_true_iff, !N.leb_le. lia.
Qed.

Lemma four_digits_lt y y' :
  0 <= y -> y < y' -> y' <= 9999 ->
  str_lt (four_digits y) (four_digits y') = true.
Proof.
  intros H0 Hlt H1. unfold four_digits, str_lt.
  rewrite !digit_char_lt, !digit_char_eq
    by (apply Z.mod_pos_bound; lia).
  rewrite !orb_true_iff, !andb_true_iff, !orb_true_iff, !andb_true_iff,
    !orb_true_iff, !andb_true_iff, !Z.ltb_lt, !Z.eqb_eq.
  Z.div_mod_to_equations. lia.
Qed.

Lemma two_digits_lt m m' :
  0 <= m -> m < m' -> m' <= 99 ->
  str_lt (two_digits m) (two_digits m') = true.
Proof.
  intros H0 Hlt H1. unfold two_digits, str_lt.
  rewrite !digit_char_lt, !digit_char_eq
    by (apply Z.mod_pos_bound; lia).
  rewrite !orb_true_iff, !andb_true_iff, !Z.ltb_lt, !Z.eqb_eq.
  Z.div_mod_to_equations. lia.
Qed.

Lemma days_in_month_le y m : days_in_month y m <= 31.
Proof.
  unfold days_in_month. destruct ((m =? 2) && is_leap y); [lia|].
  unfold DAYS_IN_MONTH.
  destruct m as [|p|p]; try lia.
  do 4 (try destruct p as [p|p|]); lia.
Qed.

Section DateKeys.

Variable platform_Y : Z -> pystr.

Lemma strftime_Ymd_padded d :
  1000 <= year d ->
  strftime_Ymd platform_Y d
  = four_digits (year d) ++ two_digits (month d) ++ two_digits (day d).
Proof.
  intros Hy. unfold strftime_Ymd.
  destruct (1000 <=? year d) eqn:E; [reflexivity|].
  apply Z.leb_gt in E. lia.
Qed.

(** A date key is eight digits. *)
Lemma strftime_Ymd_digits d :
  1000 <= year d ->
  length (strftime_Ymd platform_Y d) = 8%nat
  /\ Forall (fun c => is_digit c = true) (strftime_Ymd platform_Y d).
Proof.
  intros Hy. rewrite strftime_Ymd_padded by exact Hy. split; [reflexivity|].
  unfold four_digits, two_digits. simpl.
  repeat constructor; apply digit_char_is_digit;
    pose proof (Z.mod_pos_bound (year d / 1000) 10);
    pose proof (Z.mod_pos_bound (year d / 100) 10);
    pose proof (Z.mod_pos_bound (year d / 10) 10);
    pose proof (Z.mod_pos_bound (year d) 10);
    pose proof (Z.mod_pos_bound (month d / 10) 10);
    pose proof (Z.mod_pos_bound (month d) 10);
    pose proof (Z.mod_pos_bound (day d / 10) 10);
    pose proof (Z.mod_pos_bound (day d) 10); lia.
Qed.

(** Later dates have greater keys. *)
Lemma strftime_Ymd_lt a b :
  valid_date a -> valid_date b -> 1000 <= year a ->
  date_lt a b ->
  str_lt (strftime_Ymd platform_Y a) (strftime_Ymd platform_Y b) = true.
Proof.
  intros (Hya & Hma & Hda) (Hyb & Hmb & Hdb) Hy Hlt.
  unfold MINYEAR, MAXYEAR in *.
  pose proof (days_in_month_le (year a) (month a)).
  pose proof (days_in_month_le (year b) (month b)).
  assert (1000 <= year b) by (destruct Hlt as [?|[? _]]; lia).
  rewrite !strftime_Ymd_padded by assumption.
  destruct Hlt as [Hlt | (Ey & [Hlt | (Em & Hlt)])].
  - apply str_lt_app_lt; [reflexivity|]. apply four_digits_lt; lia.
  - rewrite Ey, str_lt_app_eq.
    apply str_lt_app_lt; [reflexivity|]. apply two_digits_lt; lia.
  - rewrite Ey, Em, !str_lt_app_eq. apply two_digits_lt; lia.
Qed.

End DateKeys.

(** A key of digits occurs once in the URL built from it. *)
Lemma startswith_short key s :
  (length s < length key)%nat -> startswith key s = false.
Proof.
  revert s. induction key as [|a key IH]; intros [|b s] H; simpl in *;
    try lia; try reflexivity.
  rewrite IH by lia. apply andb_false_r.
Qed.

Lemma occurrences_short key s :
  (length s < length key)%nat -> occurrences key s = 0%nat.
Proof.
  induction s as [|c s IH]; intros H.
  - simpl. destruct key; [simpl in H; lia | reflexivity].
  - simpl occurrences. rewrite startswith_short by exact H.
    rewrite IH by (simpl in H; lia). reflexivity.
Qed.

Lemma startswith_refl s : startswith s s = true.
Proof. induction s as [|c s IH]; simpl; [reflexivity|]. now rewrite N.eqb_refl. Qed.

Lemma occurrences_self key : key <> [] -> occurrences key key = 1%nat.
Proof.
  destruct key as [|c key]; [congruence|]. intros _.
  simpl occurrences. rewrite N.eqb_refl, startswith_refl. simpl.
  rewrite occurrences_short; [reflexivity | simpl; lia].
Qed.

Lemma occurrences_after_prefix prefix key :
  key <> [] ->
  Forall (fun c => is_digit c = true) key ->
  Forall (fun c => is_digit c = false) prefix ->
  occurrences key (prefix ++ key) = 1%nat.
Proof.
  intros Hne Hkey Hpre. induction Hpre as [|p prefix Hp Hpre IH].
  - apply occurrences_self, Hne.
  - simpl app. simpl occurrences. rewrite IH.
    destruct key as [|k key]; [congruence|].
    inversion Hkey as [|? ? Hk _]; subst.
    simpl startswith.
    destruct (k =? p)%N eqn:E; [|reflexivity].
    apply N.eqb_eq in E. congruence.
Qed.

Lemma listing_url_prefix_no_digit :
  Forall (fun c => is_digit c = false)
    (lit "https://www.ghanaweb.com/GhanaHomePage/business/browse.archive.php?date=").
Proof. vm_compute. repeat constructor. Qed.

Lemma startswith_lookup (key s : list N) i :
  startswith key s = true -> (i < length key)%nat -> s !! i = key !! i.
Proof.
  revert s i. induction key as [|a key IH]; intros [|b s] i H Hi;
    simpl in *; try lia; try discriminate.
  apply andb_true_iff in H as [Hab H]. apply N.eqb_eq in Hab. subst b.
  destruct i as [|i]; [reflexivity|]. simpl. apply IH; [exact H | lia].
Qed.

(** A text that occurs in [prefix ++ key] at a place inside [prefix] and
    reaches over all of [key] is made of characters of [prefix]. *)
Lemma startswith_overlap (P : N -> Prop) (prefix key : list N) :
  prefix <> [] ->
  Forall P prefix ->
  startswith key (prefix ++ key) = true ->
  Forall P key.
Proof.
  intros Hne Hpre Hsw.
  assert (Hlen : (0 < length prefix)%nat)
    by (destruct prefix; [congruence | simpl; lia]).
  assert (H : forall n i c, (i < n)%nat -> key !! i = Some c -> P c).
  { induction n as [|n IH]; intros i c Hi Hc; [lia|].
    pose proof (lookup_lt_Some _ _ _ Hc) as Hik.
    pose proof (startswith_lookup _ _ i Hsw Hik) as E. rewrite Hc in E.
    destruct (Nat.lt_ge_cases i (length prefix)) as [Hip | Hip].
    - rewrite lookup_app_l in E by exact Hip.
      rewrite List.Forall_forall in Hpre. apply Hpre.
      apply list_elem_of_In. eapply list_elem_of_lookup_2, E.
    - rewrite lookup_app_r in E by exact Hip.
      apply (IH (i - length prefix)%nat c); [lia | exact E]. }
  apply List.Forall_forall. intros c Hin.
  apply list_elem_of_In, list_elem_of_lookup in Hin as [i Hi].
  apply (H (S i) i c); [lia | exact Hi].
Qed.

(** A key that ends in a digit occurs once in [prefix ++ key] when
    [prefix] has no digit, whatever the key begins with. *)
Lemma occurrences_after_prefix_last (prefix body : list N) d :
  is_digit d = true ->
  Forall (fun c => is_digit c = false) prefix ->
  occurrences (body ++ [d]) (prefix ++ body ++ [d]) = 1%nat.
Proof.
  intros Hd Hpre. induction Hpre as [|p prefix Hp Hpre IH].
  - apply occurrences_self. now destruct body.
  - simpl app. cbn [occurrences]. rewrite IH.
    destruct (startswith (body ++ [d]) (p :: prefix ++ body ++ [d])) eqn:E;
      [|reflexivity].
    exfalso.
    assert (Hall : Forall (fun c => is_digit c = false) (body ++ [d])).
    { apply (startswith_overlap _ (p :: prefix)); [discriminate| |exact E].
      now constructor. }
    apply Forall_app in Hall as [_ Hall]. inversion Hall; subst. congruence.
Qed.

(* ===================================================================== *)
(** ** The enumerator *)
(* ===================================================================== *)

Section Enumerator.

Variable platform_Y : Z -> pystr.

Lemma entries_from_length n k : length (entries_from platform_Y n k) = k.
Proof. revert n. induction k as [|k IH]; intros n; simpl; [|rewrite IH]; reflexivity. Qed.

Lemma entries_from_lookup n k i :
  (i < k)%nat ->
  entries_from platform_Y n k !! i = Some (date_entry platform_Y (ord2ymd (n + Z.of_nat i))).
Proof.
  revert n i. induction k as [|k IH]; intros n [|i] Hi; try lia.
  - simpl. now rewrite Z.add_0_r.
  - simpl entries_from. rewrite lookup_cons. rewrite IH by lia.
    do 3 f_equal. lia.
Qed.

Lemma date_loop_runs k :
  forall fuel n acc end_date,
    1 <= n -> valid_date end_date ->
    n + Z.of_nat k = toordinal end_date + 1 ->
    toordinal end_date < MAXORDINAL ->
    (k < fuel)%nat ->
    date_loop platform_Y fuel (ord2ymd n) end_date acc
    = Some (Ok (acc ++ entries_from platform_Y n k)).
Proof.
  induction k as [|k IH]; intros [|fuel] n acc end_date Hn Hend Hk Hmax Hfuel;
    try lia.
  - cbn [date_loop]. destruct (ord2ymd_spec n ltac:(lia)) as [Hv Ho].
    rewrite date_le_ordinal, Ho by assumption.
    destruct (n <=? toordinal end_date) eqn:E; [apply Z.leb_le in E; lia|].
    now rewrite app_nil_r.
  - cbn [date_loop]. destruct (ord2ymd_spec n ltac:(lia)) as [Hv Ho].
    rewrite date_le_ordinal, Ho by assumption.
    destruct (n <=? toordinal end_date) eqn:E; [|apply Z.leb_gt in E; lia].
    unfold add_days. rewrite Ho.
    destruct ((0 <? n + 1) && (n + 1 <=? MAXORDINAL)) eqn:E2.
    + rewrite IH by (try assumption; lia).
      simpl entries_from. rewrite <- app_assoc. reflexivity.
    + apply andb_false_iff in E2. rewrite Z.ltb_ge, Z.leb_gt in E2. lia.
Qed.

(** With the last date of the calendar as the end, the step past it
    raises. *)
Lemma date_loop_overflows k :
  forall fuel n acc,
    1 <= n -> n + Z.of_nat k = MAXORDINAL -> (k < fuel)%nat ->
    date_loop platform_Y fuel (ord2ymd n) (ord2ymd MAXORDINAL) acc
    = Some (Raise OverflowError).
Proof.
  assert (Hmax : valid_date (ord2ymd MAXORDINAL)
                 /\ toordinal (ord2ymd MAXORDINAL) = MAXORDINAL)
    by (apply ord2ymd_spec; unfold MAXORDINAL; lia).
  destruct Hmax as [Hvmax Homax].
  induction k as [|k IH]; intros [|fuel] n acc Hn Hk Hfuel; try lia;
    cbn [date_loop]; destruct (ord2ymd_spec n ltac:(lia)) as [Hv Ho];
    rewrite date_le_ordinal, Ho, Homax by assumption;
    (destruct (n <=? MAXORDINAL) eqn:E; [|apply Z.leb_gt in E; lia]);
    unfold add_days; rewrite Ho.
  - replace n with MAXORDINAL by lia. reflexivity.
  - destruct ((0 <? n + 1) && (n + 1 <=? MAXORDINAL)) eqn:E2.
    + apply IH; lia.
    + apply andb_false_iff in E2. rewrite Z.ltb_ge, Z.leb_gt in E2. lia.
Qed.

(** More fuel does not change a result. *)
Lemma date_loop_fuel fuel :
  forall fuel' current_date end_date acc r,
    date_loop platform_Y fuel current_date end_date acc = Some r ->
    (fuel <= fuel')%nat ->
    date_loop platform_Y fuel' current_date end_date acc = Some r.
Proof.
  induction fuel as [|fuel IH]; intros [|fuel'] c e acc r H Hle;
    try discriminate; try lia.
  cbn [date_loop] in *. destruct (date_le c e); [|exact H].
  destruct (add_days c 1); [|exact H]. apply (IH fuel'); [exact H | lia].
Qed.

End Enumerator.

(** Whatever the first day, a range that ends on 9999-12-31 makes
    [generate_date_urls] raise. *)
Lemma generate_date_urls_overflows platform_Y fuel start_date :
  valid_date start_date ->
  (Z.to_nat (days_between start_date (mkdate 9999 12 31)) < fuel)%nat ->
  generate_date_urls platform_Y fuel start_date (mkdate 9999 12 31)
  = Some (Raise OverflowError).
Proof.
  intros Hs Hfuel. unfold generate_date_urls, days_between in *.
  pose proof (toordinal_range _ Hs) as Rs.
  change (toordinal (mkdate 9999 12 31)) with MAXORDINAL in Hfuel.
  change (mkdate 9999 12 31) with (ord2ymd MAXORDINAL).
  rewrite <- (ord2ymd_toordinal start_date Hs).
  apply (date_loop_overflows platform_Y
           (Z.to_nat (MAXORDINAL - toordinal start_date))); lia.
Qed.

Lemma date_lt_of_ordinal a b :
  valid_date a -> valid_date b -> toordinal a < toordinal b -> date_lt a b.
Proof.
  intros Ha Hb Hlt.
  assert (H : date_le a b = true)
    by (rewrite date_le_ordinal, Z.leb_le by assumption; lia).
  apply date_le_cases in H as [H | (Hy & Hm & Hd)]; [exact H|].
  unfold toordinal in Hlt. rewrite Hy, Hm, Hd in Hlt. lia.
Qed.

Lemma date_le_year a b : date_le a b = true -> year a <= year b.
Proof. rewrite date_le_cases. unfold date_lt. lia. Qed.

(** A date key occurs once in its URL, on every platform: it ends in the
    digits of the day, and the template has no digit. *)
Lemma strftime_Ymd_occurs platform_Y d :
  occurrences (strftime_Ymd platform_Y d)
    (listing_url (strftime_Ymd platform_Y d))
  = 1%nat.
Proof.
  unfold listing_url, strftime_Ymd, two_digits.
  set (y := if 1000 <=? year d then _ else _).
  replace (y ++ [digit_char (month d / 10 mod 10); digit_char (month d mod 10)]
             ++ [digit_char (day d / 10 mod 10); digit_char (day d mod 10)])
    with ((y ++ [digit_char (month d / 10 mod 10); digit_char (month d mod 10);
                 digit_char (day d / 10 mod 10)]) ++ [digit_char (day d mod 10)])
    by (rewrite <- !app_assoc; reflexivity).
  apply occurrences_after_prefix_last.
  - apply digit_char_is_digit. pose proof (Z.mod_pos_bound (day d) 10). lia.
  - apply listing_url_prefix_no_digit.
Qed.

(** C2, amended: for every pair of dates [start <= end] with [end] before
    9999-12-31, [generate_date_urls(start, end)] returns
    [(end - start).days + 1] pairs, the [i]-th for the [i]-th day from
    [start], the first for [start] and the last for [end], and each key
    occurs exactly once in its URL; when the year of [start] is at least
    1000, the date keys are strictly ascending and each key is eight
    digits. *)
Theorem generate_date_urls_spec platform_Y fuel start_date end_date :
  valid_date start_date -> valid_date end_date ->
  date_le start_date end_date = true ->
  toordinal end_date < MAXORDINAL ->
  (Z.to_nat (days_between start_date end_date + 1) < fuel)%nat ->
  exists urls,
    generate_date_urls platform_Y fuel start_date end_date = Some (Ok urls)
    /\ Z.of_nat (length urls) = days_between start_date end_date + 1
    /\ (forall i, (i < length urls)%nat ->
          urls !! i
          = Some (date_entry platform_Y
                    (ord2ymd (toordinal start_date + Z.of_nat i))))
    /\ head urls = Some (date_entry platform_Y start_date)
    /\ last urls = Some (date_entry platform_Y end_date)
    /\ (forall key url, In (key, url) urls -> occurrences key url = 1%nat)
    /\ (1000 <= year start_date ->
          (forall i j ei ej, (i < j)%nat ->
             urls !! i = Some ei -> urls !! j = Some ej ->
             str_lt (fst ei) (fst ej) = true)
          /\ (forall key url, In (key, url) urls ->
                length key = 8%nat
                /\ Forall (fun c => is_digit c = true) key)).
Proof.
  intros Hs He Hle Hmax Hfuel. unfold days_between in *.
  pose proof (toordinal_range _ Hs) as Rs.
  assert (Hord : toordinal start_date <= toordinal end_date).
  { rewrite date_le_ordinal in Hle by assumption. now apply Z.leb_le. }
  set (n := toordinal start_date) in *.
  set (k := Z.to_nat (toordinal end_date - n + 1)) in *.
  assert (Hk : n + Z.of_nat k = toordinal end_date + 1) by lia.
  assert (Hfuel' : (k < fuel)%nat) by exact Hfuel.
  clearbody k. clear Hfuel.
  exists (entries_from platform_Y n k).
  assert (Hvalid : forall i, (i < k)%nat ->
            valid_date (ord2ymd (n + Z.of_nat i))
            /\ toordinal (ord2ymd (n + Z.of_nat i)) = n + Z.of_nat i
            /\ year start_date <= year (ord2ymd (n + Z.of_nat i))).
  { intros i Hi. destruct (ord2ymd_spec (n + Z.of_nat i) ltac:(lia)) as [Hv Ho].
    split; [exact Hv | split; [exact Ho |]].
    assert (Hd : date_le start_date (ord2ymd (n + Z.of_nat i)) = true).
    { rewrite date_le_ordinal, Ho by assumption. apply Z.leb_le. lia. }
    now apply date_le_year in Hd. }
  assert (Hentry : forall key url,
            In (key, url) (entries_from platform_Y n k) ->
            exists i, (i < k)%nat
              /\ key = strftime_Ymd platform_Y (ord2ymd (n + Z.of_nat i))
              /\ url = listing_url key).
  { intros key url Hin.
    apply list_elem_of_In, list_elem_of_lookup in Hin as [i Hi].
    assert (Hik : (i < k)%nat).
    { apply lookup_lt_Some in Hi. now rewrite entries_from_length in Hi. }
    rewrite entries_from_lookup in Hi by exact Hik.
    apply Some_inj in Hi. unfold date_entry in Hi.
    apply pair_equal_spec in Hi as [Hkey Hurl]. subst key url.
    exists i. auto. }
  split; [|split; [|split; [|split; [|split; [|split]]]]].
  - unfold generate_date_urls.
    rewrite <- (ord2ymd_toordinal start_date Hs). fold n.
    now rewrite (date_loop_runs platform_Y k) by (try assumption; lia).
  - rewrite entries_from_length. lia.
  - intros i Hi. rewrite entries_from_length in Hi.
    now apply entries_from_lookup.
  - destruct k as [|k']; [lia|]. simpl.
    unfold n. now rewrite ord2ymd_toordinal.
  - rewrite last_lookup, entries_from_length.
    rewrite entries_from_lookup by lia.
    replace (n + Z.of_nat (Nat.pred k)) with (toordinal end_date) by lia.
    now rewrite ord2ymd_toordinal.
  - intros key url Hin.
    destruct (Hentry key url Hin) as (i & _ & -> & ->).
    apply strftime_Ymd_occurs.
  - intros Hy. split.
    + intros i j ei ej Hij Hi Hj.
      assert (Hjk : (j < k)%nat).
      { apply lookup_lt_Some in Hj. now rewrite entries_from_length in Hj. }
      rewrite entries_from_lookup in Hi, Hj by lia.
      apply Some_inj in Hi, Hj. subst ei ej. unfold date_entry, fst.
      destruct (Hvalid i ltac:(lia)) as (Hvi & Hoi & Hyi).
      destruct (Hvalid j Hjk) as (Hvj & Hoj & _).
      apply strftime_Ymd_lt; try assumption; [lia|].
      apply date_lt_of_ordinal; try assumption. lia.
    + intros key url Hin.
      destruct (Hentry key url Hin) as (i & Hik & -> & _).
      destruct (Hvalid i Hik) as (_ & _ & Hyi).
      apply strftime_Ymd_digits. lia.
Qed.

Lemma generate_date_urls_spec_witness :
  exists urls,
    generate_date_urls glibc_Y 5 (mkdate 2015 12 30) (mkdate 2016 1 1)
    = Some (Ok urls)
    /\ Z.of_nat (length urls)
       = days_between (mkdate 2015 12 30) (mkdate 2016 1 1) + 1
    /\ (forall key url, In (key, url) urls -> length key = 8%nat).
Proof.
  destruct (generate_date_urls_spec glibc_Y 5
              (mkdate 2015 12 30) (mkdate 2016 1 1))
    as (urls & H1 & H2 & _ & _ & _ & _ & H7).
  - unfold valid_date; simpl; vm_compute; intuition discriminate.
  - unfold valid_date; simpl; vm_compute; intuition discriminate.
  - reflexivity.
  - vm_compute; reflexivity.
  - vm_compute; lia.
  - exists urls. split; [exact H1 | split; [exact H2 |]].
    intros key url Hin.
    exact (proj1 (proj2 (H7 ltac:(simpl; lia)) key url Hin)).
Defined.

(** C2, as stated, fails for years below 1000 where [%Y] prints the bare
    digits of the year, as with glibc: the key of 0005-01-01 has five
    characters, and the key of 0009-12-31 does not come before that of the
    next day. *)
Lemma generate_date_urls_fails :
  generate_date_urls glibc_Y 2 (mkdate 5 1 1) (mkdate 5 1 1)
  = Some (Ok [(lit "50101", listing_url (lit "50101"))])
  /\ length (lit "50101") <> 8%nat
  /\ generate_date_urls glibc_Y 3 (mkdate 9 12 31) (mkdate 10 1 1)
     = Some (Ok [(lit "91231", listing_url (lit "91231"));
                 (lit "100101", listing_url (lit "100101"))])
  /\ str_lt (lit "91231") (lit "100101") = false.
Proof.
  split; [vm_compute; reflexivity|].
  split; [vm_compute; discriminate|].
  split; vm_compute; reflexivity.
Qed.

Local Close Scope Z_scope.

(* ===================================================================== *)
(** ** The keyword filter *)
(* ===================================================================== *)

Lemma re_match_iword w s n k :
  re_match (iword w) s n k
  = if istartswith w s then k (drop (length w) s) (n + length w)%nat
    else None.
Proof.
  revert s n. induction w as [|c w IH]; intros s n.
  - simpl. rewrite drop_0. f_equal. lia.
  - destruct s as [|x s]; [reflexivity|].
    cbn [iword re_match istartswith].
    destruct (ascii_lower x =? ascii_lower c); [|reflexivity].
    cbn [andb]. rewrite IH. cbn [length drop].
    replace (S n + length w)%nat with (n + S (length w))%nat by lia.
    reflexivity.
Qed.

Lemma match_at_iword w s :
  match_at (iword w) s = if istartswith w s then Some (length w) else None.
Proof. unfold match_at. rewrite re_match_iword. reflexivity. Qed.

Lemma istartswith_spec w s :
  istartswith w s = true
  <-> exists found after,
        s = found ++ after
        /\ List.map ascii_lower found = List.map ascii_lower w.
Proof.
  revert s. induction w as [|c w IH]; intros s; simpl.
  - split; [intros _; exists [], s; auto | auto].
  - destruct s as [|x s].
    + split; [discriminate|]. intros (f & a & E & Hm).
      destruct f; [discriminate | discriminate].
    + rewrite andb_true_iff, N.eqb_eq, IH. split.
      * intros (Hx & f & a & -> & Hm). exists (x :: f), a.
        simpl. rewrite Hx, Hm. auto.
      * intros (f & a & E & Hm). destruct f as [|y f]; [discriminate|].
        simpl in E, Hm. injection E as -> ->. injection Hm as Hx Hm.
        split; [exact Hx|]. exists f, a. auto.
Qed.

(** [re.search] finds a match exactly where one starts at some position. *)
Lemma re_search_spec r s :
  re_search r s = true
  <-> exists before rest, s = before ++ rest /\ is_Some (match_at r rest).
Proof.
  induction s as [|c s IH].
  - simpl. destruct (match_at r []) eqn:E.
    + split; [intros _; exists [], []; rewrite E; eauto | auto].
    + split; [discriminate|]. intros (b & t & E' & [m Hm]).
      symmetry in E'. apply app_eq_nil in E' as [-> ->]. congruence.
  - simpl. destruct (match_at r (c :: s)) eqn:E.
    + split; [intros _; exists [], (c :: s); rewrite E; eauto | auto].
    + rewrite IH. split.
      * intros (b & t & -> & Hm). exists (c :: b), t. auto.
      * intros (b & t & E' & [m Hm]). destruct b as [|x b].
        -- simpl in E'. subst t. congruence.
        -- simpl in E'. injection E' as -> ->. exists b, t. eauto.
Qed.

(** The keyword filter is a search for [cocoa] as a substring, letter case
    apart. *)
Lemma keyword_filter_spec title :
  re_search re_cocoa title = true
  <-> contains_ignorecase (lit "cocoa") title.
Proof.
  rewrite re_search_spec. unfold contains_ignorecase, re_cocoa. split.
  - intros (b & t & -> & [m Hm]). rewrite match_at_iword in Hm.
    destruct (istartswith (lit "cocoa") t) eqn:E; [|discriminate].
    apply istartswith_spec in E as (f & a & -> & Hf).
    exists b, f, a. auto.
  - intros (b & f & a & -> & Hf). exists b, (f ++ a). split; [reflexivity|].
    rewrite match_at_iword.
    assert (E : istartswith (lit "cocoa") (f ++ a) = true)
      by (apply istartswith_spec; eauto).
    rewrite E. eauto.
Qed.

(* ===================================================================== *)
(** ** Listing extractor *)
(* ===================================================================== *)

Section CrawlFacts.

Variable fetch : pystr -> result node.

(** Where the body of the loop does not raise, it appends the article of
    the item, or nothing: an item without an anchor, or whose first anchor
    lacks the title or the href, is passed over. *)
Lemma listing_item_returns date_str item r :
  listing_item date_str item = Ok r -> r = item_article date_str item.
Proof.
  unfold listing_item, item_article, anchor_strings. intros H.
  destruct (find "a" None item) as [[| |name attrs contents]|];
    try (injection H as <-; reflexivity).
  unfold has_attr in H.
  destruct (attrs_get "title" attrs) as [[title|titles]|];
    destruct (attrs_get "href" attrs) as [[href|hrefs]|];
    cbn [andb] in H;
    rewrite ?bool_decide_eq_true_2 in H by eauto;
    rewrite ?(bool_decide_eq_false_2 (is_Some (@None attr))) in H
      by (intros [? ?]; discriminate);
    cbn [andb] in H;
    try discriminate;
    try (injection H as <-; reflexivity).
  - destruct (re_search re_cocoa title); injection H as <-; reflexivity.
  - destruct (re_search re_cocoa title); [discriminate|].
    injection H as <-. reflexivity.
Qed.

Lemma listing_loop_returns date_str items articles :
  Forall (fun item => exists r, listing_item date_str item = Ok r) items ->
  listing_loop date_str items articles
  = (articles ++ omap (item_article date_str) items, None).
Proof.
  intros H. revert articles.
  induction H as [|item items [r Hi] Hs IH]; intros articles.
  - simpl. now rewrite app_nil_r.
  - cbn [listing_loop omap list_omap]. rewrite Hi.
    apply listing_item_returns in Hi. subst r.
    destruct (item_article date_str item) as [a|].
    + rewrite IH, <- app_assoc. reflexivity.
    + apply IH.
Qed.

Lemma listing_missing url date_str soup :
  fetch url = Ok soup -> listing_items soup = None ->
  get_articles_from_listing_page fetch url date_str = [].
Proof.
  intros Hf Hi. unfold get_articles_from_listing_page. now rewrite Hf, Hi.
Qed.

Lemma listing_found url date_str soup items :
  fetch url = Ok soup -> listing_items soup = Some items ->
  Forall (fun item => exists r, listing_item date_str item = Ok r) items ->
  get_articles_from_listing_page fetch url date_str
  = omap (item_article date_str) items.
Proof.
  intros Hf Hi Ha. unfold get_articles_from_listing_page.
  rewrite Hf, Hi, listing_loop_returns by exact Ha. reflexivity.
Qed.

End CrawlFacts.

Lemma article_ref_title date_str title href :
  article_ref date_str title href !! "title" = Some title.
Proof. unfold article_ref. now simplify_map_eq. Qed.

Lemma article_ref_url date_str title href :
  article_ref date_str title href !! "url"
  = Some (if startswith (lit "http") href then href else origin ++ href).
Proof. unfold article_ref. now simplify_map_eq. Qed.

Lemma article_ref_date date_str title href :
  article_ref date_str title href !! "date" = Some date_str.
Proof. unfold article_ref. now simplify_map_eq. Qed.

(** C5: when the article-list container, its [upper] sub-container or the
    list inside it is absent from the page, the extractor returns the
    empty list; it never raises. *)
Theorem get_articles_missing_container
    (fetch : pystr -> result node) (url date_str : pystr) (soup : node) :
  fetch url = Ok soup ->
  (find "div" (Some ("class", lit "left_artl_list more_news")) soup = None
   \/ (exists article_container,
         find "div" (Some ("class", lit "left_artl_list more_news")) soup
         = Some article_container
         /\ find "div" (Some ("class", lit "upper")) article_container = None)
   \/ (exists article_container upper_div,
         find "div" (Some ("class", lit "left_artl_list more_news")) soup
         = Some article_container
         /\ find "div" (Some ("class", lit "upper")) article_container
            = Some upper_div
         /\ find "ul" None upper_div = None)) ->
  get_articles_from_listing_page fetch url date_str = [].
Proof.
  intros Hf Habsent. apply (listing_missing fetch url date_str soup Hf).
  unfold listing_items.
  destruct Habsent as [H | [(c & H1 & H2) | (c & u & H1 & H2 & H3)]].
  - now rewrite H.
  - now rewrite H1, H2.
  - now rewrite H1, H2, H3.
Qed.

Lemma get_articles_missing_container_witness :
  get_articles_from_listing_page (fun _ => Ok empty_page)
    (lit "https://www.ghanaweb.com/") (lit "20150101") = [].
Proof.
  apply (get_articles_missing_container (fun _ => Ok empty_page)
           (lit "https://www.ghanaweb.com/") (lit "20150101") empty_page).
  - reflexivity.
  - left. vm_compute. reflexivity.
Defined.

(** C6, as stated, fails: an href that starts with a scheme other than
    [http] is prefixed with the origin all the same. *)
Lemma listing_url_not_kept_for_scheme :
  let href := lit "ftp://ftp.example.com/cocoa.txt" in
  let page :=
    listing_page [list_item "ftp://ftp.example.com/cocoa.txt" "Cocoa report"] in
  spec_starts_with_scheme href = true
  /\ exists article,
       get_articles_from_listing_page (fun _ => Ok page) (lit "u")
         (lit "20150101") = [article]
       /\ article !! "url" = Some (origin ++ href)
       /\ article !! "url" <> Some href.
Proof.
  cbv zeta. split; [vm_compute; reflexivity|].
  eexists. split; [vm_compute; reflexivity|].
  split; [vm_compute; reflexivity | vm_compute; discriminate].
Qed.

(** C6, amended: on a page with the three containers on none of whose list
    items the body of the loop raises, the extractor returns, in the order
    of the items, one article per item whose first anchor has a title and
    an href and whose title holds [cocoa] as a substring, letter case
    apart, and no other; items without such an anchor are passed over.
    The url of an article is the href unchanged when the href starts with
    the four characters [http], and the origin followed by the href
    otherwise. *)
Theorem get_articles_keyword_and_url
    (fetch : pystr -> result node) (url date_str : pystr)
    (soup : node) (items : list node) :
  fetch url = Ok soup ->
  listing_items soup = Some items ->
  Forall (fun item => exists r, listing_item date_str item = Ok r) items ->
  get_articles_from_listing_page fetch url date_str
  = omap (item_article date_str) items
  /\ (forall item title href,
        In item items -> anchor_strings item = Some (title, href) ->
        (In (article_ref date_str title href)
            (get_articles_from_listing_page fetch url date_str)
         <-> contains_ignorecase (lit "cocoa") title))
  /\ (forall article,
        In article (get_articles_from_listing_page fetch url date_str) ->
        exists item title href,
          In item items /\ anchor_strings item = Some (title, href)
          /\ article !! "date" = Some date_str
          /\ article !! "title" = Some title
          /\ article !! "url"
             = Some (if startswith (lit "http") href then href
                     else origin ++ href)).
Proof.
  intros Hf Hi Ha.
  rewrite (listing_found fetch url date_str soup items Hf Hi Ha).
  assert (Hin : forall article,
            In article (omap (item_article date_str) items) ->
            exists item title href,
              In item items /\ anchor_strings item = Some (title, href)
              /\ re_search re_cocoa title = true
              /\ article = article_ref date_str title href).
  { intros article H. apply list_elem_of_In, list_elem_of_omap in H.
    destruct H as (item & Hitem & Hart). apply list_elem_of_In in Hitem.
    unfold item_article in Hart.
    destruct (anchor_strings item) as [[title href]|] eqn:E; [|discriminate].
    destruct (re_search re_cocoa title) eqn:Ek; [|discriminate].
    injection Hart as <-. exists item, title, href. auto. }
  split; [reflexivity | split].
  - intros item title href Hitem Hanchor.
    rewrite <- keyword_filter_spec. split.
    + intros H. apply Hin in H as (item' & t' & h' & _ & _ & Hk & E).
      apply (f_equal (fun a => a !! "title")) in E.
      rewrite !article_ref_title in E. injection E as ->. exact Hk.
    + intros Hk. apply list_elem_of_In, list_elem_of_omap.
      exists item. split; [now apply list_elem_of_In|].
      unfold item_article. now rewrite Hanchor, Hk.
  - intros article H. apply Hin in H as (item & t & h & H1 & H2 & _ & ->).
    exists item, t, h.
    rewrite article_ref_date, article_ref_title, article_ref_url. auto.
Qed.

Lemma get_articles_keyword_and_url_witness :
  get_articles_from_listing_page (fun _ => Ok (listing_page sparse_items))
    (lit "u") (lit "20150101")
  = omap (item_article (lit "20150101")) sparse_items.
Proof.
  assert (Hf : (fun _ : pystr => Ok (listing_page sparse_items)) (lit "u")
               = Ok (listing_page sparse_items)) by reflexivity.
  assert (Hi : listing_items (listing_page sparse_items) = Some sparse_items)
    by (vm_compute; reflexivity).
  assert (Ha : Forall (fun item =>
                         exists r, listing_item (lit "20150101") item = Ok r)
                 sparse_items)
    by (repeat constructor; eexists; vm_compute; reflexivity).
  exact (proj1 (get_articles_keyword_and_url _ _ (lit "20150101") _ _ Hf Hi Ha)).
Defined.

(* ===================================================================== *)
(** ** Article fetcher *)
(* ===================================================================== *)

(** A paragraph that is one piece of text trims as a whole. *)
Lemma get_text_strip_single p s :
  strings_of p = [s] -> get_text_strip p = spec_trimmed_text p.
Proof.
  intros H. unfold get_text_strip, spec_trimmed_text, get_text. rewrite H.
  simpl. rewrite app_nil_r. unfold pystr_eqb.
  destruct (bool_decide (strip s = [])) eqn:E; simpl.
  - apply bool_decide_eq_true in E. now rewrite E.
  - now rewrite app_nil_r.
Qed.

(** C7, as stated, fails: the text of a paragraph with inline markup is
    put together from its pieces, each trimmed on its own, so the spaces
    between the pieces are lost. *)
Lemma fallback_content_not_trimmed_paragraphs :
  let paragraphs :=
    [Tag "p" []
       [NavigableString (lit "Cocoa ");
        Tag "b" [] [NavigableString (lit "prices")];
        NavigableString (lit " rose")]] in
  get_article_content (fun _ => Ok (article_page paragraphs)) sample_article
  = Ok (<["content" := lit "Cocoapricesrose"]> sample_article)
  /\ join (lit " ") (List.map spec_trimmed_text paragraphs)
     = lit "Cocoa prices rose"
  /\ lit "Cocoapricesrose" <> lit "Cocoa prices rose".
Proof.
  cbv zeta. split; [vm_compute; reflexivity|].
  split; [vm_compute; reflexivity | vm_compute; discriminate].
Qed.

(** C7, amended: when the primary paragraph is absent and the content area
    holds at least one paragraph, the content is the texts of its
    paragraphs joined with single spaces, where the text of a paragraph is
    its pieces of text, each trimmed, the empty ones dropped, put together
    with nothing between them; for paragraphs that are one piece of text
    each, that is their trimmed texts joined with single spaces. *)
Theorem get_article_content_fallback
    (fetch : pystr -> result node) (article_info : gmap string pystr)
    (url : pystr) (soup article_div : node) :
  article_info !! "url" = Some url ->
  fetch url = Ok soup ->
  find "p" (Some ("id", lit "article-123")) soup = None ->
  find "div" (Some ("class", lit "article-content-area")) soup
  = Some article_div ->
  find_all "p" None article_div <> [] ->
  get_article_content fetch article_info
  = Ok (<["content" :=
            join (lit " ")
              (List.map get_text_strip (find_all "p" None article_div))]>
          article_info)
  /\ (Forall (fun p => exists s, strings_of p = [s])
        (find_all "p" None article_div) ->
      get_article_content fetch article_info
      = Ok (<["content" :=
                join (lit " ")
                  (List.map spec_trimmed_text
                     (find_all "p" None article_div))]>
              article_info)).
Proof.
  intros Hurl Hf Hp Hdiv Hps.
  assert (E : get_article_content fetch article_info
              = Ok (<["content" :=
                        join (lit " ")
                          (List.map get_text_strip
                             (find_all "p" None article_div))]>
                      article_info)).
  { unfold get_article_content, article_try, getitem.
    rewrite Hurl, Hf, Hp, Hdiv.
    destruct (find_all "p" None article_div); [congruence | reflexivity]. }
  split; [exact E|]. intros Hsingle. rewrite E. do 3 f_equal.
  apply map_ext_in. intros p Hin.
  rewrite List.Forall_forall in Hsingle.
  destruct (Hsingle p Hin) as [s Hs]. now apply get_text_strip_single with s.
Qed.

Lemma get_article_content_fallback_witness :
  get_article_content
    (fun _ => Ok (article_page
                    [Tag "p" [] [NavigableString (lit "  Cocoa prices rose ")];
                     Tag "p" [] [NavigableString (lit " 5% today")]]))
    sample_article
  = Ok (<["content" := lit "Cocoa prices rose 5% today"]> sample_article).
Proof.
  set (page := article_page _).
  assert (Hurl : sample_article !! "url"
                 = Some (lit "https://www.ghanaweb.com/GhanaHomePage/business/1.php"))
    by (vm_compute; reflexivity).
  assert (Hp : find "p" (Some ("id", lit "article-123")) page = None)
    by (vm_compute; reflexivity).
  assert (Hdiv : find "div" (Some ("class", lit "article-content-area")) page
                 = Some (Tag "div" [("class", AList [lit "article-content-area"])]
                           [Tag "p" [] [NavigableString (lit "  Cocoa prices rose ")];
                            Tag "p" [] [NavigableString (lit " 5% today")]]))
    by (vm_compute; reflexivity).
  destruct (get_article_content_fallback (fun _ => Ok page) sample_article
              _ page _ Hurl eq_refl Hp Hdiv) as [H _].
  - vm_compute. discriminate.
  - rewrite H. vm_compute. reflexivity.
Defined.

(** C8: when the fetch of an article raises, the fetcher stores an error
    text that holds the message of the exception as the content of the
    reference and returns the reference; the exception does not reach the
    caller. *)
Theorem get_article_content_error
    (fetch : pystr -> result node) (article_info : gmap string pystr)
    (url : pystr) (e : exn) :
  article_info !! "url" = Some url ->
  fetch url = Raise e ->
  get_article_content fetch article_info
  = Ok (<["content" := lit "Error: " ++ exn_msg e]> article_info).
Proof.
  intros Hurl Hf. unfold get_article_content, article_try, getitem.
  now rewrite Hurl, Hf.
Qed.

Lemma get_article_content_error_witness :
  get_article_content (fun _ => Raise ConnectionError) sample_article
  = Ok (<["content" := lit "Error: Max retries exceeded"]> sample_article).
Proof.
  apply (get_article_content_error (fun _ => Raise ConnectionError)
           sample_article
           (lit "https://www.ghanaweb.com/GhanaHomePage/business/1.php")
           ConnectionError).
  - vm_compute. reflexivity.
  - reflexivity.
Defined.


(* ===================================================================== *)
(** ** The store: what a computation leaves alone *)
(* ===================================================================== *)

Lemma keeps_ret {A} n (a : A) (Q : A -> Prop) : Q a -> keeps n (ret a) Q.
Proof.
  intros Ha h Hn. simpl. repeat split; auto; try lia. intros a' E. now injection E as <-.
Qed.

Lemma keeps_throw {A} n e (Q : A -> Prop) : keeps n (throw e) Q.
Proof. intros h Hn. simpl. repeat split; auto; try lia. discriminate. Qed.

Lemma keeps_bind {A B} n (c : M A) (k : A -> M B) Q R :
  keeps n c Q -> (forall a, Q a -> keeps n (k a) R) -> keeps n (bind c k) R.
Proof.
  intros Hc Hk h Hn. unfold bind.
  destruct (Hc h Hn) as (H1 & H2 & H3).
  destruct (c h) as [[a|e] h'] eqn:E; simpl in *.
  - destruct (Hk a (H3 a eq_refl) h' ltac:(lia)) as (K1 & K2 & K3).
    repeat split; [congruence | lia | exact K3].
  - repeat split; auto; try lia. discriminate.
Qed.

Lemma keeps_weaken {A} n (c : M A) (Q R : A -> Prop) :
  keeps n c Q -> (forall a, Q a -> R a) -> keeps n c R.
Proof.
  intros Hc HQR h Hn. destruct (Hc h Hn) as (H1 & H2 & H3).
  repeat split; auto.
Qed.

Lemma keeps_read n l : keeps n (read l) (fun _ => True).
Proof.
  intros h Hn. unfold read. case_match; simpl; repeat split; auto; lia.
Qed.

Lemma keeps_new_frame n d : keeps n (new_frame d) (fun l => (n <= l)%nat).
Proof.
  intros h Hn. unfold new_frame. simpl. repeat split.
  - now rewrite take_app_le.
  - rewrite length_app. lia.
  - intros a E. injection E as <-. exact Hn.
Qed.

Lemma keeps_get_column n l col : keeps n (get_column l col) (fun _ => True).
Proof.
  unfold get_column. eapply keeps_bind; [apply keeps_read|].
  intros d _. destruct (assoc_get col (df_data d)).
  - now apply keeps_ret.
  - apply keeps_throw.
Qed.

Lemma keeps_set_column n l col cells :
  (n <= l)%nat -> keeps n (set_column l col cells) (fun _ => True).
Proof.
  intros Hl. unfold set_column. eapply keeps_bind; [apply keeps_read|].
  intros d _ h Hn. cbn [snd fst]. repeat split; auto.
  - now rewrite take_insert_ge.
  - now rewrite length_insert.
Qed.

(* ===================================================================== *)
(** ** Running the table operations *)
(* ===================================================================== *)

Lemma bind_ok {A B} (c : M A) (k : A -> M B) h a h' :
  c h = (Ok a, h') -> bind c k h = k a h'.
Proof. intros E. unfold bind. now rewrite E. Qed.

Lemma read_ok (h : heap) l d : h !! l = Some d -> read l h = (Ok d, h).
Proof. intros E. unfold read. now rewrite E. Qed.

Lemma get_column_ok (h : heap) l d col cells :
  h !! l = Some d -> assoc_get col (df_data d) = Some cells ->
  get_column l col h = (Ok cells, h).
Proof.
  intros E Ec. unfold get_column.
  rewrite (bind_ok _ _ _ _ _ (read_ok h l d E)). now rewrite Ec.
Qed.

Lemma set_column_ok (h : heap) l d col cells :
  h !! l = Some d ->
  set_column l col cells h
  = (Ok tt, <[l := mkframe (df_index d) (assoc_set col cells (df_data d))]> h).
Proof.
  intros E. unfold set_column.
  now rewrite (bind_ok _ _ _ _ _ (read_ok h l d E)).
Qed.

Lemma assoc_get_set_eq col cells data :
  assoc_get col (assoc_set col cells data) = Some cells.
Proof.
  induction data as [|[c old] data IH]; simpl.
  - now rewrite String.eqb_refl.
  - destruct (String.eqb c col) eqn:E; simpl; rewrite E; auto.
Qed.

Lemma assoc_get_set_ne c col cells data :
  c <> col -> assoc_get c (assoc_set col cells data) = assoc_get c data.
Proof.
  intros Hne. induction data as [|[c' old] data IH]; simpl.
  - destruct (String.eqb col c) eqn:E; [|reflexivity].
    apply String.eqb_eq in E. congruence.
  - destruct (String.eqb c' col) eqn:E; simpl.
    + apply String.eqb_eq in E. subst c'.
      destruct (String.eqb col c) eqn:E'; [|reflexivity].
      apply String.eqb_eq in E'. congruence.
    + destruct (String.eqb c' c); auto.
Qed.

Lemma assoc_get_select c mask data :
  assoc_get c (List.map (fun '(c, cells) => (c, select mask cells)) data)
  = select mask <$> assoc_get c data.
Proof.
  induction data as [|[c' cells] data IH]; simpl; [reflexivity|].
  destruct (String.eqb c' c); auto.
Qed.

Lemma has_column_assoc col d :
  has_column col d = true <-> is_Some (assoc_get col (df_data d)).
Proof.
  unfold has_column, columns. induction (df_data d) as [|[c cells] data IH].
  - simpl. split; [discriminate | intros [? ?]; discriminate].
  - simpl. rewrite String.eqb_sym. destruct (String.eqb c col); simpl.
    + split; eauto.
    + exact IH.
Qed.

Lemma assoc_get_Forall (P : string * list pyval -> Prop) col data cells :
  Forall P data -> assoc_get col data = Some cells -> P (col, cells).
Proof.
  induction 1 as [|[c old] data Hc Hs IH]; simpl; [discriminate|].
  destruct (String.eqb c col) eqn:E; [|exact IH].
  apply String.eqb_eq in E. subst c. intros H. now injection H as ->.
Qed.

Lemma select_length_eq {A B} mask (xs : list A) (ys : list B) :
  length xs = length ys ->
  length (select mask xs) = length (select mask ys).
Proof.
  revert xs ys. induction mask as [|b mask IH]; intros [|x xs] [|y ys] H;
    simpl in *; try lia; try reflexivity.
  destruct b; simpl; rewrite (IH xs ys) by lia; reflexivity.
Qed.

Lemma select_map {A B} (f : A -> B) mask (xs : list A) :
  select mask (List.map f xs) = List.map f (select mask xs).
Proof.
  revert xs. induction mask as [|b mask IH]; intros [|x xs]; simpl;
    try reflexivity.
  destruct b; simpl; now rewrite IH.
Qed.

Lemma select_self_Forall {A} (p : A -> bool) (xs : list A) :
  Forall (fun x => p x = true) (select (List.map p xs) xs).
Proof.
  induction xs as [|x xs IH]; simpl; [constructor|].
  destruct (p x) eqn:E; [constructor; assumption | assumption].
Qed.

(** The records of a two-column table are its rows. *)
Lemma two_column_records (xs ys : list pyval) :
  length xs = length ys ->
  List.map (fun i => [nth i xs PyNone; nth i ys PyNone]) (seq 0 (length xs))
  = zip_with (fun x y => [x; y]) xs ys.
Proof.
  revert ys. induction xs as [|x xs IH]; intros [|y ys] Hlen; simpl in *;
    try lia; [reflexivity|].
  f_equal. rewrite <- seq_shift, List.map_map. apply IH. lia.
Qed.

Lemma lookup_snoc (h : heap) (d : DataFrame) : (h ++ [d]) !! length h = Some d.
Proof. now apply list_lookup_middle. Qed.

Lemma insert_snoc (h : heap) (d d' : DataFrame) :
  <[length h := d']> (h ++ [d]) = h ++ [d'].
Proof.
  rewrite insert_app_r_alt by lia. now rewrite Nat.sub_diag.
Qed.

Lemma assoc_get_apply_eq f col data cells :
  assoc_get col data = Some cells ->
  assoc_get col (apply_column f col data) = Some (List.map f cells).
Proof. intros E. unfold apply_column. rewrite E. apply assoc_get_set_eq. Qed.

Lemma assoc_get_apply_ne f c col data :
  c <> col -> assoc_get c (apply_column f col data) = assoc_get c data.
Proof.
  intros Hne. unfold apply_column.
  destruct (assoc_get col data); [now apply assoc_get_set_ne | reflexivity].
Qed.

(** The step [if col in df.columns: df[col] = df[col].apply(f)] on the
    newest object of the store. *)
Lemma apply_column_step f col (h : heap) (d : DataFrame) :
  (if has_column col d then
     bind (get_column (length h) col)
       (fun cells => set_column (length h) col (List.map f cells))
   else ret tt) (h ++ [d])
  = (Ok tt, h ++ [mkframe (df_index d) (apply_column f col (df_data d))]).
Proof.
  unfold apply_column.
  destruct (assoc_get col (df_data d)) as [cells|] eqn:E.
  - assert (Hc : has_column col d = true) by (apply has_column_assoc; eauto).
    rewrite Hc.
    rewrite (bind_ok _ _ _ _ _
               (get_column_ok _ _ d col cells (lookup_snoc h d) E)).
    rewrite (set_column_ok _ _ d _ _ (lookup_snoc h d)).
    now rewrite insert_snoc.
  - assert (Hc : has_column col d = false).
    { destruct (has_column col d) eqn:Hc; [|reflexivity].
      apply has_column_assoc in Hc as [? Hc]. congruence. }
    rewrite Hc. destruct d; reflexivity.
Qed.

Section NormalizeAndScoreFacts.

Variable normalize_NFKD : pystr -> pystr.
Variable str_lower : pystr -> pystr.
Variable repr : pyval -> pystr.
Variable polarity_compound : pystr -> Q.
Variable object_dtype : nat -> string -> bool.

Local Abbreviation clean_and_score :=
  (clean_dataframe_add_sentiment normalize_NFKD str_lower repr
     polarity_compound object_dtype).

Local Abbreviation clean := (clean normalize_NFKD str_lower).
Local Abbreviation score :=
  (fun x => PyFloat (polarity_compound (py_str repr x))).

(** [series.str] leaves the store as it is. *)
Lemma keeps_str_accessor n df cleaned :
  keeps n (str_accessor object_dtype df cleaned) (fun _ => True).
Proof.
  unfold str_accessor. destruct cleaned; [|now apply keeps_ret].
  destruct (object_dtype df "content"); [now apply keeps_ret|].
  apply keeps_throw.
Qed.

(** [series.str] takes a column that has rows, and a column without rows
    whose dtype is [object]. *)
Lemma str_accessor_ok (h : heap) df (cleaned : list pyval) :
  (cleaned = [] -> object_dtype df "content" = true) ->
  str_accessor object_dtype df cleaned h = (Ok tt, h).
Proof.
  intros H. unfold str_accessor. destruct cleaned; [|reflexivity].
  now rewrite H.
Qed.

(** The run of [clean_dataframe_add_sentiment] on a table with a content
    column that has rows, or whose dtype is [object]: three new objects,
    the last of them returned. *)
Lemma clean_and_score_run (h : heap) df d content :
  h !! df = Some d ->
  assoc_get "content" (df_data d) = Some content ->
  (content = [] -> object_dtype df "content" = true) ->
  let cleaned := List.map clean content in
  let mask := List.map stripped_nonempty cleaned in
  let d2 :=
    mkframe (df_index d)
      (apply_column clean "content" (apply_column clean "title" (df_data d))) in
  let d3 := select_rows mask d2 in
  let d5 :=
    mkframe (df_index (reset_index d3))
      (assoc_set "sentiment_score" (List.map score (select mask cleaned))
         (df_data d3)) in
  clean_and_score df h
  = (Ok (length ((h ++ [d2]) ++ [d3])), ((h ++ [d2]) ++ [d3]) ++ [d5]).
Proof.
  intros Hdf Hcontent Hrows cleaned mask d2 d3 d5.
  unfold clean_dataframe_add_sentiment.
  rewrite (bind_ok _ _ _ _ _ (read_ok h df d Hdf)).
  rewrite (bind_ok _ _ h (length h) (h ++ [d]) eq_refl).
  rewrite (bind_ok _ _ _ _ _ (read_ok _ _ d (lookup_snoc h d))).
  rewrite (bind_ok _ _ _ _ _ (apply_column_step clean "title" h d)).
  set (d1 := mkframe (df_index d) (apply_column clean "title" (df_data d))).
  rewrite (bind_ok _ _ _ _ _ (read_ok _ _ d1 (lookup_snoc h d1))).
  rewrite (bind_ok _ _ _ _ _ (apply_column_step clean "content" h d1)).
  change (mkframe (df_index d1) (apply_column clean "content" (df_data d1)))
    with d2.
  assert (Hc2 : assoc_get "content" (df_data d2) = Some cleaned).
  { apply assoc_get_apply_eq. rewrite assoc_get_apply_ne by discriminate.
    exact Hcontent. }
  rewrite (bind_ok _ _ _ _ _
             (get_column_ok _ _ d2 _ _ (lookup_snoc h d2) Hc2)).
  assert (Hstr : cleaned = [] -> object_dtype df "content" = true).
  { intros E. apply Hrows. unfold cleaned in E.
    now apply map_eq_nil in E. }
  rewrite (bind_ok _ _ _ _ _ (str_accessor_ok (h ++ [d2]) df cleaned Hstr)).
  rewrite (bind_ok _ _ _ _ _ (read_ok _ _ d2 (lookup_snoc h d2))).
  rewrite (bind_ok _ _ (h ++ [d2]) (length (h ++ [d2]))
             ((h ++ [d2]) ++ [select_rows mask d2]) eq_refl).
  fold d3.
  rewrite (bind_ok _ _ _ _ _ (read_ok _ _ d3 (lookup_snoc _ d3))).
  rewrite (bind_ok _ _ ((h ++ [d2]) ++ [d3]) (length ((h ++ [d2]) ++ [d3]))
             (((h ++ [d2]) ++ [d3]) ++ [reset_index d3]) eq_refl).
  assert (Hc4 : assoc_get "content" (df_data (reset_index d3))
                = Some (select mask cleaned)).
  { unfold reset_index, d3, select_rows. cbn [df_data].
    rewrite assoc_get_select, Hc2. reflexivity. }
  rewrite (bind_ok _ _ _ _ _
             (get_column_ok _ _ (reset_index d3) _ _ (lookup_snoc _ _) Hc4)).
  rewrite (bind_ok _ _ _ _ _
             (set_column_ok _ _ (reset_index d3) "sentiment_score" _
                (lookup_snoc _ _))).
  rewrite insert_snoc. reflexivity.
Qed.

Lemma clean_and_score_keeps n df :
  keeps n (clean_and_score df) (fun l => (n <= l)%nat).
Proof.
  unfold clean_dataframe_add_sentiment.
  eapply keeps_bind; [apply keeps_read|]. intros d _.
  eapply keeps_bind; [apply keeps_new_frame|]. intros l1 Hl1.
  eapply keeps_bind; [apply keeps_read|]. intros d1 _.
  eapply keeps_bind with (Q := fun _ => True).
  { destruct (has_column "title" d1); [|now apply keeps_ret].
    eapply keeps_bind; [apply keeps_get_column|]. intros title _.
    now apply keeps_set_column. }
  intros _ _.
  eapply keeps_bind; [apply keeps_read|]. intros d2 _.
  eapply keeps_bind with (Q := fun _ => True).
  { destruct (has_column "content" d2); [|now apply keeps_ret].
    eapply keeps_bind; [apply keeps_get_column|]. intros content _.
    now apply keeps_set_column. }
  intros _ _.
  eapply keeps_bind; [apply keeps_get_column|]. intros content _.
  eapply keeps_bind; [apply keeps_str_accessor|]. intros _ _.
  eapply keeps_bind; [apply keeps_read|]. intros d3 _.
  eapply keeps_bind; [apply keeps_new_frame|]. intros l2 Hl2.
  eapply keeps_bind; [apply keeps_read|]. intros d4 _.
  eapply keeps_bind; [apply keeps_new_frame|]. intros l3 Hl3.
  eapply keeps_bind; [apply keeps_get_column|]. intros content' _.
  eapply keeps_bind; [now apply keeps_set_column|]. intros _ _.
  now apply keeps_ret.
Qed.

End NormalizeAndScoreFacts.

(** C9: in the normalise-and-score stage, on a table that has rows (as
    the driver's always has), the rows whose cleaned content is empty are
    removed before any score is computed, the remaining rows are
    relabelled [0 .. n-1], each of them gets the score of its cleaned
    content, and what is exported is the [date] and [sentiment_score]
    columns of the remaining rows. *)
Theorem normalize_score_export
    normalize_NFKD str_lower repr polarity_compound object_dtype
    (h : heap) (df : nat) (d : DataFrame) (content dates : list pyval) :
  h !! df = Some d ->
  well_formed d ->
  assoc_get "content" (df_data d) = Some content ->
  assoc_get "date" (df_data d) = Some dates ->
  content <> [] ->
  let cleaned := List.map (clean_text normalize_NFKD str_lower) content in
  let keep := List.map (fun s => negb (pystr_eqb (strip s) [])) cleaned in
  let kept := select keep cleaned in
  exists out h' r,
    clean_dataframe_add_sentiment normalize_NFKD str_lower repr
      polarity_compound object_dtype df h = (Ok out, h')
    /\ h' !! out = Some r
    /\ assoc_get "content" (df_data r) = Some (List.map PyStr kept)
    /\ Forall (fun s => strip s <> []) kept
    /\ df_index r = List.map Z.of_nat (seq 0 (length kept))
    /\ assoc_get "sentiment_score" (df_data r)
       = Some (List.map (fun s => PyFloat (polarity_compound s)) kept)
    /\ assoc_get "date" (df_data r) = Some (select keep dates)
    /\ length (select keep dates) = length kept
    /\ fst (driver_export normalize_NFKD str_lower repr polarity_compound
              object_dtype df h)
       = Ok (mkcsv ["date"; "sentiment_score"]
               (zip_with (fun date s => [date; PyFloat (polarity_compound s)])
                  (select keep dates) kept)).
Proof.
  intros Hdf [Hnodup Hlens] Hcontent Hdates Hrows cleaned keep kept.
  pose proof (clean_and_score_run normalize_NFKD str_lower repr
                polarity_compound object_dtype h df d content Hdf Hcontent
                (fun E => False_ind _ (Hrows E))) as Hrun.
  cbv zeta in Hrun.
  set (clean := clean normalize_NFKD str_lower) in *.
  assert (Hmask : List.map stripped_nonempty (List.map clean content) = keep).
  { unfold keep, cleaned. rewrite !List.map_map. reflexivity. }
  assert (Hsel : select keep (List.map clean content) = List.map PyStr kept).
  { unfold kept, cleaned, clean, clean.
    rewrite <- select_map, List.map_map. reflexivity. }
  rewrite Hmask, Hsel in Hrun.
  set (d2 := mkframe (df_index d) _) in *.
  set (d3 := select_rows keep d2) in *.
  set (d5 := mkframe (df_index (reset_index d3)) _) in *.
  assert (Hlen_c : length content = length (df_index d))
    by exact (assoc_get_Forall _ _ _ _ Hlens Hcontent).
  assert (Hlen_d : length dates = length (df_index d))
    by exact (assoc_get_Forall _ _ _ _ Hlens Hdates).
  assert (Hkept_len : length (select keep (df_index d)) = length kept).
  { unfold kept. apply select_length_eq. unfold cleaned.
    rewrite length_map. lia. }
  assert (Hdates_len : length (select keep dates) = length kept).
  { unfold kept. apply select_length_eq. unfold cleaned.
    rewrite length_map. lia. }
  assert (Hscore : List.map (fun x => PyFloat (polarity_compound (py_str repr x)))
                     (List.map PyStr kept)
                   = List.map (fun s => PyFloat (polarity_compound s)) kept)
    by (rewrite List.map_map; reflexivity).
  assert (Hdate5 : assoc_get "date" (df_data d5) = Some (select keep dates)).
  { unfold d5, d3, select_rows. cbn [df_data].
    rewrite assoc_get_set_ne by discriminate.
    rewrite assoc_get_select. unfold d2. cbn [df_data].
    rewrite !assoc_get_apply_ne by discriminate. now rewrite Hdates. }
  assert (Hscore5 : assoc_get "sentiment_score" (df_data d5)
                    = Some (List.map (fun s => PyFloat (polarity_compound s)) kept)).
  { unfold d5. cbn [df_data]. rewrite assoc_get_set_eq, Hscore. reflexivity. }
  exists (length ((h ++ [d2]) ++ [d3])), (((h ++ [d2]) ++ [d3]) ++ [d5]), d5.
  split; [exact Hrun|]. split; [apply lookup_snoc|].
  split; [|split; [|split; [|split; [|split; [|split]]]]].
  - unfold d5. cbn [df_data]. rewrite assoc_get_set_ne by discriminate.
    unfold d3, select_rows. cbn [df_data]. rewrite assoc_get_select.
    unfold d2. cbn [df_data].
    rewrite (assoc_get_apply_eq _ _ _ content)
      by (rewrite assoc_get_apply_ne by discriminate; exact Hcontent).
    cbn [fmap option_fmap option_map]. now rewrite Hsel.
  - unfold kept, keep.
    eapply List.Forall_impl;
      [|apply (select_self_Forall
                 (fun s => negb (pystr_eqb (strip s) [])) cleaned)].
    intros s Hs E. cbv beta in Hs. rewrite E in Hs. discriminate.
  - unfold d5, reset_index, d3, select_rows, d2. cbn [df_index].
    now rewrite Hkept_len.
  - exact Hscore5.
  - exact Hdate5.
  - exact Hdates_len.
  - unfold driver_export.
    rewrite (bind_ok _ _ _ _ _ Hrun).
    rewrite (bind_ok _ _ _ _ _ (read_ok _ _ d5 (lookup_snoc _ d5))).
    cbn [pick_columns]. rewrite Hdate5, Hscore5.
    set (proj := mkframe (df_index d5) _).
    rewrite (bind_ok _ _ _ _ _ (eq_refl : new_frame proj _ = (Ok _, _ ++ [proj]))).
    rewrite (bind_ok _ _ _ _ _ (read_ok _ _ proj (lookup_snoc _ proj))).
    cbn [ret fst]. f_equal. unfold to_csv, columns, proj.
    cbn [df_data df_index List.map fst]. f_equal.
    unfold d5, reset_index, d3, select_rows, d2. cbn [df_index].
    rewrite length_map, length_seq, Hkept_len, <- Hdates_len.
    rewrite two_column_records by (rewrite length_map; lia).
    now rewrite zip_with_fmap_r.
Qed.

(** C10: [clean_dataframe_add_sentiment] works on a copy: whatever it
    returns or raises, every table that existed before the call, the
    caller's among them, is the same after it. *)
Theorem clean_dataframe_keeps_input
    normalize_NFKD str_lower repr polarity_compound object_dtype
    (h : heap) (df : nat) (l : nat) (d : DataFrame) :
  h !! l = Some d ->
  snd (clean_dataframe_add_sentiment normalize_NFKD str_lower repr
         polarity_compound object_dtype df h) !! l = Some d.
Proof.
  intros Hl.
  destruct (clean_and_score_keeps normalize_NFKD str_lower repr
              polarity_compound object_dtype (length h) df h (le_n _))
    as (H & _ & _).
  rewrite (take_ge h) in H by lia.
  apply lookup_lt_Some in Hl as Hlt.
  rewrite <- (lookup_take_lt _ (length h)) by exact Hlt.
  rewrite H. exact Hl.
Qed.


Lemma sample_table_well_formed : well_formed sample_table.
Proof.
  split.
  - apply (bool_decide_unpack _). vm_compute. exact I.
  - repeat constructor.
Qed.

Lemma normalize_score_export_witness :
  fst (driver_export ascii_NFKD ascii_str_lower sample_repr neutral_polarity
         no_object_dtype 0%nat [sample_table])
  = Ok (mkcsv ["date"; "sentiment_score"]
          [[PyTimestamp 735599; PyFloat 0]; [PyTimestamp 735601; PyFloat 0]]).
Proof.
  destruct (normalize_score_export ascii_NFKD ascii_str_lower sample_repr
              neutral_polarity no_object_dtype [sample_table] 0%nat
              sample_table
              [PyStr (lit "Cocoa prices rose 5% today"); PyStr (lit " ... ");
               PyStr (lit "Content not found")]
              [PyTimestamp 735599; PyTimestamp 735600; PyTimestamp 735601]
              eq_refl sample_table_well_formed eq_refl eq_refl
              ltac:(discriminate))
    as (out & h' & r & _ & _ & _ & _ & _ & _ & _ & _ & H).
  rewrite H. vm_compute. reflexivity.
Defined.

Lemma clean_dataframe_keeps_input_witness :
  snd (clean_dataframe_add_sentiment ascii_NFKD ascii_str_lower sample_repr
         neutral_polarity no_object_dtype 0%nat [sample_table]) !! 0%nat
  = Some sample_table.
Proof.
  apply (clean_dataframe_keeps_input ascii_NFKD ascii_str_lower sample_repr
           neutral_polarity no_object_dtype [sample_table] 0%nat 0%nat
           sample_table).
  reflexivity.
Defined.

Lemma listing_item_article
    date_str item a :
  listing_item date_str item = Ok (Some a) ->
  exists title href,
    a = article_ref date_str title href /\ re_search re_cocoa title = true.
Proof.
  unfold listing_item. intros H.
  destruct (find "a" None item) as [[| |name attrs contents]|];
    try discriminate.
  destruct (has_attr "href" _ && has_attr "title" _); [|discriminate].
  destruct (attrs_get "title" attrs) as [[title|]|]; try discriminate;
    destruct (attrs_get "href" attrs) as [href|]; try discriminate.
  destruct (re_search re_cocoa title) eqn:Hk; [|discriminate].
  destruct href as [href|]; [|discriminate].
  injection H as <-. exists title, href. auto.
Qed.

Lemma listing_loop_Forall (P : gmap string pystr -> Prop) date_str items :
  (forall item a, listing_item date_str item = Ok (Some a) -> P a) ->
  forall articles,
    Forall P articles ->
    Forall P (fst (listing_loop date_str items articles)).
Proof.
  intros HP. induction items as [|item items IH]; intros articles Hacc.
  - exact Hacc.
  - cbn [listing_loop].
    destruct (listing_item date_str item) as [[a|]|e] eqn:E.
    + apply IH. apply Forall_app. split; [exact Hacc|].
      constructor; [eapply HP, E | constructor].
    + apply IH, Hacc.
    + exact Hacc.
Qed.

Lemma listing_articles_Forall (P : gmap string pystr -> Prop) fetch url date_str :
  (forall title href, re_search re_cocoa title = true ->
     P (article_ref date_str title href)) ->
  Forall P (get_articles_from_listing_page fetch url date_str).
Proof.
  intros HP. unfold get_articles_from_listing_page.
  destruct (fetch url) as [soup|e]; [|constructor].
  destruct (listing_items soup) as [items|]; [|constructor].
  apply listing_loop_Forall; [|constructor].
  intros item a H. apply listing_item_article in H as (t & h & -> & Hk).
  now apply HP.
Qed.

Lemma startswith_http_url href :
  startswith (lit "http")
    (if startswith (lit "http") href then href else origin ++ href) = true.
Proof.
  destruct (startswith (lit "http") href) eqn:E; [exact E | reflexivity].
Qed.

Lemma article_ref_dom date_str title href :
  dom (article_ref date_str title href) = ({["date"; "title"; "url"]} : gset string).
Proof. unfold article_ref. rewrite !dom_insert_L, dom_empty_L. set_solver. Qed.

Section FetcherFacts.

Variable fetch : pystr -> result node.

Lemma get_article_content_run article_info url :
  article_info !! "url" = Some url ->
  get_article_content fetch article_info
  = Ok (<["content" := article_content fetch url]> article_info).
Proof.
  intros Hurl. unfold get_article_content, article_try, getitem, article_content.
  rewrite Hurl. destruct (fetch url) as [soup|e]; [|reflexivity].
  destruct (find "p" _ soup); [reflexivity|].
  destruct (find "div" _ soup) as [article_div|]; [|reflexivity].
  destruct (find_all "p" None article_div); reflexivity.
Qed.

Lemma fetch_articles_run cocoa_articles :
  forall all_cocoa_articles,
    Forall (fun a => is_Some (a !! "url")) cocoa_articles ->
    fetch_articles fetch cocoa_articles all_cocoa_articles
    = Ok (all_cocoa_articles ++ List.map (with_content fetch) cocoa_articles).
Proof.
  induction cocoa_articles as [|a rest IH]; intros acc H.
  - simpl. now rewrite app_nil_r.
  - inversion H as [|? ? [url Hurl] Hrest]; subst.
    cbn [fetch_articles]. rewrite (get_article_content_run a url Hurl).
    rewrite IH by exact Hrest.
    assert (Hw : with_content fetch a
                 = <["content" := article_content fetch url]> a)
      by (unfold with_content; now rewrite Hurl).
    cbn [List.map]. now rewrite Hw, <- app_assoc.
Qed.

Lemma listing_articles_have_url url date_str :
  Forall (fun a => is_Some (a !! "url"))
         (get_articles_from_listing_page fetch url date_str).
Proof.
  apply listing_articles_Forall. intros title href _.
  rewrite article_ref_url. eauto.
Qed.

Lemma crawl_run date_urls :
  forall all_cocoa_articles,
    crawl fetch date_urls all_cocoa_articles
    = Ok (all_cocoa_articles ++ concat (List.map (day_records fetch) date_urls)).
Proof.
  induction date_urls as [|[date_str url] rest IH]; intros acc.
  - simpl. now rewrite app_nil_r.
  - cbn [crawl]. unfold day_records at 1. cbn [List.map concat fst snd].
    pose proof (listing_articles_have_url url date_str) as Hurl.
    destruct (get_articles_from_listing_page fetch url date_str) as [|a l] eqn:E.
    + rewrite IH. reflexivity.
    + rewrite fetch_articles_run by exact Hurl. rewrite IH.
      now rewrite <- app_assoc.
Qed.

End FetcherFacts.

(* ===================================================================== *)
(** ** More on the listing extractor, the fetcher and the driver's loop *)
(* ===================================================================== *)

(** X1: whatever the page holds, every article the listing extractor
    returns has exactly the keys [date], [title] and [url]; its date is the
    date key passed in, its title holds [cocoa] (letter case apart) and its
    url starts with [http]. *)
Theorem listing_articles_shape
    (fetch : pystr -> result node) (url date_str : pystr)
    (article : gmap string pystr) :
  In article (get_articles_from_listing_page fetch url date_str) ->
  dom article = ({["date"; "title"; "url"]} : gset string)
  /\ article !! "date" = Some date_str
  /\ (exists title,
        article !! "title" = Some title
        /\ contains_ignorecase (lit "cocoa") title)
  /\ (exists u, article !! "url" = Some u /\ startswith (lit "http") u = true).
Proof.
  revert article. apply List.Forall_forall.
  apply listing_articles_Forall. intros title href Hk.
  split; [apply article_ref_dom|]. split; [apply article_ref_date|].
  split.
  - exists title. split; [apply article_ref_title|].
    now apply keyword_filter_spec.
  - eexists. split; [apply article_ref_url | apply startswith_http_url].
Qed.

Lemma listing_articles_shape_witness :
  dom sample_article = ({["date"; "title"; "url"]} : gset string)
  /\ sample_article !! "date" = Some (lit "20150101").
Proof.
  destruct (listing_articles_shape (fun _ => Ok (listing_page sample_items))
              (lit "u") (lit "20150101") sample_article) as (H1 & H2 & _).
  - vm_compute. left. reflexivity.
  - split; assumption.
Defined.

(** X2: for an article that has a [url], the fetcher returns normally
    whatever the fetch does; the dictionary it returns has a [content] and
    is the one passed in at every other key. *)
Theorem get_article_content_total
    (fetch : pystr -> result node) (article_info : gmap string pystr)
    (url : pystr) :
  article_info !! "url" = Some url ->
  exists article_with_content,
    get_article_content fetch article_info = Ok article_with_content
    /\ is_Some (article_with_content !! "content")
    /\ (forall key, key <> "content" ->
          article_with_content !! key = article_info !! key).
Proof.
  intros Hurl. eexists. split; [apply get_article_content_run, Hurl|].
  split.
  - rewrite lookup_insert_eq. eauto.
  - intros key Hkey. now rewrite lookup_insert_ne.
Qed.

Lemma get_article_content_total_witness :
  exists article_with_content,
    get_article_content (fun _ => Raise ConnectionError) sample_article
    = Ok article_with_content
    /\ is_Some (article_with_content !! "content").
Proof.
  destruct (get_article_content_total (fun _ => Raise ConnectionError)
              sample_article
              (lit "https://www.ghanaweb.com/GhanaHomePage/business/1.php"))
    as (a & H1 & H2 & _).
  - vm_compute. reflexivity.
  - exists a. split; assumption.
Defined.

(** X3: for a dictionary without a [url] the fetcher raises [KeyError]:
    the lookup fails inside the [try], and the handler repeats it. *)
Theorem get_article_content_without_url
    (fetch : pystr -> result node) (article_info : gmap string pystr) :
  article_info !! "url" = None ->
  get_article_content fetch article_info = Raise (KeyError "url").
Proof.
  intros Hurl. unfold get_article_content, article_try, getitem.
  now rewrite Hurl.
Qed.

Lemma get_article_content_without_url_witness :
  get_article_content (fun _ => Ok empty_page) (∅ : gmap string pystr)
  = Raise (KeyError "url").
Proof.
  apply (get_article_content_without_url (fun _ => Ok empty_page) ∅).
  reflexivity.
Defined.



(** X5: when the page has neither the paragraph with id [article-123] nor
    a content area with a paragraph in it, the content is the text
    [Content not found]. *)
Theorem get_article_content_not_found
    (fetch : pystr -> result node) (article_info : gmap string pystr)
    (url : pystr) (soup : node) :
  article_info !! "url" = Some url ->
  fetch url = Ok soup ->
  find "p" (Some ("id", lit "article-123")) soup = None ->
  (find "div" (Some ("class", lit "article-content-area")) soup = None
   \/ exists article_div,
        find "div" (Some ("class", lit "article-content-area")) soup
        = Some article_div
        /\ find_all "p" None article_div = []) ->
  get_article_content fetch article_info
  = Ok (<["content" := lit "Content not found"]> article_info).
Proof.
  intros Hurl Hf Hp Hdiv. rewrite (get_article_content_run fetch _ url Hurl).
  unfold article_content. rewrite Hf, Hp.
  destruct Hdiv as [Hd | (article_div & Hd & Hps)].
  - now rewrite Hd.
  - now rewrite Hd, Hps.
Qed.

Lemma get_article_content_not_found_witness :
  get_article_content (fun _ => Ok empty_page) sample_article
  = Ok (<["content" := lit "Content not found"]> sample_article).
Proof.
  apply (get_article_content_not_found (fun _ => Ok empty_page)
           sample_article
           (lit "https://www.ghanaweb.com/GhanaHomePage/business/1.php")
           empty_page).
  - vm_compute. reflexivity.
  - reflexivity.
  - vm_compute. reflexivity.
  - left. vm_compute. reflexivity.
Defined.

(** X6: the loop over the dates never raises.  It collects, date by date
    in the order of [date_urls] and within a date in the order of the
    page, every article the listing extractor returns, each with the
    content the fetcher stores for its url. *)
Theorem crawl_collects
    (fetch : pystr -> result node) (date_urls : list (pystr * pystr)) :
  crawl fetch date_urls []
  = Ok (concat (List.map (day_records fetch) date_urls)).
Proof. apply crawl_run. Qed.

(** X7: every record the loop collects has exactly the keys [date],
    [title], [url] and [content], and its date is the key of one of the
    dates of [date_urls]. *)
Theorem crawl_records_complete
    (fetch : pystr -> result node) (date_urls : list (pystr * pystr))
    (records : list (gmap string pystr)) (record : gmap string pystr) :
  crawl fetch date_urls [] = Ok records ->
  In record records ->
  dom record = ({["date"; "title"; "url"; "content"]} : gset string)
  /\ exists date_str url,
       In (date_str, url) date_urls /\ record !! "date" = Some date_str.
Proof.
  rewrite crawl_run. intros H Hin. injection H as <-. simpl in Hin.
  apply in_concat in Hin as (day & Hday & Hin).
  apply in_map_iff in Hday as ([date_str url] & <- & Hdu).
  unfold day_records in Hin. cbn [fst snd] in Hin.
  apply in_map_iff in Hin as (article & <- & Hin).
  assert (Hall : Forall (fun a => exists title href,
                           a = article_ref date_str title href)
                   (get_articles_from_listing_page fetch url date_str))
    by (apply listing_articles_Forall; intros t h _; eauto).
  rewrite List.Forall_forall in Hall.
  destruct (Hall article Hin) as (title & href & ->).
  unfold with_content. rewrite article_ref_url. split.
  - rewrite dom_insert_L, article_ref_dom. set_solver.
  - exists date_str, url. split; [exact Hdu|].
    rewrite lookup_insert_ne by discriminate. apply article_ref_date.
Qed.

Lemma crawl_records_complete_witness :
  exists record,
    In record
      (concat (List.map (day_records (fun _ => Ok (listing_page sample_items)))
                 [(lit "20150101", lit "u")]))
    /\ dom record = ({["date"; "title"; "url"; "content"]} : gset string).
Proof.
  set (fetch := fun _ : pystr => Ok (listing_page sample_items)).
  set (records := concat (List.map (day_records fetch) [(lit "20150101", lit "u")])).
  assert (Hin : In (with_content fetch sample_article) records)
    by (vm_compute; left; reflexivity).
  exists (with_content fetch sample_article). split; [exact Hin|].
  exact (proj1 (crawl_records_complete fetch [(lit "20150101", lit "u")]
                  records _ (crawl_run fetch _ []) Hin)).
Defined.

(** X8: a date whose listing cannot be fetched adds nothing and does not
    stop the loop. *)
Theorem crawl_skips_failed_listing
    (fetch : pystr -> result node) (date_str url : pystr) (e : exn)
    (date_urls : list (pystr * pystr))
    (all_cocoa_articles : list (gmap string pystr)) :
  fetch url = Raise e ->
  crawl fetch ((date_str, url) :: date_urls) all_cocoa_articles
  = crawl fetch date_urls all_cocoa_articles.
Proof.
  intros Hf. cbn [crawl]. unfold get_articles_from_listing_page.
  now rewrite Hf.
Qed.

Lemma crawl_skips_failed_listing_witness :
  crawl (fun _ => Raise ConnectionError)
    [(lit "20150101", lit "u"); (lit "20150102", lit "v")] []
  = crawl (fun _ => Raise ConnectionError) [(lit "20150102", lit "v")] [].
Proof.
  apply (crawl_skips_failed_listing (fun _ => Raise ConnectionError)
           (lit "20150101") (lit "u") ConnectionError).
  reflexivity.
Defined.

(** X9: the loop works through the dates one after the other: what it
    collects for two lists of dates in a row is what it collects for the
    first followed by what it collects for the second. *)
Theorem crawl_app
    (fetch : pystr -> result node) (dates1 dates2 : list (pystr * pystr))
    (records1 records2 : list (gmap string pystr)) :
  crawl fetch dates1 [] = Ok records1 ->
  crawl fetch dates2 [] = Ok records2 ->
  crawl fetch (dates1 ++ dates2) [] = Ok (records1 ++ records2).
Proof.
  rewrite !crawl_run. cbn [app]. intros H1 H2.
  injection H1 as <-. injection H2 as <-.
  now rewrite List.map_app, concat_app.
Qed.

Lemma crawl_app_witness :
  crawl (fun _ => Ok (listing_page sample_items))
    ([(lit "20150101", lit "u")] ++ [(lit "20150102", lit "v")]) []
  = Ok (day_records (fun _ => Ok (listing_page sample_items))
          (lit "20150101", lit "u")
        ++ day_records (fun _ => Ok (listing_page sample_items))
             (lit "20150102", lit "v")).
Proof.
  apply (crawl_app (fun _ => Ok (listing_page sample_items))).
  - vm_compute. reflexivity.
  - vm_compute. reflexivity.
Defined.

(* ===================================================================== *)
(** ** More on [clean_text] *)
(* ===================================================================== *)

Lemma rstrip_last s t c : rstrip s = t ++ [c] -> is_space c = false.
Proof.
  unfold rstrip. intros H. apply (f_equal (@rev N)) in H.
  rewrite rev_involutive, rev_app_distr in H. simpl in H.
  pose proof (lstrip_head (rev s)) as Hh. now rewrite H in Hh.
Qed.

Lemma lstrip_all_space s :
  Forall (fun c => is_space c = true) s -> lstrip s = [].
Proof.
  induction 1 as [|c s Hc Hs IH]; simpl; [reflexivity|]. now rewrite Hc.
Qed.

(** A cons at which no match starts is copied. *)
Lemma re_sub_head r repl c s :
  match_at r (c :: s) = None ->
  re_sub r repl (c :: s) = c :: re_sub r repl s.
Proof. intros H. unfold re_sub. simpl. now rewrite H. Qed.

Lemma match_at_entity_head c s : c <> 38 -> match_at re_entity (c :: s) = None.
Proof.
  intros Hc. unfold match_at, re_entity. simpl.
  destruct (c =? 38) eqn:E; [|reflexivity]. apply N.eqb_eq in E. congruence.
Qed.

Lemma match_at_url_head c s :
  c <> 104 -> c <> 119 -> match_at re_url (c :: s) = None.
Proof.
  intros Hh Hw. unfold match_at, re_url.
  change (lit "http") with [104; 116; 116; 112].
  change (lit "www.") with [119; 119; 119; 46].
  cbn [word re_match].
  apply N.eqb_neq in Hh, Hw. now rewrite Hh, Hw.
Qed.

Lemma match_at_special_head c s :
  is_word_or_space c = true -> match_at re_special (c :: s) = None.
Proof. intros Hc. unfold re_special. rewrite match_at_Cls. now rewrite Hc. Qed.

(** What [re.sub] returns is made of characters of the input and of the
    replacement. *)
Lemma re_sub_Forall (Q : N -> Prop) r repl s :
  Forall Q repl -> Forall Q s -> Forall Q (re_sub r repl s).
Proof.
  intros Hrepl Hs. apply sub_scan_Forall; [exact Hrepl | |];
    intros c s' Hin _; rewrite List.Forall_forall in Hs; now apply Hs.
Qed.

Section MoreCleanTextFacts.

Variable normalize_NFKD : pystr -> pystr.
Variable str_lower : pystr -> pystr.
Hypothesis lower_ascii : lower_on_ascii str_lower.
Hypothesis nfkd_ascii : NFKD_fixes_ascii normalize_NFKD.

Local Abbreviation clean_text := (clean_text normalize_NFKD str_lower).

Lemma clean_text_spacing (x : pyval) :
  strip (clean_text x) = clean_text x
  /\ single_spaced (clean_text x) = true.
Proof.
  destruct x; try (split; reflexivity).
  rewrite clean_text_str. split.
  - apply strip_idem.
  - apply single_spaced_strip, before_strip_single, lower_ascii.
Qed.

Lemma clean_text_ends (x : pyval) :
  (forall c s, clean_text x = c :: s -> c <> 32)
  /\ (forall s c, clean_text x = s ++ [c] -> c <> 32).
Proof.
  assert (H32 : is_space 32 = true) by reflexivity.
  destruct x; try (split; intros; [discriminate | destruct s; discriminate]).
  rewrite clean_text_str. unfold strip. split.
  - intros c t E Hc. subst c.
    pose proof (lstrip_head (before_strip normalize_NFKD str_lower s)) as Hh.
    destruct (lstrip (before_strip normalize_NFKD str_lower s)) as [|d u]; [discriminate|].
    destruct (rstrip_keeps_head d u Hh) as [r Hr].
    rewrite Hr in E. injection E as -> _. congruence.
  - intros t c E Hc. subst c. apply rstrip_last in E. congruence.
Qed.

(** A text in the form [clean_text] produces is left as it is. *)
Lemma clean_text_canonical (s : pystr) :
  Forall (fun c => is_clean_char c = true) s ->
  single_spaced s = true ->
  strip s = s ->
  re_search re_url s = false ->
  clean_text (PyStr s) = s.
Proof.
  intros Hc Hsp Hst Hurl. rewrite clean_text_str.
  unfold before_strip.
  rewrite nfkd_ascii by apply clean_chars_ascii, Hc.
  rewrite (re_sub_no_match re_entity) by apply no_entity, Hc.
  rewrite (re_sub_no_match re_url) by exact Hurl.
  rewrite (re_sub_no_match re_special) by apply no_special, Hc.
  rewrite collapse_fixed by assumption.
  rewrite lower_ascii by apply clean_chars_ascii, Hc.
  rewrite lower_fixed by exact Hc.
  exact Hst.
Qed.

(** A leading letter or digit other than [h] and [w] is kept, in lower
    case, as the first character of the cleaned text. *)
Lemma clean_text_head (c : N) (s : pystr) :
  forallb is_ascii (c :: s) = true ->
  is_alnum c = true -> c <> 104 -> c <> 119 ->
  exists t, clean_text (PyStr (c :: s)) = ascii_lower c :: t.
Proof.
  intros Hascii Hc Hh Hw. rewrite clean_text_str.
  assert (Hns : is_space c = false) by (apply alnum_not_space, Hc).
  assert (Hns' : is_space (ascii_lower c) = false)
    by now rewrite is_space_ascii_lower.
  assert (Hpre : exists u,
            re_sub re_spaces (lit " ")
              (re_sub re_special (lit " ")
                 (re_sub re_url (lit "")
                    (re_sub re_entity (lit " ") (c :: s)))) = c :: u
            /\ Forall (fun c => (is_alpha c || is_digit c || (c =? 32)) = true)
                      (c :: u)).
  { rewrite (re_sub_head re_entity)
      by (apply match_at_entity_head; intros ->; discriminate).
    rewrite (re_sub_head re_url) by now apply match_at_url_head.
    rewrite (re_sub_head re_special)
      by (apply match_at_special_head; unfold is_word_or_space;
          unfold is_alnum in Hc; now rewrite Hc).
    pose proof (spaces_stage
                  (c :: re_sub re_special (lit " ")
                          (re_sub re_url (lit "")
                             (re_sub re_entity (lit " ") s)))) as Hall.
    rewrite collapse_nonspace in Hall |- * by exact Hns.
    eexists. split; [reflexivity|]. apply Hall.
    constructor; [|apply special_stage].
    unfold is_word_or_space. unfold is_alnum in Hc. now rewrite Hc. }
  destruct Hpre as (u & Hu & Hall).
  unfold before_strip. rewrite nfkd_ascii by exact Hascii.
  rewrite Hu. rewrite lower_ascii.
  - cbn [List.map]. unfold strip. rewrite lstrip_fixed by exact Hns'.
    apply rstrip_keeps_head, Hns'.
  - apply Forall_forallb. eapply List.Forall_impl; [|exact Hall].
    intros d Hd. apply alnum_or_blank_ascii, Hd.
Qed.

(** What stands before the final [strip] is ASCII. *)
Lemma stages_ascii (s : pystr) :
  forallb is_ascii
    (re_sub re_spaces (lit " ")
       (re_sub re_special (lit " ")
          (re_sub re_url (lit "") (re_sub re_entity (lit " ") s)))) = true.
Proof.
  apply Forall_forallb.
  eapply List.Forall_impl; [|apply spaces_stage, special_stage].
  intros d Hd. apply alnum_or_blank_ascii, Hd.
Qed.

(** A leading letter or digit other than [h] and [w] goes through the
    stages on its own. *)
Lemma before_strip_cons (c : N) (s : pystr) :
  forallb is_ascii (c :: s) = true ->
  is_alnum c = true -> c <> 104 -> c <> 119 ->
  before_strip normalize_NFKD str_lower (c :: s)
  = ascii_lower c :: before_strip normalize_NFKD str_lower s.
Proof.
  intros Hascii Hc Hh Hw.
  assert (Hs : forallb is_ascii s = true)
    by (cbn [forallb] in Hascii; now apply andb_true_iff in Hascii).
  assert (Hns : is_space c = false) by (apply alnum_not_space, Hc).
  unfold before_strip.
  rewrite !nfkd_ascii by assumption.
  rewrite (re_sub_head re_entity)
    by (apply match_at_entity_head; intros ->; discriminate).
  rewrite (re_sub_head re_url) by now apply match_at_url_head.
  rewrite (re_sub_head re_special)
    by (apply match_at_special_head; unfold is_word_or_space;
        unfold is_alnum in Hc; now rewrite Hc).
  rewrite collapse_nonspace by exact Hns.
  rewrite (lower_ascii (re_sub _ _ _)) by apply stages_ascii.
  rewrite lower_ascii; [reflexivity|].
  cbn [forallb]. rewrite stages_ascii.
  cbn [forallb] in Hascii. apply andb_true_iff in Hascii as [-> _].
  reflexivity.
Qed.

(** A text of ASCII without a letter or a digit cleans to nothing. *)
Lemma clean_text_no_alnum (s : pystr) :
  forallb is_ascii s = true ->
  Forall (fun c => is_alnum c = false) s ->
  clean_text (PyStr s) = [].
Proof.
  intros Hascii Hs. rewrite clean_text_str.
  unfold before_strip. rewrite nfkd_ascii by exact Hascii.
  set (t := re_sub re_special _ _).
  assert (Ht : Forall (fun c => is_alnum c = false) t).
  { unfold t. repeat apply re_sub_Forall; try exact Hs;
      rewrite ?lit_space; repeat constructor. }
  assert (Ht' : Forall (fun c => is_word_or_space c = true) t)
    by apply special_stage.
  set (u := re_sub re_spaces (lit " ") t).
  assert (Hu : Forall (fun c => c = 32) u).
  { assert (H1 : Forall (fun c => is_alnum c = false) u)
      by (unfold u; apply re_sub_Forall;
          [rewrite lit_space; repeat constructor | exact Ht]).
    pose proof (spaces_stage t Ht') as H2. fold u in H2.
    rewrite List.Forall_forall in H1, H2. apply List.Forall_forall.
    intros c Hin. specialize (H1 c Hin). specialize (H2 c Hin).
    unfold is_alnum in H1. rewrite H1 in H2. simpl in H2.
    now apply N.eqb_eq. }
  rewrite lower_ascii.
  - unfold strip. rewrite lstrip_all_space; [reflexivity|].
    apply Forall_map. eapply Forall_impl; [exact Hu|].
    intros c ->. reflexivity.
  - apply Forall_forallb. eapply List.Forall_impl; [|exact Hu].
    intros c ->. reflexivity.
Qed.

End MoreCleanTextFacts.

(** On ASCII text the two library functions can be taken to be their
    restrictions to ASCII. *)
Lemma clean_text_ascii normalize_NFKD str_lower (s : pystr) :
  NFKD_fixes_ascii normalize_NFKD ->
  lower_on_ascii str_lower ->
  forallb is_ascii s = true ->
  clean_text normalize_NFKD str_lower (PyStr s)
  = clean_text ascii_NFKD ascii_str_lower (PyStr s).
Proof.
  intros Hn Hl Hascii. rewrite !clean_text_str. unfold before_strip.
  rewrite Hn by exact Hascii.
  rewrite Hl by apply stages_ascii. reflexivity.
Qed.

Lemma rstrip_nonspace c s :
  is_space c = false -> rstrip (c :: s) = c :: rstrip s.
Proof.
  intros Hc. rewrite rstrip_cons. destruct (rstrip s); now rewrite ?Hc.
Qed.

(** X10: a cleaned text has no white space at either end and no two
    spaces in a row; stripping it again changes nothing. *)
Theorem clean_text_spaces normalize_NFKD str_lower (x : pyval) :
  lower_on_ascii str_lower ->
  strip (clean_text normalize_NFKD str_lower x)
  = clean_text normalize_NFKD str_lower x
  /\ single_spaced (clean_text normalize_NFKD str_lower x) = true
  /\ (forall c s, clean_text normalize_NFKD str_lower x = c :: s -> c <> 32)
  /\ (forall s c, clean_text normalize_NFKD str_lower x = s ++ [c] -> c <> 32).
Proof.
  intros Hl.
  destruct (clean_text_spacing normalize_NFKD str_lower Hl x) as [H1 H2].
  destruct (clean_text_ends normalize_NFKD str_lower x) as [H3 H4].
  auto.
Qed.

Lemma clean_text_spaces_witness :
  single_spaced
    (clean_text ascii_NFKD ascii_str_lower
       (PyStr (lit "  Cocoa   prices,  up!  "))) = true.
Proof.
  apply (clean_text_spaces ascii_NFKD ascii_str_lower
           (PyStr (lit "  Cocoa   prices,  up!  "))).
  intros s _. reflexivity.
Defined.

(** X11: a text that is already in the form [clean_text] produces (only
    characters of [[a-z0-9 ]], single spaces, none at the ends) and holds
    no match of the URL pattern is returned as it is. *)
Theorem clean_text_fixed_point normalize_NFKD str_lower (s : pystr) :
  NFKD_fixes_ascii normalize_NFKD ->
  lower_on_ascii str_lower ->
  Forall (fun c => is_clean_char c = true) s ->
  single_spaced s = true ->
  strip s = s ->
  re_search re_url s = false ->
  clean_text normalize_NFKD str_lower (PyStr s) = s.
Proof. intros Hn Hl. now apply clean_text_canonical. Qed.

Lemma clean_text_fixed_point_witness :
  clean_text ascii_NFKD ascii_str_lower (PyStr (lit "cocoa prices up 5"))
  = lit "cocoa prices up 5".
Proof.
  apply (clean_text_fixed_point ascii_NFKD ascii_str_lower).
  - intros s _. reflexivity.
  - intros s _. reflexivity.
  - vm_compute. repeat constructor.
  - vm_compute. reflexivity.
  - vm_compute. reflexivity.
  - vm_compute. reflexivity.
Defined.

(** X12: the texts the fetcher stores for a page without content and for
    a failed fetch do not clean to the empty string: [Content not found]
    cleans to [content not found], and [Error: ] followed by an ASCII
    message cleans to a text that starts with [error].  So the rows that
    hold them pass the filter on empty content and are scored. *)
Theorem failure_texts_pass_filter normalize_NFKD str_lower (message : pystr) :
  NFKD_fixes_ascii normalize_NFKD ->
  lower_on_ascii str_lower ->
  forallb is_ascii message = true ->
  clean_text normalize_NFKD str_lower (PyStr (lit "Content not found"))
  = lit "content not found"
  /\ (exists rest,
        clean_text normalize_NFKD str_lower (PyStr (lit "Error: " ++ message))
        = lit "error" ++ rest)
  /\ stripped_nonempty
       (clean normalize_NFKD str_lower (PyStr (lit "Content not found")))
     = true
  /\ stripped_nonempty
       (clean normalize_NFKD str_lower (PyStr (lit "Error: " ++ message)))
     = true.
Proof.
  intros Hn Hl Hm.
  assert (Hfound : clean_text normalize_NFKD str_lower
                     (PyStr (lit "Content not found"))
                   = lit "content not found").
  { rewrite (clean_text_ascii _ _ _ Hn Hl) by reflexivity.
    vm_compute. reflexivity. }
  assert (Herror : exists rest,
            clean_text normalize_NFKD str_lower
              (PyStr (lit "Error: " ++ message))
            = lit "error" ++ rest).
  { rewrite clean_text_str.
    change (lit "Error: " ++ message)
      with (69 :: 114 :: 114 :: 111 :: 114 :: 58 :: 32 :: message).
    assert (H5 : forallb is_ascii (58 :: 32 :: message) = true)
      by (cbn [forallb]; now rewrite Hm).
    assert (Hcons : forall c t,
              is_ascii c = true -> forallb is_ascii t = true ->
              forallb is_ascii (c :: t) = true)
      by (intros c t Hc Ht; cbn [forallb]; now rewrite Hc, Ht).
    rewrite !(before_strip_cons normalize_NFKD str_lower Hl Hn)
      by (repeat apply Hcons; try exact H5; try reflexivity; discriminate).
    change (ascii_lower 69) with 101. change (ascii_lower 114) with 114.
    change (ascii_lower 111) with 111.
    unfold strip. rewrite lstrip_fixed by reflexivity.
    rewrite !rstrip_nonspace by reflexivity.
    eexists. reflexivity. }
  split; [exact Hfound | split; [exact Herror |]].
  destruct (clean_text_spacing normalize_NFKD str_lower Hl
              (PyStr (lit "Content not found"))) as [Hst1 _].
  destruct (clean_text_spacing normalize_NFKD str_lower Hl
              (PyStr (lit "Error: " ++ message))) as [Hst2 _].
  unfold clean, stripped_nonempty. rewrite Hst1, Hst2, Hfound.
  destruct Herror as [rest ->]. split; reflexivity.
Qed.

Lemma failure_texts_pass_filter_witness :
  exists rest,
    clean_text ascii_NFKD ascii_str_lower
      (PyStr (lit "Error: " ++ lit "Max retries exceeded"))
    = lit "error" ++ rest.
Proof.
  apply (failure_texts_pass_filter ascii_NFKD ascii_str_lower
           (lit "Max retries exceeded")).
  - intros s _. reflexivity.
  - intros s _. reflexivity.
  - reflexivity.
Defined.

(** X13: an ASCII text without a letter or a digit (white space and
    punctuation only, or nothing at all) cleans to the empty string. *)
Theorem clean_text_without_alnum normalize_NFKD str_lower (s : pystr) :
  NFKD_fixes_ascii normalize_NFKD ->
  lower_on_ascii str_lower ->
  forallb is_ascii s = true ->
  Forall (fun c => is_alnum c = false) s ->
  clean_text normalize_NFKD str_lower (PyStr s) = [].
Proof. intros Hn Hl. now apply clean_text_no_alnum. Qed.

Lemma clean_text_without_alnum_witness :
  clean_text ascii_NFKD ascii_str_lower (PyStr (lit " ... &; !? ")) = [].
Proof.
  apply (clean_text_without_alnum ascii_NFKD ascii_str_lower).
  - intros s _. reflexivity.
  - intros s _. reflexivity.
  - reflexivity.
  - vm_compute. repeat constructor.
Defined.

(* ===================================================================== *)
(** ** More on the normalise-and-score stage *)
(* ===================================================================== *)

Lemma assoc_get_None_names col data :
  assoc_get col data = None <-> ~ In col (List.map fst data).
Proof.
  induction data as [|[c cells] data IH]; simpl.
  - split; [intros _ [] | reflexivity].
  - destruct (String.eqb c col) eqn:E.
    + apply String.eqb_eq in E. split; [discriminate | intros H; tauto].
    + apply String.eqb_neq in E. rewrite IH. tauto.
Qed.

Lemma assoc_get_Some_names col data cells :
  assoc_get col data = Some cells -> In col (List.map fst data).
Proof.
  intros H. destruct (in_dec String.string_dec col (List.map fst data)) as [Hin | Hin];
    [exact Hin|]. apply assoc_get_None_names in Hin. congruence.
Qed.

(** The names after [df[col] = cells]: as before when [col] is a column,
    with [col] added at the end otherwise. *)
Lemma assoc_set_names col cells data :
  List.map fst (assoc_set col cells data)
  = if existsb (String.eqb col) (List.map fst data) then List.map fst data
    else List.map fst data ++ [col].
Proof.
  induction data as [|[c old] data IH]; simpl; [reflexivity|].
  rewrite (String.eqb_sym col c).
  destruct (String.eqb c col) eqn:E; simpl; [reflexivity|].
  rewrite IH. destruct (existsb (String.eqb col) (List.map fst data));
    reflexivity.
Qed.

Lemma existsb_names col (data : list (string * list pyval)) :
  existsb (String.eqb col) (List.map fst data) = true
  <-> In col (List.map fst data).
Proof.
  rewrite existsb_exists. split.
  - intros (c & Hin & E). apply String.eqb_eq in E. now subst c.
  - intros Hin. exists col. split; [exact Hin | apply String.eqb_refl].
Qed.

Lemma apply_column_names f col data :
  List.map fst (apply_column f col data) = List.map fst data.
Proof.
  unfold apply_column. destruct (assoc_get col data) eqn:E; [|reflexivity].
  rewrite assoc_set_names.
  assert (Hin : existsb (String.eqb col) (List.map fst data) = true)
    by (apply existsb_names; eapply assoc_get_Some_names, E).
  now rewrite Hin.
Qed.

Lemma select_rows_names mask (data : list (string * list pyval)) :
  List.map fst (List.map (fun '(c, cells) => (c, select mask cells)) data)
  = List.map fst data.
Proof. induction data as [|[c cells] data IH]; simpl; [|rewrite IH]; reflexivity. Qed.

Lemma assoc_set_length n col cells data :
  length cells = n -> all_length n data ->
  all_length n (assoc_set col cells data).
Proof.
  intros Hc. induction 1 as [|[c old] data Hold Hs IH]; simpl.
  - repeat constructor. exact Hc.
  - destruct (String.eqb c col); constructor; assumption.
Qed.

Lemma apply_column_length n f col data :
  all_length n data -> all_length n (apply_column f col data).
Proof.
  intros H. unfold apply_column. destruct (assoc_get col data) eqn:E; [|exact H].
  apply assoc_set_length; [|exact H]. rewrite length_map.
  exact (assoc_get_Forall _ _ _ _ H E).
Qed.

Lemma select_rows_length {A} n mask (index : list A)
    (data : list (string * list pyval)) :
  length index = n -> all_length n data ->
  all_length (length (select mask index))
    (List.map (fun '(c, cells) => (c, select mask cells)) data).
Proof.
  intros Hi. induction 1 as [|[c cells] data Hc Hs IH]; simpl; constructor;
    [|exact IH].
  apply select_length_eq. lia.
Qed.

Lemma get_column_missing (h : heap) l d col :
  h !! l = Some d -> assoc_get col (df_data d) = None ->
  get_column l col h = (Raise (KeyError col), h).
Proof.
  intros E Ec. unfold get_column.
  rewrite (bind_ok _ _ _ _ _ (read_ok h l d E)). now rewrite Ec.
Qed.

Lemma bind_raise {A B} (c : M A) (k : A -> M B) h e h' :
  c h = (Raise e, h') -> bind c k h = (Raise e, h').
Proof. intros E. unfold bind. now rewrite E. Qed.

Section MoreNormalizeAndScoreFacts.

Variable normalize_NFKD : pystr -> pystr.
Variable str_lower : pystr -> pystr.
Variable repr : pyval -> pystr.
Variable polarity_compound : pystr -> Q.
Variable object_dtype : nat -> string -> bool.

Local Abbreviation clean_and_score :=
  (clean_dataframe_add_sentiment normalize_NFKD str_lower repr
     polarity_compound object_dtype).
Local Abbreviation clean := (clean normalize_NFKD str_lower).
Local Abbreviation scored_table :=
  (scored_table normalize_NFKD str_lower repr polarity_compound).

(** Without a content column the call stops at the filter. *)
Lemma clean_and_score_no_content (h : heap) df d :
  h !! df = Some d ->
  assoc_get "content" (df_data d) = None ->
  fst (clean_and_score df h) = Raise (KeyError "content").
Proof.
  intros Hdf Hc. unfold clean_dataframe_add_sentiment.
  rewrite (bind_ok _ _ _ _ _ (read_ok h df d Hdf)).
  rewrite (bind_ok _ _ h (length h) (h ++ [d]) eq_refl).
  rewrite (bind_ok _ _ _ _ _ (read_ok _ _ d (lookup_snoc h d))).
  rewrite (bind_ok _ _ _ _ _ (apply_column_step clean "title" h d)).
  set (d1 := mkframe (df_index d) (apply_column clean "title" (df_data d))).
  rewrite (bind_ok _ _ _ _ _ (read_ok _ _ d1 (lookup_snoc h d1))).
  rewrite (bind_ok _ _ _ _ _ (apply_column_step clean "content" h d1)).
  set (d2 := mkframe (df_index d1) _).
  assert (Hc2 : assoc_get "content" (df_data d2) = None).
  { unfold d2, d1. cbn [df_data]. unfold apply_column at 1.
    rewrite !assoc_get_apply_ne by discriminate. rewrite Hc.
    rewrite assoc_get_apply_ne by discriminate. exact Hc. }
  rewrite (bind_raise _ _ _ _ _
             (get_column_missing _ _ d2 "content" (lookup_snoc h d2) Hc2)).
  reflexivity.
Qed.

(** On a content column without rows whose dtype is not [object] the call
    stops at [series.str]. *)
Lemma clean_and_score_no_rows (h : heap) df d :
  h !! df = Some d ->
  assoc_get "content" (df_data d) = Some [] ->
  object_dtype df "content" = false ->
  fst (clean_and_score df h) = Raise StrAccessorError.
Proof.
  intros Hdf Hc Hobj. unfold clean_dataframe_add_sentiment.
  rewrite (bind_ok _ _ _ _ _ (read_ok h df d Hdf)).
  rewrite (bind_ok _ _ h (length h) (h ++ [d]) eq_refl).
  rewrite (bind_ok _ _ _ _ _ (read_ok _ _ d (lookup_snoc h d))).
  rewrite (bind_ok _ _ _ _ _ (apply_column_step clean "title" h d)).
  set (d1 := mkframe (df_index d) (apply_column clean "title" (df_data d))).
  rewrite (bind_ok _ _ _ _ _ (read_ok _ _ d1 (lookup_snoc h d1))).
  rewrite (bind_ok _ _ _ _ _ (apply_column_step clean "content" h d1)).
  set (d2 := mkframe (df_index d1) _).
  assert (Hc2 : assoc_get "content" (df_data d2) = Some []).
  { unfold d2, d1. cbn [df_data].
    rewrite (assoc_get_apply_eq _ _ _ [])
      by (rewrite assoc_get_apply_ne by discriminate; exact Hc).
    reflexivity. }
  rewrite (bind_ok _ _ _ _ _
             (get_column_ok _ _ d2 _ _ (lookup_snoc h d2) Hc2)).
  unfold str_accessor. rewrite Hobj. reflexivity.
Qed.

Lemma clean_and_score_result (h : heap) df d content out h' r :
  h !! df = Some d ->
  assoc_get "content" (df_data d) = Some content ->
  clean_and_score df h = (Ok out, h') ->
  h' !! out = Some r ->
  r = scored_table d content.
Proof.
  intros Hdf Hc Hrun Hr.
  assert (Hrows : content = [] -> object_dtype df "content" = true).
  { intros ->. destruct (object_dtype df "content") eqn:Hobj; [reflexivity|].
    pose proof (clean_and_score_no_rows h df d Hdf Hc Hobj) as Hraise.
    rewrite Hrun in Hraise. discriminate. }
  rewrite (clean_and_score_run normalize_NFKD str_lower repr
             polarity_compound object_dtype h df d content Hdf Hc Hrows)
    in Hrun.
  injection Hrun as <- <-. rewrite lookup_snoc in Hr.
  injection Hr as <-. reflexivity.
Qed.

Lemma scored_table_column d content col cells :
  assoc_get col (df_data d) = Some cells ->
  col <> "sentiment_score" ->
  assoc_get col (df_data (scored_table d content))
  = Some (select (List.map stripped_nonempty (List.map clean content))
            (if bool_decide (col = "title" \/ col = "content")
             then List.map clean cells else cells)).
Proof.
  intros Hcol Hne. unfold scored_table, select_rows. cbn [df_data].
  rewrite assoc_get_set_ne by congruence.
  rewrite assoc_get_select.
  assert (H : assoc_get col
                (apply_column clean "content"
                   (apply_column clean "title" (df_data d)))
              = Some (if bool_decide (col = "title" \/ col = "content")
                      then List.map clean cells else cells)).
  { destruct (String.string_dec col "content") as [-> | Hnc].
    - rewrite bool_decide_eq_true_2 by tauto.
      apply assoc_get_apply_eq. rewrite assoc_get_apply_ne by discriminate.
      exact Hcol.
    - rewrite assoc_get_apply_ne by exact Hnc.
      destruct (String.string_dec col "title") as [-> | Hnt].
      + rewrite bool_decide_eq_true_2 by tauto.
        now apply assoc_get_apply_eq.
      + rewrite bool_decide_eq_false_2 by tauto.
        now rewrite assoc_get_apply_ne. }
  now rewrite H.
Qed.

Lemma scored_table_columns d content :
  columns (scored_table d content)
  = if has_column "sentiment_score" d then columns d
    else columns d ++ ["sentiment_score"].
Proof.
  unfold scored_table, columns, select_rows. cbn [df_data].
  rewrite assoc_set_names, select_rows_names, !apply_column_names.
  reflexivity.
Qed.

Lemma scored_table_well_formed d content :
  well_formed d ->
  assoc_get "content" (df_data d) = Some content ->
  well_formed (scored_table d content).
Proof.
  intros [Hnd Hlen] Hc. split.
  - rewrite scored_table_columns.
    destruct (has_column "sentiment_score" d) eqn:D; [exact Hnd|].
    assert (Hnot : ~ In "sentiment_score" (columns d)).
    { intros Hin. apply existsb_names in Hin.
      unfold has_column, columns in D. congruence. }
    apply NoDup_app. split; [exact Hnd|]. split.
    + intros x Hx Hx'. apply list_elem_of_In in Hx.
      apply list_elem_of_singleton in Hx'. subst x. contradiction.
    + apply NoDup_singleton.
  - assert (Hlc : length content = length (df_index d))
      by exact (assoc_get_Forall _ _ _ _ Hlen Hc).
    unfold scored_table, select_rows, reset_index. cbn [df_data df_index].
    rewrite length_map, length_seq.
    apply assoc_set_length.
    + rewrite length_map. apply select_length_eq.
      rewrite length_map. exact Hlc.
    + apply (select_rows_length (length (df_index d))); [reflexivity|].
      do 2 apply apply_column_length. exact Hlen.
Qed.

End MoreNormalizeAndScoreFacts.

(** X14: on a table without a [content] column the call raises
    [KeyError]: the cleaning of the column is guarded, the filter on it is
    not. *)
Theorem clean_dataframe_without_content
    normalize_NFKD str_lower repr polarity_compound object_dtype
    (h : heap) (df : nat) (d : DataFrame) :
  h !! df = Some d ->
  assoc_get "content" (df_data d) = None ->
  fst (clean_dataframe_add_sentiment normalize_NFKD str_lower repr
         polarity_compound object_dtype df h)
  = Raise (KeyError "content").
Proof. apply clean_and_score_no_content. Qed.

Lemma clean_dataframe_without_content_witness :
  fst (clean_dataframe_add_sentiment ascii_NFKD ascii_str_lower sample_repr
         neutral_polarity no_object_dtype 0%nat [titles_only])
  = Raise (KeyError "content").
Proof.
  apply (clean_dataframe_without_content ascii_NFKD ascii_str_lower
           sample_repr neutral_polarity no_object_dtype [titles_only] 0%nat
           titles_only).
  - reflexivity.
  - reflexivity.
Defined.



(** X15: in the table returned, every column of the input other than
    [sentiment_score] holds the cells of the rows kept, in their order:
    cleaned for [title] and [content], as they were for the others. *)
Theorem clean_dataframe_columns
    normalize_NFKD str_lower repr polarity_compound object_dtype
    (h h' : heap) (df out : nat) (d r : DataFrame)
    (content cells : list pyval) (col : string) :
  h !! df = Some d ->
  assoc_get "content" (df_data d) = Some content ->
  assoc_get col (df_data d) = Some cells ->
  col <> "sentiment_score" ->
  clean_dataframe_add_sentiment normalize_NFKD str_lower repr
    polarity_compound object_dtype df h = (Ok out, h') ->
  h' !! out = Some r ->
  assoc_get col (df_data r)
  = Some (select
            (List.map stripped_nonempty
               (List.map (clean normalize_NFKD str_lower) content))
            (if bool_decide (col = "title" \/ col = "content")
             then List.map (clean normalize_NFKD str_lower) cells
             else cells)).
Proof.
  intros Hdf Hc Hcol Hne Hrun Hr.
  rewrite (clean_and_score_result _ _ _ _ _ _ _ _ _ _ _ _ Hdf Hc Hrun Hr).
  now apply scored_table_column.
Qed.

(** X16: the table returned for a well-formed table with a content column
    is well formed, and its columns are those of the input in their order,
    with [sentiment_score] added at the end when the input has no such
    column. *)
Theorem clean_dataframe_well_formed
    normalize_NFKD str_lower repr polarity_compound object_dtype
    (h h' : heap) (df out : nat) (d r : DataFrame) (content : list pyval) :
  h !! df = Some d ->
  well_formed d ->
  assoc_get "content" (df_data d) = Some content ->
  clean_dataframe_add_sentiment normalize_NFKD str_lower repr
    polarity_compound object_dtype df h = (Ok out, h') ->
  h' !! out = Some r ->
  well_formed r
  /\ columns r
     = if has_column "sentiment_score" d then columns d
       else columns d ++ ["sentiment_score"].
Proof.
  intros Hdf Hwf Hc Hrun Hr.
  rewrite (clean_and_score_result _ _ _ _ _ _ _ _ _ _ _ _ Hdf Hc Hrun Hr).
  split; [now apply scored_table_well_formed | apply scored_table_columns].
Qed.

(** X17: the table returned is a new object: its reference was not in use
    before the call. *)
Theorem clean_dataframe_returns_new
    normalize_NFKD str_lower repr polarity_compound object_dtype
    (h : heap) (df out : nat) :
  fst (clean_dataframe_add_sentiment normalize_NFKD str_lower repr
         polarity_compound object_dtype df h) = Ok out ->
  h !! out = None.
Proof.
  intros H.
  destruct (clean_and_score_keeps normalize_NFKD str_lower repr
              polarity_compound object_dtype (length h) df h (le_n _))
    as (_ & _ & Hq).
  apply lookup_ge_None. now apply Hq.
Qed.

Lemma clean_dataframe_columns_witness :
  assoc_get "title"
    (df_data (scored_table ascii_NFKD ascii_str_lower sample_repr
                neutral_polarity sample_table
                [PyStr (lit "Cocoa prices rose 5% today"); PyStr (lit " ... ");
                 PyStr (lit "Content not found")]))
  = Some [PyStr (lit "x cocoa prices rise"); PyStr (lit "cocoa board")].
Proof.
  assert (Hdf : [sample_table] !! 0%nat = Some sample_table) by reflexivity.
  assert (Hc : assoc_get "content" (df_data sample_table)
               = Some [PyStr (lit "Cocoa prices rose 5% today");
                       PyStr (lit " ... "); PyStr (lit "Content not found")])
    by reflexivity.
  assert (Ht : assoc_get "title" (df_data sample_table)
               = Some [PyStr (lit "X Cocoa Prices Rise"); PyStr (lit "Cocoa?");
                       PyStr (lit "COCOA board")])
    by reflexivity.
  pose proof (clean_and_score_run ascii_NFKD ascii_str_lower sample_repr
                neutral_polarity no_object_dtype _ _ _ _ Hdf Hc
                ltac:(discriminate)) as Hrun.
  cbv zeta in Hrun.
  etransitivity;
    [exact (clean_dataframe_columns ascii_NFKD ascii_str_lower sample_repr
              neutral_polarity no_object_dtype _ _ _ _ _ _ _ _ "title"
              Hdf Hc Ht ltac:(discriminate) Hrun (lookup_snoc _ _))|].
  vm_compute. reflexivity.
Defined.

Lemma clean_dataframe_well_formed_witness :
  well_formed
    (scored_table ascii_NFKD ascii_str_lower sample_repr neutral_polarity
       sample_table
       [PyStr (lit "Cocoa prices rose 5% today"); PyStr (lit " ... ");
        PyStr (lit "Content not found")]).
Proof.
  assert (Hdf : [sample_table] !! 0%nat = Some sample_table) by reflexivity.
  assert (Hc : assoc_get "content" (df_data sample_table)
               = Some [PyStr (lit "Cocoa prices rose 5% today");
                       PyStr (lit " ... "); PyStr (lit "Content not found")])
    by reflexivity.
  pose proof (clean_and_score_run ascii_NFKD ascii_str_lower sample_repr
                neutral_polarity no_object_dtype _ _ _ _ Hdf Hc
                ltac:(discriminate)) as Hrun.
  cbv zeta in Hrun.
  exact (proj1 (clean_dataframe_well_formed ascii_NFKD ascii_str_lower
                  sample_repr neutral_polarity no_object_dtype _ _ _ _ _ _ _
                  Hdf sample_table_well_formed Hc Hrun (lookup_snoc _ _))).
Defined.

Lemma clean_dataframe_returns_new_witness :
  [sample_table] !! 3%nat = None.
Proof.
  apply (clean_dataframe_returns_new ascii_NFKD ascii_str_lower sample_repr
           neutral_polarity no_object_dtype [sample_table] 0%nat 3%nat).
  vm_compute. reflexivity.
Defined.

Local Open Scope Z_scope.

(* ===================================================================== *)
(** ** More on the enumerator *)
(* ===================================================================== *)

Lemma str_lt_irrefl s : str_lt s s = false.
Proof.
  induction s as [|c s IH]; [reflexivity|].
  simpl. now rewrite N.ltb_irrefl, N.eqb_refl.
Qed.

Lemma entries_from_nonempty platform_Y n k :
  (0 < k)%nat -> entries_from platform_Y n k <> [].
Proof. destruct k; [lia | discriminate]. Qed.

(** The keys and the URLs of a run of days, from year 1000 on, are pairwise
    different. *)
Lemma entries_from_NoDup platform_Y n k :
  1 <= n -> n + Z.of_nat k <= MAXORDINAL + 1 ->
  1000 <= year (ord2ymd n) ->
  NoDup (List.map fst (entries_from platform_Y n k))
  /\ NoDup (List.map snd (entries_from platform_Y n k)).
Proof.
  intros Hn Hk Hy.
  assert (Hlt : forall i j, (i < j)%nat -> (j < k)%nat ->
            str_lt (strftime_Ymd platform_Y (ord2ymd (n + Z.of_nat i)))
                   (strftime_Ymd platform_Y (ord2ymd (n + Z.of_nat j))) = true).
  { intros i j Hij Hjk.
    destruct (ord2ymd_spec n ltac:(lia)) as [Hv0 Ho0].
    destruct (ord2ymd_spec (n + Z.of_nat i) ltac:(lia)) as [Hvi Hoi].
    destruct (ord2ymd_spec (n + Z.of_nat j) ltac:(lia)) as [Hvj Hoj].
    apply strftime_Ymd_lt; try assumption.
    - assert (Hd : date_le (ord2ymd n) (ord2ymd (n + Z.of_nat i)) = true).
      { rewrite date_le_ordinal, Ho0, Hoi by assumption. apply Z.leb_le. lia. }
      apply date_le_year in Hd. lia.
    - apply date_lt_of_ordinal; try assumption. lia. }
  assert (Hne : forall i j, (i < k)%nat -> (j < k)%nat ->
            strftime_Ymd platform_Y (ord2ymd (n + Z.of_nat i))
            = strftime_Ymd platform_Y (ord2ymd (n + Z.of_nat j)) ->
            i = j).
  { intros i j Hi Hj E.
    destruct (Nat.lt_trichotomy i j) as [H | [H | H]]; [|exact H|].
    - pose proof (Hlt i j H Hj) as L. rewrite E, str_lt_irrefl in L.
      discriminate.
    - pose proof (Hlt j i H Hi) as L. rewrite E, str_lt_irrefl in L.
      discriminate. }
  split; apply NoDup_alt; intros i j x Hi Hj;
    rewrite list_lookup_fmap in Hi, Hj;
    destruct (entries_from platform_Y n k !! i) as [ei|] eqn:Ei;
    try discriminate;
    destruct (entries_from platform_Y n k !! j) as [ej|] eqn:Ej;
    try discriminate;
    assert (Hik : (i < k)%nat)
      by (apply lookup_lt_Some in Ei; now rewrite entries_from_length in Ei);
    assert (Hjk : (j < k)%nat)
      by (apply lookup_lt_Some in Ej; now rewrite entries_from_length in Ej);
    rewrite entries_from_lookup in Ei, Ej by assumption;
    apply Some_inj in Ei, Ej; subst ei ej;
    unfold date_entry in Hi, Hj; cbn [fmap option_fmap option_map fst snd] in Hi, Hj;
    apply Some_inj in Hi, Hj; subst x; apply Hne; try assumption.
  - now symmetry.
  - unfold listing_url in Hj. apply app_inv_head in Hj. now symmetry.
Qed.

Section MoreEnumeratorFacts.

Variable platform_Y : Z -> pystr.

(** What [generate_date_urls] returns for two dates of the calendar. *)
Lemma generate_date_urls_cases fuel start_date end_date :
  valid_date start_date -> valid_date end_date ->
  (Z.to_nat (days_between start_date end_date + 1) < fuel)%nat ->
  generate_date_urls platform_Y fuel start_date end_date
  = if date_le start_date end_date then
      if toordinal end_date <? MAXORDINAL then
        Some (Ok (entries_from platform_Y (toordinal start_date)
                    (Z.to_nat (days_between start_date end_date + 1))))
      else Some (Raise OverflowError)
    else Some (Ok []).
Proof.
  intros Hs He Hfuel. unfold generate_date_urls, days_between in *.
  pose proof (toordinal_range _ Hs) as Rs.
  pose proof (toordinal_range _ He) as Re.
  destruct (date_le start_date end_date) eqn:Hle.
  - assert (Hord : toordinal start_date <= toordinal end_date).
    { rewrite date_le_ordinal in Hle by assumption. now apply Z.leb_le. }
    rewrite <- (ord2ymd_toordinal start_date Hs) at 1.
    destruct (toordinal end_date <? MAXORDINAL) eqn:Hmax.
    + apply Z.ltb_lt in Hmax.
      now rewrite (date_loop_runs platform_Y
                     (Z.to_nat (toordinal end_date - toordinal start_date + 1)))
        by (try assumption; lia).
    + apply Z.ltb_ge in Hmax.
      rewrite <- (ord2ymd_toordinal end_date He).
      replace (toordinal end_date) with MAXORDINAL by lia.
      apply (date_loop_overflows platform_Y
               (Z.to_nat (MAXORDINAL - toordinal start_date))); lia.
  - destruct fuel as [|fuel]; [lia|]. cbn [date_loop]. now rewrite Hle.
Qed.

End MoreEnumeratorFacts.

(** X18: for two dates of the calendar, [generate_date_urls] returns the
    empty list exactly when [start] is after [end]. *)
Theorem generate_date_urls_empty platform_Y fuel start_date end_date :
  valid_date start_date -> valid_date end_date ->
  (Z.to_nat (days_between start_date end_date + 1) < fuel)%nat ->
  generate_date_urls platform_Y fuel start_date end_date = Some (Ok [])
  <-> date_le start_date end_date = false.
Proof.
  intros Hs He Hfuel.
  rewrite (generate_date_urls_cases platform_Y fuel _ _ Hs He Hfuel).
  destruct (date_le start_date end_date) eqn:Hle.
  - split; [|discriminate]. intros H.
    destruct (toordinal end_date <? MAXORDINAL); [|discriminate].
    injection H as H. exfalso. revert H. apply entries_from_nonempty.
    unfold days_between.
    rewrite date_le_ordinal in Hle by assumption. apply Z.leb_le in Hle. lia.
  - split; reflexivity.
Qed.

Lemma generate_date_urls_empty_witness :
  generate_date_urls glibc_Y 1 (mkdate 2016 1 1) (mkdate 2015 12 30)
  = Some (Ok []).
Proof.
  apply (generate_date_urls_empty glibc_Y 1 (mkdate 2016 1 1)
           (mkdate 2015 12 30)).
  - unfold valid_date; simpl; vm_compute; intuition discriminate.
  - unfold valid_date; simpl; vm_compute; intuition discriminate.
  - vm_compute. lia.
  - reflexivity.
Defined.

(** X19: whatever the first day, a range that ends on the last day of the
    calendar, 9999-12-31, raises [OverflowError]: the loop steps past the
    last day before it tests the end. *)
Theorem generate_date_urls_raises_at_max platform_Y fuel start_date :
  valid_date start_date ->
  (Z.to_nat (days_between start_date (mkdate 9999 12 31) + 1) < fuel)%nat ->
  generate_date_urls platform_Y fuel start_date (mkdate 9999 12 31)
  = Some (Raise OverflowError).
Proof.
  intros Hs Hfuel.
  assert (He : valid_date (mkdate 9999 12 31))
    by (unfold valid_date; simpl; vm_compute; intuition discriminate).
  rewrite (generate_date_urls_cases platform_Y fuel _ _ Hs He Hfuel).
  assert (Hle : date_le start_date (mkdate 9999 12 31) = true).
  { rewrite date_le_ordinal by assumption. apply Z.leb_le.
    apply (toordinal_range _ Hs). }
  now rewrite Hle.
Qed.

Lemma generate_date_urls_raises_at_max_witness :
  generate_date_urls glibc_Y 5 (mkdate 9999 12 30) (mkdate 9999 12 31)
  = Some (Raise OverflowError).
Proof.
  apply (generate_date_urls_raises_at_max glibc_Y 5 (mkdate 9999 12 30)).
  - unfold valid_date; simpl; vm_compute; intuition discriminate.
  - vm_compute. lia.
Defined.

(** X20: for [start <= end] from year 1000 on and [end] before
    9999-12-31, no date key and no URL is returned twice. *)
Theorem generate_date_urls_distinct platform_Y fuel start_date end_date urls :
  valid_date start_date -> valid_date end_date ->
  date_le start_date end_date = true ->
  1000 <= year start_date ->
  toordinal end_date < MAXORDINAL ->
  (Z.to_nat (days_between start_date end_date + 1) < fuel)%nat ->
  generate_date_urls platform_Y fuel start_date end_date = Some (Ok urls) ->
  NoDup (List.map fst urls) /\ NoDup (List.map snd urls).
Proof.
  intros Hs He Hle Hy Hmax Hfuel.
  rewrite (generate_date_urls_cases platform_Y fuel _ _ Hs He Hfuel), Hle.
  apply Z.ltb_lt in Hmax as Hmax'. rewrite Hmax'. intros H.
  injection H as <-.
  pose proof (toordinal_range _ Hs) as Rs.
  assert (Hord : toordinal start_date <= toordinal end_date).
  { rewrite date_le_ordinal in Hle by assumption. now apply Z.leb_le. }
  apply entries_from_NoDup; unfold days_between; try lia.
  now rewrite ord2ymd_toordinal.
Qed.

Lemma generate_date_urls_distinct_witness :
  exists urls,
    generate_date_urls glibc_Y 5 (mkdate 2015 12 30) (mkdate 2016 1 1)
    = Some (Ok urls)
    /\ NoDup (List.map snd urls).
Proof.
  eexists. split; [vm_compute; reflexivity|].
  eapply (generate_date_urls_distinct glibc_Y 5 (mkdate 2015 12 30)
            (mkdate 2016 1 1)).
  - unfold valid_date; simpl; vm_compute; intuition discriminate.
  - unfold valid_date; simpl; vm_compute; intuition discriminate.
  - reflexivity.
  - simpl; lia.
  - vm_compute; reflexivity.
  - vm_compute; lia.
  - vm_compute. reflexivity.
Defined.

Local Close Scope Z_scope.

(* ===================================================================== *)
(** ** More on the end of the script *)
(* ===================================================================== *)

Lemma first_seen_In seen keys k :
  In k (first_seen seen keys) <-> In k keys /\ ~ In k seen.
Proof.
  revert seen. induction keys as [|c keys IH]; intros seen; simpl.
  - tauto.
  - destruct (existsb (String.eqb c) seen) eqn:E.
    + apply existsb_exists in E as (x & Hx & E). apply String.eqb_eq in E.
      subst x. rewrite IH. split.
      * tauto.
      * intros [[-> | H] Hn]; [contradiction | tauto].
    + assert (Hc : ~ In c seen).
      { intros Hin. apply not_true_iff_false in E. apply E.
        apply existsb_exists. exists c. split; [exact Hin|].
        apply String.eqb_refl. }
      simpl. rewrite IH. simpl. split.
      * intros [<- | [H Hn]]; [tauto|]. tauto.
      * intros [[<- | H] Hn]; [tauto|].
        destruct (String.eqb_spec c k) as [->|Hne]; [tauto|].
        right. split; [exact H|]. intros [?|?]; [congruence | contradiction].
Qed.

Lemma assoc_get_tabulate (f : string -> list pyval) cols k :
  In k cols ->
  assoc_get k (List.map (fun k => (k, f k)) cols) = Some (f k).
Proof.
  induction cols as [|c cols IH]; simpl; [tauto|].
  intros Hin. destruct (String.eqb_spec c k) as [->|Hne]; [reflexivity|].
  apply IH. destruct Hin; [congruence | assumption].
Qed.

Section DriverTableFacts.

Variable normalize_NFKD : pystr -> pystr.
Variable str_lower : pystr -> pystr.
Variable repr : pyval -> pystr.
Variable polarity_compound : pystr -> Q.
Variable object_dtype : nat -> string -> bool.
Variable keys : gmap string pystr -> list string.
Variable nan : pyval.
Variable to_datetime : list pyval -> result (list pyval).

Hypothesis keys_dom : forall record k, In k (keys record) <-> k ∈ dom record.

Local Abbreviation export :=
  (driver_export normalize_NFKD str_lower repr polarity_compound
     object_dtype).
Local Abbreviation table :=
  (driver_table normalize_NFKD str_lower repr polarity_compound object_dtype
     keys nan to_datetime).
Local Abbreviation frame := (DataFrame_of_records keys nan).
Local Abbreviation cell := (cell nan).

(** What the export writes for a well-formed table that has rows. *)
Lemma driver_export_run (h : heap) df d content dates :
  h !! df = Some d ->
  well_formed d ->
  assoc_get "content" (df_data d) = Some content ->
  assoc_get "date" (df_data d) = Some dates ->
  content <> [] ->
  let cleaned := List.map (clean_text normalize_NFKD str_lower) content in
  let keep := List.map (fun s => negb (pystr_eqb (strip s) [])) cleaned in
  fst (export df h)
  = Ok (mkcsv ["date"; "sentiment_score"]
          (zip_with (fun date s => [date; PyFloat (polarity_compound s)])
             (select keep dates) (select keep cleaned))).
Proof.
  intros Hdf [Hnodup Hlens] Hcontent Hdates Hrows cleaned keep.
  set (kept := select keep cleaned).
  pose proof (clean_and_score_run normalize_NFKD str_lower repr
                polarity_compound object_dtype h df d content Hdf Hcontent
                (fun E => False_ind _ (Hrows E))) as Hrun.
  cbv zeta in Hrun.
  set (clean_cell := clean normalize_NFKD str_lower) in *.
  assert (Hmask : List.map stripped_nonempty (List.map clean_cell content) = keep).
  { unfold keep, cleaned. rewrite !List.map_map. reflexivity. }
  assert (Hsel : select keep (List.map clean_cell content) = List.map PyStr kept).
  { unfold kept, cleaned, clean_cell, clean.
    rewrite <- select_map, List.map_map. reflexivity. }
  rewrite Hmask, Hsel in Hrun.
  set (d2 := mkframe (df_index d) _) in *.
  set (d3 := select_rows keep d2) in *.
  set (d5 := mkframe (df_index (reset_index d3)) _) in *.
  assert (Hlen_c : length content = length (df_index d))
    by exact (assoc_get_Forall _ _ _ _ Hlens Hcontent).
  assert (Hlen_d : length dates = length (df_index d))
    by exact (assoc_get_Forall _ _ _ _ Hlens Hdates).
  assert (Hkept_len : length (select keep (df_index d)) = length kept).
  { unfold kept. apply select_length_eq. unfold cleaned.
    rewrite length_map. lia. }
  assert (Hdates_len : length (select keep dates) = length kept).
  { unfold kept. apply select_length_eq. unfold cleaned.
    rewrite length_map. lia. }
  assert (Hscore : List.map (fun x => PyFloat (polarity_compound (py_str repr x)))
                     (List.map PyStr kept)
                   = List.map (fun s => PyFloat (polarity_compound s)) kept)
    by (rewrite List.map_map; reflexivity).
  assert (Hdate5 : assoc_get "date" (df_data d5) = Some (select keep dates)).
  { unfold d5, d3, select_rows. cbn [df_data].
    rewrite assoc_get_set_ne by discriminate.
    rewrite assoc_get_select. unfold d2. cbn [df_data].
    rewrite !assoc_get_apply_ne by discriminate. now rewrite Hdates. }
  assert (Hscore5 : assoc_get "sentiment_score" (df_data d5)
                    = Some (List.map (fun s => PyFloat (polarity_compound s)) kept)).
  { unfold d5. cbn [df_data]. rewrite assoc_get_set_eq, Hscore. reflexivity. }
  unfold driver_export.
  rewrite (bind_ok _ _ _ _ _ Hrun).
  rewrite (bind_ok _ _ _ _ _ (read_ok _ _ d5 (lookup_snoc _ d5))).
  cbn [pick_columns]. rewrite Hdate5, Hscore5.
  set (proj := mkframe (df_index d5) _).
  rewrite (bind_ok _ _ _ _ _ (eq_refl : new_frame proj _ = (Ok _, _ ++ [proj]))).
  rewrite (bind_ok _ _ _ _ _ (read_ok _ _ proj (lookup_snoc _ proj))).
  cbn [ret fst]. f_equal. unfold to_csv, columns, proj.
  cbn [df_data df_index List.map fst]. f_equal.
  unfold d5, reset_index, d3, select_rows, d2. cbn [df_index].
  rewrite length_map, length_seq, Hkept_len, <- Hdates_len.
  rewrite two_column_records by (rewrite length_map; lia).
  now rewrite zip_with_fmap_r.
Qed.

(** The columns of the table built from records that all have the key
    [k]. *)
Lemma records_column records k :
  records <> [] ->
  Forall (fun record => k ∈ dom record) records ->
  assoc_get k (df_data (frame records))
  = Some (List.map (fun record => cell record k) records).
Proof.
  intros Hne Hall. unfold DataFrame_of_records. cbn [df_data].
  apply (assoc_get_tabulate
           (fun k => List.map (fun record => cell record k) records)).
  apply first_seen_In. split; [|simpl; tauto].
  destruct records as [|record records]; [congruence|].
  apply in_concat. exists (keys record). split; [now left|].
  apply keys_dom. now inversion Hall.
Qed.

(** The run of the end of the script on records that have the four keys
    of the script. *)
Lemma driver_table_run (h : heap) records stamps :
  records <> [] ->
  Forall (fun record =>
            dom record = ({["date"; "title"; "url"; "content"]} : gset string))
         records ->
  to_datetime (List.map (fun record => cell record "date") records)
  = Ok stamps ->
  length stamps = length records ->
  let cleaned :=
    List.map (fun record =>
                clean_text normalize_NFKD str_lower (cell record "content"))
             records in
  let keep := List.map (fun s => negb (pystr_eqb (strip s) [])) cleaned in
  fst (table records h)
  = Ok (Some (mkcsv ["date"; "sentiment_score"]
                (zip_with (fun date s => [date; PyFloat (polarity_compound s)])
                   (select keep stamps) (select keep cleaned)))).
Proof.
  intros Hne Hdom Hparse Hlen cleaned keep.
  assert (Hcol : forall k, k ∈ ({["date"; "title"; "url"; "content"]} : gset string) ->
            assoc_get k (df_data (frame records))
            = Some (List.map (fun record => cell record k) records)).
  { intros k Hk. apply records_column; [exact Hne|].
    eapply List.Forall_impl; [|exact Hdom]. intros record ->. exact Hk. }
  destruct records as [|record0 records0]; [congruence|].
  unfold driver_table.
  set (records := record0 :: records0) in *.
  set (d0 := frame records) in *.
  rewrite (bind_ok _ _ h (length h) (h ++ [d0]) eq_refl).
  rewrite (bind_ok _ _ _ _ _
             (get_column_ok _ _ d0 _ _ (lookup_snoc h d0)
                (Hcol "date" ltac:(set_solver)))).
  rewrite Hparse.
  rewrite (bind_ok _ _ _ _ _ (set_column_ok _ _ d0 "date" stamps (lookup_snoc h d0))).
  rewrite insert_snoc.
  set (d1 := mkframe (df_index d0) _).
  rewrite (bind_ok _ _ _ _ _ (read_ok _ _ d1 (lookup_snoc h d1))).
  unfold d1 at 1. cbn [pick_columns df_data].
  rewrite assoc_get_set_eq.
  rewrite !assoc_get_set_ne by discriminate.
  rewrite (Hcol "title" ltac:(set_solver)), (Hcol "content" ltac:(set_solver)),
    (Hcol "url" ltac:(set_solver)).
  set (d2 := mkframe (df_index d1) _).
  rewrite (bind_ok _ _ (h ++ [d1]) (length (h ++ [d1])) ((h ++ [d1]) ++ [d2])
             eq_refl).
  assert (Hwf : well_formed d2).
  { split.
    - apply (bool_decide_unpack _). vm_compute. exact I.
    - unfold d2, d1, d0, DataFrame_of_records. cbn [df_index].
      rewrite length_map, length_seq.
      repeat constructor; rewrite ?length_map; auto. }
  assert (Hrows : List.map (fun record => cell record "content") records
                  <> [])
    by (unfold records; discriminate).
  pose proof (driver_export_run ((h ++ [d1]) ++ [d2]) (length (h ++ [d1])) d2
                _ stamps (lookup_snoc _ d2) Hwf eq_refl eq_refl Hrows)
    as Hexp.
  cbv zeta in Hexp.
  destruct (export (length (h ++ [d1])) ((h ++ [d1]) ++ [d2]))
    as [written h'] eqn:E.
  cbn [fst] in Hexp. subst written.
  unfold bind at 1. rewrite E. cbn [ret fst].
  unfold keep, cleaned. now rewrite !List.map_map.
Qed.

(** A failure of the date parser is the run's failure. *)
Lemma driver_table_parse_error (h : heap) records e :
  records <> [] ->
  Forall (fun record => "date" ∈ dom record) records ->
  to_datetime (List.map (fun record => cell record "date") records)
  = Raise e ->
  fst (table records h) = Raise e.
Proof.
  intros Hne Hdom Hparse.
  pose proof (records_column records "date" Hne Hdom) as Hcol.
  destruct records as [|record0 records0]; [congruence|].
  unfold driver_table.
  set (records := record0 :: records0) in *.
  set (d0 := frame records) in *.
  rewrite (bind_ok _ _ h (length h) (h ++ [d0]) eq_refl).
  rewrite (bind_ok _ _ _ _ _
             (get_column_ok _ _ d0 _ _ (lookup_snoc h d0) Hcol)).
  now rewrite Hparse.
Qed.

End DriverTableFacts.

(** Every record the loop collects has the four keys of the script. *)
Lemma crawl_records_dom fetch date_urls records :
  crawl fetch date_urls [] = Ok records ->
  Forall (fun record =>
            dom record = ({["date"; "title"; "url"; "content"]} : gset string))
         records.
Proof.
  rewrite crawl_run. intros H. injection H as <-. cbn [app].
  apply List.Forall_forall. intros record Hin.
  apply in_concat in Hin as (day & Hday & Hin).
  apply in_map_iff in Hday as ([date_str url] & <- & Hdu).
  unfold day_records in Hin. cbn [fst snd] in Hin.
  apply in_map_iff in Hin as (article & <- & Hin).
  assert (Hall : Forall (fun a => exists title href,
                           a = article_ref date_str title href)
                   (get_articles_from_listing_page fetch url date_str))
    by (apply listing_articles_Forall; intros t h _; eauto).
  rewrite List.Forall_forall in Hall.
  destruct (Hall article Hin) as (title & href & ->).
  unfold with_content. rewrite article_ref_url.
  rewrite dom_insert_L, article_ref_dom. set_solver.
Qed.

Lemma sample_keys_dom (record : gmap string pystr) k :
  In k (sample_keys record) <-> k ∈ dom record.
Proof.
  unfold sample_keys. now rewrite <- list_elem_of_In, elem_of_elements.
Qed.

(** X21: the run from the dates to the export.  When the loop has
    collected at least one record and the dates parse, the script writes
    the header [date], [sentiment_score] and, for each collected record
    whose cleaned content is not empty, in the order of collection, its
    parsed date and the score of its cleaned content.  The order in which
    the keys of the records were inserted plays no part. *)
Theorem driver_end_to_end
    normalize_NFKD str_lower repr polarity_compound object_dtype keys nan
    to_datetime
    (fetch : pystr -> result node) (date_urls : list (pystr * pystr))
    (records : list (gmap string pystr)) (stamps : list pyval) (h : heap) :
  (forall record k, In k (keys record) <-> k ∈ dom record) ->
  crawl fetch date_urls [] = Ok records ->
  records <> [] ->
  to_datetime (List.map (fun record => cell nan record "date") records)
  = Ok stamps ->
  length stamps = length records ->
  let cleaned :=
    List.map (fun record =>
                clean_text normalize_NFKD str_lower (cell nan record "content"))
             records in
  let keep := List.map (fun s => negb (pystr_eqb (strip s) [])) cleaned in
  fst (driver_table normalize_NFKD str_lower repr polarity_compound
         object_dtype keys nan to_datetime records h)
  = Ok (Some (mkcsv ["date"; "sentiment_score"]
                (zip_with (fun date s => [date; PyFloat (polarity_compound s)])
                   (select keep stamps) (select keep cleaned)))).
Proof.
  intros Hkeys Hcrawl Hne Hparse Hlen.
  apply driver_table_run; try assumption.
  exact (crawl_records_dom _ _ _ Hcrawl).
Qed.

Lemma driver_end_to_end_witness :
  exists records,
    crawl (fun _ => Ok (listing_page sample_items))
      [(lit "20150101", lit "u")] [] = Ok records
    /\ fst (driver_table ascii_NFKD ascii_str_lower sample_repr
              neutral_polarity no_object_dtype sample_keys PyNone
              sample_to_datetime records [])
       = Ok (Some (mkcsv ["date"; "sentiment_score"]
                     [[PyTimestamp 735599; PyFloat 0]])).
Proof.
  set (fetch := fun _ : pystr => Ok (listing_page sample_items)).
  set (records := concat (List.map (day_records fetch)
                            [(lit "20150101", lit "u")])).
  assert (Hcrawl : crawl fetch [(lit "20150101", lit "u")] [] = Ok records)
    by apply crawl_run.
  exists records. split; [exact Hcrawl|].
  assert (Hne : records <> []) by (vm_compute; discriminate).
  assert (Hlen : length (List.map (fun _ : pyval => PyTimestamp 735599)
                           (List.map (fun record => cell PyNone record "date")
                              records))
                 = length records)
    by now rewrite !length_map.
  etransitivity;
    [exact (driver_end_to_end ascii_NFKD ascii_str_lower sample_repr
              neutral_polarity no_object_dtype sample_keys PyNone
              sample_to_datetime fetch _ records _ [] sample_keys_dom Hcrawl
              Hne eq_refl Hlen)|].
  vm_compute. reflexivity.
Defined.

(** X22: a date that does not parse stops the script: the exception of
    the parser is the script's, and nothing is written. *)
Theorem driver_stops_on_unparsed_date
    normalize_NFKD str_lower repr polarity_compound object_dtype keys nan
    to_datetime
    (records : list (gmap string pystr)) (e : exn) (h : heap) :
  (forall record k, In k (keys record) <-> k ∈ dom record) ->
  records <> [] ->
  Forall (fun record => "date" ∈ dom record) records ->
  to_datetime (List.map (fun record => cell nan record "date") records)
  = Raise e ->
  fst (driver_table normalize_NFKD str_lower repr polarity_compound
         object_dtype keys nan to_datetime records h)
  = Raise e.
Proof.
  intros Hkeys Hne Hdom Hparse. now apply driver_table_parse_error.
Qed.

Lemma driver_stops_on_unparsed_date_witness :
  fst (driver_table ascii_NFKD ascii_str_lower sample_repr neutral_polarity
         no_object_dtype sample_keys PyNone (fun _ => Raise ValueError)
         [<["date" := lit "2015"]> ∅] [])
  = Raise ValueError.
Proof.
  apply (driver_stops_on_unparsed_date ascii_NFKD ascii_str_lower sample_repr
           neutral_polarity no_object_dtype sample_keys PyNone
           (fun _ => Raise ValueError)
           [<["date" := lit "2015"]> ∅] ValueError []).
  - exact sample_keys_dom.
  - discriminate.
  - constructor; [|constructor]. rewrite dom_insert_L. set_solver.
  - reflexivity.
Defined.
